(** * Out-of-band manager (RFC 0434): a shallow embedding of
    [aries_cloudagent/protocols/out_of_band/v1_0/manager.py]

    The manager is asynchronous Python that threads a record store, an event
    bus and a set of injected collaborators through every call.  It is
    embedded as state passing over a [World]: each coroutine becomes a
    function from worlds to a result (a value or a raised exception) and a new
    world.  A raised exception keeps every effect performed before it, as in
    Python, where nothing is rolled back.

    Collaborators that live outside the manager (wallet, responder, mediation,
    handshake managers, DID resolution, the scheduler of the other tasks) are
    fields of the class [Collaborators]; they only see an environment state
    [E] of their own.

    The world has four more parts.  The two record stores are maps from ids
    to records.  The event bus is the list of record events published so far;
    a subscription is a position in it.  The effect log is what the task at
    hand did, in program order; it is how the statements speak about order
    (the subscription before the read) and about number (one notification).
    Other tasks run where the task at hand is suspended in one of its two
    waits (at each read of the awaited record and while it awaits the event):
    there the environment names the inbound messages that are handled
    meanwhile, by the handlers of this same manager, and their writes land in
    the shared stores and on the bus but not in the log of this task. *)

From Stdlib Require Import ZArith.
From stdpp Require Import gmap strings list fin_maps pretty.

Open Scope string_scope.

(** ** Protocol messages *)

Inductive HSProto := RFC160 | RFC23.

#[global] Instance HSProto_eq_dec : EqDecision HSProto.
Proof. solve_decision. Defined.

(** [messages/service.py]: the inline service block of an invitation. *)
Record ServiceMessage := {
  svc_id : string;
  svc_type : string;
  recipient_keys : list string;
  routing_keys : list string;
  service_endpoint : option string }.

Definition set_recipient_keys (v : list string) (s : ServiceMessage) : ServiceMessage :=
  {| svc_id := svc_id s; svc_type := svc_type s; recipient_keys := v;
     routing_keys := routing_keys s; service_endpoint := service_endpoint s |}.
Definition set_routing_keys (v : list string) (s : ServiceMessage) : ServiceMessage :=
  {| svc_id := svc_id s; svc_type := svc_type s; recipient_keys := recipient_keys s;
     routing_keys := v; service_endpoint := service_endpoint s |}.

(** An entry of [invitation.services] is a bare DID ([str]) or a service block. *)
Inductive ServiceItem :=
| ServiceDID (did : string)
| ServiceBlock (service : ServiceMessage).

(** An attached application message: an opaque body and its [~thread] dict. *)
Record AppMessage := {
  app_body : string;
  app_thread : list (string * string) }.

(** An entry of [requests~attach]: an [AttachDecorator] or anything else. *)
Inductive Attach :=
| AttachDecorator (content : AppMessage)
| AttachOther (raw : string).

Module InvitationMessage.
Record t := {
    _id : string;
    label : option string;
    handshake_protocols : list string;
    requests_attach : list Attach;
    services : list ServiceItem }.

Definition set_services (v : list ServiceItem) (m : t) : t :=
    {| _id := _id m; label := label m; handshake_protocols := handshake_protocols m;
       requests_attach := requests_attach m; services := v |}.
End InvitationMessage.

Record Thread := { thid : string; pthid : string }.

(** [HandshakeReuse], [HandshakeReuseAccept] and [OOBProblemReport] are used
    through their message id and thread decorator only. *)
Record AgentMessage := {
  _message_id : string;
  _thread : option Thread }.

(** A message without a thread decorator is its own thread. *)
Definition _thread_id (m : AgentMessage) : string :=
  match _thread m with
  | Some t => thid t
  | None => _message_id m
  end.

Definition assign_thread_id (m : AgentMessage) (thid pthid : string) : AgentMessage :=
  {| _message_id := _message_id m; _thread := Some {| thid := thid; pthid := pthid |} |}.

Record MessageReceipt := { sender_did : option string }.

(** ** Records *)

Module OobRecord.
Inductive Role := ROLE_SENDER | ROLE_RECEIVER.
Inductive State :=
  | STATE_INITIAL
  | STATE_AWAIT_RESPONSE
  | STATE_NOT_ACCEPTED
  | STATE_ACCEPTED
  | STATE_DONE.

#[global] Instance State_eq_dec : EqDecision State.
Proof. solve_decision. Defined.

Record t := {
    oob_id : option string;
    role : Role;
    state : State;
    invi_msg_id : string;
    reuse_msg_id : option string;
    connection_id : option string;
    invitation : InvitationMessage.t;
    our_recipient_key : option string }.

Definition set_oob_id (v : option string) (r : t) : t :=
    {| oob_id := v; role := role r; state := state r; invi_msg_id := invi_msg_id r;
       reuse_msg_id := reuse_msg_id r; connection_id := connection_id r;
       invitation := invitation r; our_recipient_key := our_recipient_key r |}.
Definition set_state (v : State) (r : t) : t :=
    {| oob_id := oob_id r; role := role r; state := v; invi_msg_id := invi_msg_id r;
       reuse_msg_id := reuse_msg_id r; connection_id := connection_id r;
       invitation := invitation r; our_recipient_key := our_recipient_key r |}.
Definition set_reuse_msg_id (v : option string) (r : t) : t :=
    {| oob_id := oob_id r; role := role r; state := state r; invi_msg_id := invi_msg_id r;
       reuse_msg_id := v; connection_id := connection_id r;
       invitation := invitation r; our_recipient_key := our_recipient_key r |}.
Definition set_connection_id (v : option string) (r : t) : t :=
    {| oob_id := oob_id r; role := role r; state := state r; invi_msg_id := invi_msg_id r;
       reuse_msg_id := reuse_msg_id r; connection_id := v;
       invitation := invitation r; our_recipient_key := our_recipient_key r |}.
Definition set_our_recipient_key (v : option string) (r : t) : t :=
    {| oob_id := oob_id r; role := role r; state := state r; invi_msg_id := invi_msg_id r;
       reuse_msg_id := reuse_msg_id r; connection_id := connection_id r;
       invitation := invitation r; our_recipient_key := v |}.
Definition set_invitation (v : InvitationMessage.t) (r : t) : t :=
    {| oob_id := oob_id r; role := role r; state := state r; invi_msg_id := invi_msg_id r;
       reuse_msg_id := reuse_msg_id r; connection_id := connection_id r;
       invitation := v; our_recipient_key := our_recipient_key r |}.
End OobRecord.

Module ConnRecord.
Inductive Accept := ACCEPT_AUTO | ACCEPT_MANUAL.
Inductive InvitationMode := INVITATION_MODE_ONCE | INVITATION_MODE_MULTI.

#[global] Instance InvitationMode_eq_dec : EqDecision InvitationMode.
Proof. solve_decision. Defined.

(** [ConnRecord.Role.REQUESTER.rfc23] and [ConnRecord.State.INVITATION.rfc23];
      the state is the string that [delete_stale_connection_by_invitation]
      filters on. *)
Definition Role_REQUESTER_rfc23 : string := "requester".
Definition State_INVITATION_rfc23 : string := "invitation".

Record t := {
    connection_id : option string;
    invitation_key : option string;
    invitation_msg_id : option string;
    their_role : option string;
    state : string;
    accept : Accept;
    invitation_mode : InvitationMode;
    alias : option string;
    connection_protocol : option string;
    their_public_did : option string;
    attached_invitation : option InvitationMessage.t;
    metadata : list (string * string) }.

Definition set_connection_id (v : option string) (c : t) : t :=
    {| connection_id := v; invitation_key := invitation_key c;
       invitation_msg_id := invitation_msg_id c; their_role := their_role c;
       state := state c; accept := accept c; invitation_mode := invitation_mode c;
       alias := alias c; connection_protocol := connection_protocol c;
       their_public_did := their_public_did c;
       attached_invitation := attached_invitation c; metadata := metadata c |}.
Definition set_invitation_msg_id (v : option string) (c : t) : t :=
    {| connection_id := connection_id c; invitation_key := invitation_key c;
       invitation_msg_id := v; their_role := their_role c;
       state := state c; accept := accept c; invitation_mode := invitation_mode c;
       alias := alias c; connection_protocol := connection_protocol c;
       their_public_did := their_public_did c;
       attached_invitation := attached_invitation c; metadata := metadata c |}.
Definition set_attached_invitation (v : option InvitationMessage.t) (c : t) : t :=
    {| connection_id := connection_id c; invitation_key := invitation_key c;
       invitation_msg_id := invitation_msg_id c; their_role := their_role c;
       state := state c; accept := accept c; invitation_mode := invitation_mode c;
       alias := alias c; connection_protocol := connection_protocol c;
       their_public_did := their_public_did c;
       attached_invitation := v; metadata := metadata c |}.
Definition set_metadata (v : list (string * string)) (c : t) : t :=
    {| connection_id := connection_id c; invitation_key := invitation_key c;
       invitation_msg_id := invitation_msg_id c; their_role := their_role c;
       state := state c; accept := accept c; invitation_mode := invitation_mode c;
       alias := alias c; connection_protocol := connection_protocol c;
       their_public_did := their_public_did c;
       attached_invitation := attached_invitation c; metadata := v |}.
End ConnRecord.

(** [models/invitation.py]: the projection returned to the invitation's creator. *)
Module InvitationRecord.
Inductive State := STATE_INITIAL.
Record t := {
    oob_id : option string;
    state : State;
    invi_msg_id : string;
    invitation : InvitationMessage.t;
    invitation_url : string }.
End InvitationRecord.

(** ** Exceptions *)

(** The text of an [OutOfBandManagerError], with the values its f-string
    interpolates. *)
Inductive Error :=
| StorageNotFoundError
| StorageDuplicateError
| AttributeError (attr : string)
| InjectionError
| IndexError
| TimeoutError
| CollaboratorError (what : string)
| OutOfBandManagerError (msg : ErrorText)
with ErrorText :=
| MustIncludeHandshakeOrAttachments
| PublicMultiUse
| PublicMetadata
| MultiUseAttachments
| UnknownAttachmentType (a_type : option string)
| PublicInvitesNotEnabled
| NoPublicDid
| ServiceArrayNotOne
| MustSpecifyHandshakeOrAttach
| RequestsAttachMalformed
| UnableToCreateConnection (supported : list (option HSProto))
| ErrorCreatingReuse (err : Error)
| ErrorProcessingReuseAccepted (invi_msg_id : string) (err : Error)
| ErrorProcessingProblemReport (invi_msg_id : string) (err : Error).

Inductive Res (A : Type) :=
| Ok (a : A)
| Raise (err : Error).
Arguments Ok {A} a.
Arguments Raise {A} err.

(** ** Effects *)

(** A value of a webhook payload: [None], a [str], or a tuple of [str]. *)
Inductive PyVal :=
| PyNone
| PyStr (s : string)
| PyTuple (items : list string).

Definition py_opt (o : option string) : PyVal :=
  match o with Some s => PyStr s | None => PyNone end.

(** [str(x)] inside an f-string, for an optional string. *)
Definition py_str (o : option string) : string :=
  match o with Some s => s | None => "None" end.

Definition REUSE_WEBHOOK_TOPIC : string := "acapy::webhook::connection_reuse".
Definition REUSE_ACCEPTED_WEBHOOK_TOPIC : string :=
  "acapy::webhook::connection_reuse_accepted".

(** The event categories the two waits subscribe to. *)
Inductive EventPattern := OOB_REUSE_RESPONSE_STATE | CONNECTION_READY_EVENT.

(** A message handed to the responder. *)
Inductive Outbound :=
| OutReuse (m : AgentMessage)
| OutReuseAccept (m : AgentMessage)
| OutKeylistUpdate (keys : list string).

(** Where the responder is asked to deliver: [target_list=] or [connection_id=]. *)
Inductive Destination :=
| ToTargets (target_list : list (option string * list string))
| ToConnection (connection_id : option string).

(** What one logical task does to its collaborators, in program order. *)
Inductive Effect :=
| EvWaitFor (timeout : Z)
| EvSubscribe (pattern : EventPattern) (record_id : option string)
| EvRetrieveOob (oob_id : option string)
| EvRetrieveConn (connection_id : option string)
| EvAwaitEvent
| EvTimeout
| EvSaveOob (r : OobRecord.t)
| EvSaveConn (c : ConnRecord.t)
| EvNotify (topic : string) (payload : list (string * PyVal))
| EvSend (m : Outbound) (dest : Destination)
| EvCreateKey (verkey : string)
| EvHandshake (protocol : HSProto)
| EvHandleMessage (content : AppMessage).

(** A record event on the event bus: the payload is the saved record. *)
Inductive BusEvent :=
| BusOob (r : OobRecord.t)
| BusConn (c : ConnRecord.t).

(** An inbound protocol message that another task handles while this one is
    suspended. *)
Inductive Inbound :=
| InReuse (m : AgentMessage) (receipt : MessageReceipt) (conn : ConnRecord.t)
| InReuseAccept (m : AgentMessage) (receipt : MessageReceipt) (conn : ConnRecord.t)
| InProblemReport (m : AgentMessage) (receipt : MessageReceipt) (conn : ConnRecord.t)
| InConnUpdate (conn : ConnRecord.t).

Record World (E : Type) := {
  oob_store : gmap string OobRecord.t;
  conn_store : gmap string ConnRecord.t;
  bus : list BusEvent;
  trace : list Effect;
  env : E }.
Arguments oob_store {E} w.
Arguments conn_store {E} w.
Arguments bus {E} w.
Arguments trace {E} w.
Arguments env {E} w.

Definition M (E A : Type) : Type := World E → Res A * World E.

#[global] Instance M_ret E : MRet (M E) := λ A a w, (Ok a, w).
#[global] Instance M_bind E : MBind (M E) := λ A B k c w,
  match c w with
  | (Ok a, w') => k a w'
  | (Raise err, w') => (Raise err, w')
  end.

Definition raise {E A} (err : Error) : M E A := λ w, (Raise err, w).

(** [try: body except Exception as e: handler e] *)
Definition try_except {E A} (body : M E A) (handler : Error → M E A) : M E A := λ w,
  match body w with
  | (Ok a, w') => (Ok a, w')
  | (Raise err, w') => handler err w'
  end.

(** A call into a collaborator, which only sees the environment. *)
Definition call {E A} (f : E → Res A * E) : M E A := λ w,
  let '(r, e) := f (env w) in
  (r, {| oob_store := oob_store w; conn_store := conn_store w; bus := bus w;
         trace := trace w; env := e |}).

Definition emit {E} (ev : Effect) : M E unit := λ w,
  (Ok tt, {| oob_store := oob_store w; conn_store := conn_store w; bus := bus w;
             trace := trace w ++ [ev]; env := env w |}).

Definition publish {E} (b : BusEvent) : M E unit := λ w,
  (Ok tt, {| oob_store := oob_store w; conn_store := conn_store w;
             bus := bus w ++ [b]; trace := trace w; env := env w |}).

Definition put_oob {E} (id : string) (r : OobRecord.t) : M E unit := λ w,
  (Ok tt, {| oob_store := <[id := r]> (oob_store w); conn_store := conn_store w;
             bus := bus w; trace := trace w; env := env w |}).

Definition put_conn {E} (id : string) (c : ConnRecord.t) : M E unit := λ w,
  (Ok tt, {| oob_store := oob_store w; conn_store := <[id := c]> (conn_store w);
             bus := bus w; trace := trace w; env := env w |}).

Definition set_conn_store {E} (s : gmap string ConnRecord.t) : M E unit := λ w,
  (Ok tt, {| oob_store := oob_store w; conn_store := s;
             bus := bus w; trace := trace w; env := env w |}).

Definition get_world {E} : M E (World E) := λ w, (Ok w, w).

(** Another task runs [c]: its store writes and bus events are shared, its
    own effect log and its exceptions are not this task's. *)
Definition other_task {E A} (c : M E A) : M E unit := λ w,
  let w' := (c w).2 in
  (Ok tt, {| oob_store := oob_store w'; conn_store := conn_store w'; bus := bus w';
             trace := trace w; env := env w' |}).

(** ** Collaborators *)

Record MediationRecord := {
  mediation_id : string;
  mediation_routing_keys : list string;
  mediation_endpoint : option string;
  mediation_connection_id : option string }.

Record DIDInfo := { did : string; verkey : string }.

(** A connection target, as far as the manager passes it on: endpoint and
    recipient keys. *)
Definition ConnectionTarget : Type := option string * list string.

(** [ConnectionInvitation] of the 0160 connection protocol. *)
Record ConnectionInvitation := {
  ci_id : string;
  ci_type : string;
  ci_label : option string;
  ci_recipient_keys : list string;
  ci_service_endpoint : option string;
  ci_routing_keys : list string }.

(** The four record classes an attachment reference is looked up in. *)
Inductive ExchangeClass :=
| V10CredentialExchange
| V20CredExRecord
| V10PresentationExchange
| V20PresExRecord.

(** Everything the manager reaches through [self.profile], through a manager
    of another protocol, or through a helper of another module.  The first
    group is configuration, the second pure helpers, the third calls whose
    outcome depends on the environment. *)
Class Collaborators (E : Type) := {
  setting_wallet_id : option string;
  setting_debug_auto_accept_requests : bool;
  setting_public_invites : bool;
  setting_default_label : option string;
  setting_default_endpoint : option string;
  multitenant_mgr_present : bool;
  responder_present : bool;
  message_processor_present : bool;
  event_bus_present : bool;

  HSProto_get : string → option HSProto;
  HSProto_name : HSProto → string;
  DIDCommPrefix_unqualify : string → string;
  DIDCommPrefix_qualify_current : string → string;
  DIDKey_from_public_key_b58 : string → Res string;
  DIDKey_from_did : string → Res string;
  to_url : InvitationMessage.t → option string → string;
  is_ready : ConnRecord.t → bool;

  uuid4 : E → string * E;
  other_tasks : E → list Inbound * E;
  mediation_record_if_id : option string → bool → E → Res (option MediationRecord) * E;
  retrieve_exchange : ExchangeClass → option string → E → Res AppMessage * E;
  wallet_get_public_did : E → Res (option DIDInfo) * E;
  wallet_create_signing_key : E → Res DIDInfo * E;
  mediation_add_key : string → option (list string) → E → Res (list string) * E;
  multitenant_add_key : string → string → bool → E → Res unit * E;
  multitenant_get_default_mediator : E → Res (option MediationRecord) * E;
  resolve_invitation : string → E → Res (option string * list string * list string) * E;
  fetch_connection_targets : ConnRecord.t → E → Res (list ConnectionTarget) * E;
  responder_send : Outbound → Destination → E → Res unit * E;
  find_existing_connection : string → E → Res (option ConnRecord.t) * E;
  didx_receive_invitation :
    InvitationMessage.t → option string → option bool → option string → option string →
    E → Res ConnRecord.t * E;
  conn_receive_invitation :
    ConnectionInvitation → option string → option bool → option string → option string →
    E → Res ConnRecord.t * E;
  handle_message : AppMessage → OobRecord.t → E → Res unit * E }.

Section Manager.
Context {E : Type} `{!Collaborators E}.

Local Abbreviation M := (M E).

Definition total {A} (f : E → A * E) : E → Res A * E := λ e,
  let '(a, e') := f e in (Ok a, e').

(** [for x in xs: body x] *)
Fixpoint for_each {A} (body : A → M unit) (xs : list A) : M unit :=
  match xs with
  | [] => mret tt
  | x :: rest => body x;; for_each body rest
  end.

(** [[f(x) for x in xs]] where [f] may raise *)
Fixpoint comprehension {A B} (f : A → Res B) (xs : list A) : M (list B) :=
  match xs with
  | [] => mret []
  | x :: rest =>
      match f x with
      | Ok y => ys ← comprehension f rest; mret (y :: ys)
      | Raise err => raise err
      end
  end.

(** [self.profile.notify(topic, payload)] *)
Definition notify (topic : string) (payload : list (string * PyVal)) : M unit :=
  emit (EvNotify topic payload).

(** [self.profile.inject(cls)]: raises when nothing is bound. *)
Definition inject (present : bool) : M unit :=
  if present then mret tt else raise InjectionError.

(** [responder.send(message, ...)] *)
Definition send (m : Outbound) (dest : Destination) : M unit :=
  emit (EvSend m dest);;
  call (responder_send m dest).

(** *** The record store

    Modelled from the spec: the Record Store of section 2 and the persisted
    state layout of section 6 (one record per id, queryable by tags), which
    [OobRecord] and [ConnRecord] inherit from a base class outside this file.
    A lookup that finds nothing raises [StorageNotFoundError]; a tag query
    meant to find one record raises [StorageDuplicateError] on several.  A
    save assigns an id to a new record, writes the record under its id and
    publishes it on the event bus. *)
Definition OobRecord_retrieve_by_id (oob_id : option string) : M OobRecord.t :=
  emit (EvRetrieveOob oob_id);;
  w ← get_world;
  match oob_id ≫= (oob_store w !!.) with
  | Some r => mret r
  | None => raise StorageNotFoundError
  end.

Definition OobRecord_retrieve_by_tag_filter (tags : OobRecord.t → bool) : M OobRecord.t :=
  w ← get_world;
  match map_to_list (filter (λ kv, tags kv.2) (oob_store w)) with
  | [] => raise StorageNotFoundError
  | [(_, r)] => mret r
  | _ => raise StorageDuplicateError
  end.

Definition OobRecord_save (r : OobRecord.t) : M OobRecord.t :=
  id ← match OobRecord.oob_id r with
       | Some id => mret id
       | None => call (total uuid4)
       end;
  let r := OobRecord.set_oob_id (Some id) r in
  put_oob id r;;
  publish (BusOob r);;
  emit (EvSaveOob r);;
  mret r.

Definition ConnRecord_retrieve_by_id (connection_id : option string) : M ConnRecord.t :=
  emit (EvRetrieveConn connection_id);;
  w ← get_world;
  match connection_id ≫= (conn_store w !!.) with
  | Some c => mret c
  | None => raise StorageNotFoundError
  end.

Definition ConnRecord_save (c : ConnRecord.t) : M ConnRecord.t :=
  id ← match ConnRecord.connection_id c with
       | Some id => mret id
       | None => call (total uuid4)
       end;
  let c := ConnRecord.set_connection_id (Some id) c in
  put_conn id c;;
  publish (BusConn c);;
  emit (EvSaveConn c);;
  mret c.

(** [conn_rec.attach_invitation(session, invi_msg)] and
    [conn_rec.metadata_set(session, key, value)] write next to the record. *)
Definition ConnRecord_attach_invitation (c : ConnRecord.t) (invi_msg : InvitationMessage.t)
  : M ConnRecord.t :=
  match ConnRecord.connection_id c with
  | Some id =>
      let c := ConnRecord.set_attached_invitation (Some invi_msg) c in
      put_conn id c;; mret c
  | None => raise StorageNotFoundError
  end.

Definition ConnRecord_metadata_set (c : ConnRecord.t) (key value : string) : M ConnRecord.t :=
  match ConnRecord.connection_id c with
  | Some id =>
      let c := ConnRecord.set_metadata (ConnRecord.metadata c ++ [(key, value)]) c in
      put_conn id c;; mret c
  | None => raise StorageNotFoundError
  end.

(** ** Reuse protocol *)

(** A new message object gets a fresh [_id]. *)
Definition new_message : M AgentMessage :=
  id ← call (total uuid4);
  mret {| _message_id := id; _thread := None |}.

(** [msg._thread]: reading [.thid] or [.pthid] of a missing decorator raises. *)
Definition thread_of (msg : AgentMessage) : M Thread :=
  match _thread msg with
  | Some t => mret t
  | None => raise (AttributeError "_thread")
  end.

Definition is_stale (invi_msg_id : string) (c : ConnRecord.t) : bool :=
  bool_decide (ConnRecord.invitation_msg_id c = Some invi_msg_id)
  && bool_decide (ConnRecord.invitation_mode c = ConnRecord.INVITATION_MODE_ONCE)
  && bool_decide (ConnRecord.state c = ConnRecord.State_INVITATION_rfc23).

Definition delete_record (id : string) : M unit :=
  w ← get_world;
  set_conn_store (delete id (conn_store w)).

Definition delete_stale_connection_by_invitation (invi_msg_id : string) : M unit :=
  w ← get_world;
  let conn_records := map_to_list (filter (λ kv, is_stale invi_msg_id kv.2) (conn_store w)) in
  for_each (λ kv, delete_record kv.1) conn_records.

Definition reuse_comment (connection_id : option string) (invi_msg_id : string) : string :=
  "Connection " ++ py_str connection_id ++ " is being reused "
  ++ "for invitation " ++ invi_msg_id.

Definition receive_reuse_message
    (reuse_msg : AgentMessage) (receipt : MessageReceipt) (conn_rec : ConnRecord.t) : M unit :=
  thread ← thread_of reuse_msg;
  let invi_msg_id := pthid thread in
  let reuse_msg_id := _thread_id reuse_msg in
  reuse_accept_msg ← new_message;
  let reuse_accept_msg := assign_thread_id reuse_accept_msg reuse_msg_id invi_msg_id in
  connection_targets ← call (fetch_connection_targets conn_rec);
  inject responder_present;;
  oob_record ← OobRecord_retrieve_by_tag_filter (λ r,
    bool_decide (OobRecord.invi_msg_id r = invi_msg_id)
    && bool_decide (OobRecord.state r = OobRecord.STATE_AWAIT_RESPONSE));
  let oob_record := OobRecord.set_state OobRecord.STATE_ACCEPTED oob_record in
  let oob_record := OobRecord.set_reuse_msg_id (Some reuse_msg_id) oob_record in
  let oob_record :=
    OobRecord.set_connection_id (ConnRecord.connection_id conn_rec) oob_record in
  oob_record ← OobRecord_save oob_record;
  let conn_rec := ConnRecord.set_invitation_msg_id (Some invi_msg_id) conn_rec in
  conn_rec ← ConnRecord_save conn_rec;
  delete_stale_connection_by_invitation invi_msg_id;;
  notify REUSE_WEBHOOK_TOPIC
    [("thread_id", PyStr reuse_msg_id);
     ("connection_id", py_opt (ConnRecord.connection_id conn_rec));
     ("comment", PyStr (reuse_comment (ConnRecord.connection_id conn_rec) invi_msg_id))];;
  send (OutReuseAccept reuse_accept_msg) (ToTargets connection_targets).

Definition receive_reuse_accepted_message
    (reuse_accepted_msg : AgentMessage) (receipt : MessageReceipt)
    (conn_record : ConnRecord.t) : M unit :=
  thread ← thread_of reuse_accepted_msg;
  let invi_msg_id := pthid thread in
  let thread_reuse_msg_id := thid thread in
  try_except
    (oob_record ← OobRecord_retrieve_by_tag_filter (λ r,
       bool_decide (OobRecord.invi_msg_id r = invi_msg_id)
       && bool_decide (OobRecord.reuse_msg_id r = Some thread_reuse_msg_id));
     let oob_record := OobRecord.set_state OobRecord.STATE_ACCEPTED oob_record in
     let conn_record := ConnRecord.set_invitation_msg_id (Some invi_msg_id) conn_record in
     conn_record ← ConnRecord_save conn_record;
     oob_record ← OobRecord_save oob_record;
     notify REUSE_ACCEPTED_WEBHOOK_TOPIC
       [("thread_id", PyStr thread_reuse_msg_id);
        ("connection_id", py_opt (ConnRecord.connection_id conn_record));
        ("state", PyStr "accepted");
        ("comment",
         PyStr (reuse_comment (ConnRecord.connection_id conn_record) invi_msg_id))])
    (λ e,
     notify REUSE_ACCEPTED_WEBHOOK_TOPIC
       [("thread_id", PyStr thread_reuse_msg_id);
        ("connection_id", py_opt (ConnRecord.connection_id conn_record));
        ("state", PyStr "rejected");
        ("comment",
         PyStr ("Unable to process HandshakeReuseAccept message, "
                ++ "connection " ++ py_str (ConnRecord.connection_id conn_record) ++ " "
                ++ "and invitation " ++ invi_msg_id))];;
     raise (OutOfBandManagerError (ErrorProcessingReuseAccepted invi_msg_id e))).

Definition receive_problem_report
    (problem_report : AgentMessage) (receipt : MessageReceipt)
    (conn_record : ConnRecord.t) : M unit :=
  thread ← thread_of problem_report;
  let invi_msg_id := pthid thread in
  let thread_reuse_msg_id := thid thread in
  try_except
    (oob_record ← OobRecord_retrieve_by_tag_filter (λ r,
       bool_decide (OobRecord.invi_msg_id r = invi_msg_id)
       && bool_decide (OobRecord.reuse_msg_id r = Some thread_reuse_msg_id));
     let oob_record := OobRecord.set_state OobRecord.STATE_NOT_ACCEPTED oob_record in
     oob_record ← OobRecord_save oob_record;
     mret tt)
    (λ e, raise (OutOfBandManagerError (ErrorProcessingProblemReport invi_msg_id e))).

(** ** Event waiter *)

(** The tasks that run while this one is suspended: each handles one inbound
    message (or, for a connection, stores the progress an external handshake
    protocol made).  Which messages arrive is the environment's choice. *)
Definition handle_inbound (i : Inbound) : M unit :=
  match i with
  | InReuse m receipt conn => other_task (receive_reuse_message m receipt conn)
  | InReuseAccept m receipt conn => other_task (receive_reuse_accepted_message m receipt conn)
  | InProblemReport m receipt conn => other_task (receive_problem_report m receipt conn)
  | InConnUpdate conn => other_task (ConnRecord_save conn)
  end.

Definition suspend : M unit :=
  inbound ← call (total other_tasks);
  for_each handle_inbound inbound.

(** [event.wait_for_event(profile, pattern, filter)]: the subscription sees
    the bus events published from now on. *)
Definition wait_for_event (pattern : EventPattern) (record_id : option string) : M nat :=
  emit (EvSubscribe pattern record_id);;
  w ← get_world;
  mret (length (bus w)).

(** An event of topic [acapy::record::out_of_band::(reuse_accepted|reuse_not_accepted)]
    whose payload has the awaited [oob_id]. *)
Definition reuse_response_event (oob_id : option string) (b : BusEvent) : option OobRecord.t :=
  match b with
  | BusOob r =>
      if bool_decide (OobRecord.state r ∈
                        [OobRecord.STATE_ACCEPTED; OobRecord.STATE_NOT_ACCEPTED])
         && bool_decide (OobRecord.oob_id r = oob_id)
      then Some r else None
  | BusConn _ => None
  end.

(** An event of topic [acapy::record::connections::(active|completed|response)]
    whose payload has the awaited [connection_id]. *)
Definition connection_ready_event (connection_id : option string) (b : BusEvent)
  : option ConnRecord.t :=
  match b with
  | BusConn c =>
      if bool_decide (ConnRecord.state c ∈ ["active"; "completed"; "response"])
         && bool_decide (ConnRecord.connection_id c = connection_id)
      then Some c else None
  | BusOob _ => None
  end.

(** [event = await await_event] under [asyncio.wait_for]: the first matching
    event published since the subscription, or [asyncio.TimeoutError]. *)
Definition await_event {A} (subscription : nat) (matching : BusEvent → option A) : M A :=
  emit EvAwaitEvent;;
  suspend;;
  w ← get_world;
  match head (omap matching (drop subscription (bus w))) with
  | Some payload => mret payload
  | None => emit EvTimeout;; raise TimeoutError
  end.

(** [asyncio.wait_for(coro, timeout)] *)
Definition asyncio_wait_for {A} (coro : M A) (timeout : Z) : M A :=
  emit (EvWaitFor timeout);; coro.

(** [except asyncio.TimeoutError:] *)
Definition except_timeout {A} (body : M A) (handler : M A) : M A := λ w,
  match body w with
  | (Raise TimeoutError, w') => handler w'
  | other => other
  end.

(** [_wait_for_state] of the reuse wait: the event bus is injected, the
    subscription opened, and the record read in a session, which other tasks
    may run ahead of. *)
Definition _wait_for_state_oob (oob_id : option string) : M OobRecord.t :=
  inject event_bus_present;;
  await_event_sub ← wait_for_event OOB_REUSE_RESPONSE_STATE oob_id;
  suspend;;
  oob_record ← OobRecord_retrieve_by_id oob_id;
  if bool_decide (OobRecord.state oob_record ∈
                    [OobRecord.STATE_ACCEPTED; OobRecord.STATE_NOT_ACCEPTED])
  then mret oob_record
  else await_event await_event_sub (reuse_response_event oob_id).

(** After a timeout the record is read once more, in a session of its own. *)
Definition _wait_for_reuse_response (oob_id : option string) (timeout : Z) : M OobRecord.t :=
  except_timeout
    (asyncio_wait_for (_wait_for_state_oob oob_id) timeout)
    (suspend;; OobRecord_retrieve_by_id oob_id).

(** [_wait_for_state] of the connection wait. *)
Definition _wait_for_state_conn (connection_id : option string) : M ConnRecord.t :=
  inject event_bus_present;;
  await_event_sub ← wait_for_event CONNECTION_READY_EVENT connection_id;
  suspend;;
  conn_record ← ConnRecord_retrieve_by_id connection_id;
  if is_ready conn_record
  then mret conn_record
  else await_event await_event_sub (connection_ready_event connection_id).

Definition _wait_for_conn_rec_active (connection_id : option string) (timeout : Z)
  : M (option ConnRecord.t) :=
  except_timeout
    (asyncio_wait_for (c ← _wait_for_state_conn connection_id; mret (Some c)) timeout)
    (mret None).

(** The defaults of the two [timeout] parameters. *)
Definition reuse_response_timeout : Z := 15.
Definition conn_rec_active_timeout : Z := 7.

(** ** Reuse, initiating side *)

Definition _create_handshake_reuse_message
    (oob_record : OobRecord.t) (conn_record : ConnRecord.t) : M OobRecord.t :=
  try_except
    (reuse_msg ← new_message;
     let reuse_msg :=
       assign_thread_id reuse_msg (_message_id reuse_msg) (OobRecord.invi_msg_id oob_record) in
     connection_targets ← call (fetch_connection_targets conn_record);
     inject responder_present;;
     send (OutReuse reuse_msg) (ToTargets connection_targets);;
     let oob_record := OobRecord.set_reuse_msg_id (Some (_message_id reuse_msg)) oob_record in
     let oob_record := OobRecord.set_state OobRecord.STATE_AWAIT_RESPONSE oob_record in
     oob_record ← OobRecord_save oob_record;
     mret oob_record)
    (λ err, raise (OutOfBandManagerError (ErrorCreatingReuse err))).

Definition _handle_hanshake_reuse
    (oob_record : OobRecord.t) (conn_record : ConnRecord.t) : M OobRecord.t :=
  oob_record ← _create_handshake_reuse_message oob_record conn_record;
  oob_record ← _wait_for_reuse_response (OobRecord.oob_id oob_record) reuse_response_timeout;
  if bool_decide (OobRecord.state oob_record ≠ OobRecord.STATE_ACCEPTED) then
    let oob_record := OobRecord.set_connection_id None oob_record in
    notify REUSE_ACCEPTED_WEBHOOK_TOPIC
      [("thread_id", py_opt (OobRecord.reuse_msg_id oob_record));
       ("connection_id", py_opt (ConnRecord.connection_id conn_record));
       ("state", PyStr "rejected");
       ("comment",
        PyTuple
          ["No HandshakeReuseAccept message received, "
           ++ "connection " ++ py_str (ConnRecord.connection_id conn_record) ++ " ";
           "and invitation "
           ++ InvitationMessage._id (OobRecord.invitation oob_record)])];;
    oob_record ← OobRecord_save oob_record;
    mret oob_record
  else mret oob_record.

(** ** Handshake *)

(** [list(dict.fromkeys(xs))]: duplicates removed, first occurrences kept in
    order. *)
Fixpoint dict_fromkeys (seen xs : list string) : list string :=
  match xs with
  | [] => []
  | x :: rest =>
      if bool_decide (x ∈ seen) then dict_fromkeys seen rest
      else x :: dict_fromkeys (x :: seen) rest
  end.

Definition colon : Ascii.ascii := Ascii.Ascii false true false true true true false false.

(** [s.split(":")[-1]] *)
Fixpoint last_segment (acc s : string) : string :=
  match s with
  | EmptyString => acc
  | String c rest =>
      if Ascii.eqb c colon then last_segment "" rest
      else last_segment (acc ++ String c "") rest
  end.

(** [len(s.split(":"))] *)
Fixpoint split_len (s : string) : nat :=
  match s with
  | EmptyString => 1
  | String c rest => if Ascii.eqb c colon then S (split_len rest) else split_len rest
  end.

(** Truth value of an optional string: [None] and [""] are false. *)
Definition truthy (o : option string) : bool :=
  match o with
  | Some s => negb (bool_decide (s = ""))
  | None => false
  end.

(** Truth value of a list (or of [None], which is modelled as the empty list). *)
Definition nonempty {A} (l : list A) : bool :=
  match l with [] => false | _ => true end.

(** A handshake manager stores the connection record it returns. *)
Definition stored_by_collaborator (c : ConnRecord.t) : M unit :=
  match ConnRecord.connection_id c with
  | Some id => put_conn id c
  | None => mret tt
  end.

(** The body of the loop of [_perform_handshake] for a protocol that has a
    branch: what is done before the [break].  The RFC160 branch assigns the
    converted keys to the [service] object, so the branch gives back the
    service as it leaves it. *)
Definition handshake_with
    (protocol : HSProto) (invitation : InvitationMessage.t) (service : ServiceMessage)
    (public_did : option string) (alias : option string) (auto_accept : option bool)
    (mediation_id : option string) : M (ConnRecord.t * ServiceMessage) :=
  match protocol with
  | RFC23 =>
      emit (EvHandshake RFC23);;
      conn_record ←
        call (didx_receive_invitation invitation public_did auto_accept alias mediation_id);
      stored_by_collaborator conn_record;;
      mret (conn_record, service)
  | RFC160 =>
      keys ← comprehension DIDKey_from_did (recipient_keys service);
      let service := set_recipient_keys keys service in
      keys ← comprehension DIDKey_from_did (routing_keys service);
      let service := set_routing_keys keys service in
      let connection_invitation :=
        {| ci_id := InvitationMessage._id invitation;
           ci_type := DIDCommPrefix_qualify_current (HSProto_name RFC160);
           ci_label := InvitationMessage.label invitation;
           ci_recipient_keys := recipient_keys service;
           ci_service_endpoint := service_endpoint service;
           ci_routing_keys := routing_keys service |} in
      emit (EvHandshake RFC160);;
      conn_record ←
        call (conn_receive_invitation connection_invitation public_did auto_accept alias
                mediation_id);
      stored_by_collaborator conn_record;;
      mret (conn_record, service)
  end.

(** [for protocol in supported_handshake_protocols: ... break]: an entry that
    is neither [HSProto.RFC23] nor [HSProto.RFC160] is skipped. *)
Fixpoint handshake_loop
    (protocols : list (option HSProto)) (invitation : InvitationMessage.t)
    (service : ServiceMessage) (public_did : option string) (alias : option string)
    (auto_accept : option bool) (mediation_id : option string)
  : M (option ConnRecord.t * ServiceMessage) :=
  match protocols with
  | [] => mret (None, service)
  | Some protocol :: _ =>
      '(conn_record, service) ←
        handshake_with protocol invitation service public_did alias auto_accept mediation_id;
      mret (Some conn_record, service)
  | None :: rest =>
      handshake_loop rest invitation service public_did alias auto_accept mediation_id
  end.

Definition supported_handshake_protocols (invitation : InvitationMessage.t)
  : list (option HSProto) :=
  HSProto_get <$>
    dict_fromkeys [] (DIDCommPrefix_unqualify <$> InvitationMessage.handshake_protocols invitation).

(** The service of the invitation as a service block: a bare DID is resolved
    to its endpoint and keys first; the public DID is its last segment. *)
Definition resolve_service (service : ServiceItem) : M (ServiceMessage * option string) :=
  match service with
  | ServiceDID service =>
      let public_did := last_segment "" service in
      '(endpoint, recipient_keys, routing_keys) ← call (resolve_invitation service);
      recipient_keys ← comprehension DIDKey_from_public_key_b58 recipient_keys;
      routing_keys ← comprehension DIDKey_from_public_key_b58 routing_keys;
      mret ({| svc_id := "#inline"; svc_type := "did-communication";
               recipient_keys := recipient_keys; routing_keys := routing_keys;
               service_endpoint := endpoint |}, Some public_did)
  | ServiceBlock service => mret (service, None)
  end.

(** The invitation after the loop.  For an inline service, [service] is the
    very object that [invitation.services[0]] holds, so what the RFC160
    branch assigned to it shows in the invitation of the record; for a bare
    DID, [service] is the block built from the resolved DID and the
    invitation is as it was. *)
Definition service_assigned (item : ServiceItem) (service : ServiceMessage)
    (invitation : InvitationMessage.t) : InvitationMessage.t :=
  match item, InvitationMessage.services invitation with
  | ServiceBlock _, _ :: rest =>
      InvitationMessage.set_services (ServiceBlock service :: rest) invitation
  | _, _ => invitation
  end.

Definition _perform_handshake
    (oob_record : OobRecord.t) (alias : option string) (auto_accept : option bool)
    (mediation_id : option string) : M OobRecord.t :=
  let invitation := OobRecord.invitation oob_record in
  let supported_handshake_protocols := supported_handshake_protocols invitation in
  item ← match InvitationMessage.services invitation with
         | service :: _ => mret service
         | [] => raise IndexError
         end;
  '(service, public_did) ← resolve_service item;
  '(conn_record, service) ←
    handshake_loop supported_handshake_protocols invitation service public_did alias
      auto_accept mediation_id;
  match conn_record with
  | None =>
      raise (OutOfBandManagerError (UnableToCreateConnection supported_handshake_protocols))
  | Some conn_record =>
      let oob_record :=
        OobRecord.set_invitation (service_assigned item service invitation) oob_record in
      let oob_record :=
        OobRecord.set_connection_id (ConnRecord.connection_id conn_record) oob_record in
      oob_record ← OobRecord_save oob_record;
      mret oob_record
  end.

(** ** Orchestrator *)

(** [except StorageNotFoundError:] *)
Definition except_not_found {A} (body : M A) (handler : M A) : M A := λ w,
  match body w with
  | (Raise StorageNotFoundError, w') => handler w'
  | other => other
  end.

Definition _respond_request_attach (oob_record : OobRecord.t) : M unit :=
  let invitation := OobRecord.invitation oob_record in
  req_attach ← match InvitationMessage.requests_attach invitation with
               | req_attach :: _ => mret req_attach
               | [] => raise IndexError
               end;
  match req_attach with
  | AttachOther _ => raise (OutOfBandManagerError RequestsAttachMalformed)
  | AttachDecorator content =>
      inject message_processor_present;;
      emit (EvHandleMessage content);;
      call (handle_message content oob_record)
  end.

(** [receive_invitation] from "Try to create a connection" to its end: the
    part that the early return on an accepted reuse skips. *)
Definition receive_invitation_connect
    (invitation : InvitationMessage.t) (oob_record : OobRecord.t)
    (conn_rec : option ConnRecord.t) (auto_accept : option bool) (alias : option string)
    (mediation_id : option string) : M OobRecord.t :=
  '(oob_record, conn_rec) ←
    (if negb (bool_decide (is_Some conn_rec))
        && nonempty (InvitationMessage.handshake_protocols invitation)
     then
       oob_record ← _perform_handshake oob_record alias auto_accept mediation_id;
       conn_rec ← ConnRecord_retrieve_by_id (OobRecord.connection_id oob_record);
       mret (oob_record, Some conn_rec)
     else mret (oob_record, conn_rec));
  oob_record ←
    (if nonempty (InvitationMessage.requests_attach invitation) then
       (if truthy (OobRecord.connection_id oob_record)
        then _wait_for_conn_rec_active (OobRecord.connection_id oob_record)
               conn_rec_active_timeout;; mret tt
        else mret tt);;
       oob_record ←
         (match conn_rec with
          | Some _ => mret oob_record
          | None =>
              connection_key ← call wallet_create_signing_key;
              emit (EvCreateKey (verkey connection_key));;
              let oob_record :=
                OobRecord.set_our_recipient_key (Some (verkey connection_key)) oob_record in
              OobRecord_save oob_record
          end);
       _respond_request_attach oob_record;;
       mret oob_record
     else mret oob_record);
  let oob_record := OobRecord.set_state OobRecord.STATE_DONE oob_record in
  mret oob_record.

(** [receive_invitation] up to the first save: validation, the search for an
    existing connection and the new receiver record. *)
Definition receive_invitation_begin
    (invitation : InvitationMessage.t) (use_existing_connection : bool)
    (mediation_id : option string)
  : M (option string * OobRecord.t * option ConnRecord.t) :=
  mediation_id ←
    (if truthy mediation_id then
       except_not_found
         (call (mediation_record_if_id mediation_id false);; mret mediation_id)
         (mret None)
     else mret mediation_id);
  if negb (bool_decide (length (InvitationMessage.services invitation) = 1%nat)) then
    raise (OutOfBandManagerError ServiceArrayNotOne)
  else if negb (nonempty (InvitationMessage.requests_attach invitation)
                || nonempty (InvitationMessage.handshake_protocols invitation)) then
    raise (OutOfBandManagerError MustSpecifyHandshakeOrAttach)
  else
    oob_service_item ← match InvitationMessage.services invitation with
                       | item :: _ => mret item
                       | [] => raise IndexError
                       end;
    let public_did :=
      match oob_service_item with
      | ServiceDID s => Some (last_segment "" s)
      | ServiceBlock _ => None
      end in
    conn_rec ←
      match public_did with
      | Some public_did =>
          if use_existing_connection
          then call (find_existing_connection public_did)
          else mret None
      | None => mret None
      end;
    let oob_record :=
      {| OobRecord.oob_id := None;
         OobRecord.role := OobRecord.ROLE_RECEIVER;
         OobRecord.invi_msg_id := InvitationMessage._id invitation;
         OobRecord.invitation := invitation;
         OobRecord.state := OobRecord.STATE_INITIAL;
         OobRecord.reuse_msg_id := None;
         OobRecord.connection_id := conn_rec ≫= ConnRecord.connection_id;
         OobRecord.our_recipient_key := None |} in
    oob_record ← OobRecord_save oob_record;
    mret (mediation_id, oob_record, conn_rec).

(** Whether [receive_invitation] tries to reuse: [conn_rec and not
    invitation.requests_attach]. *)
Definition reuse_candidate (invitation : InvitationMessage.t) (conn_rec : option ConnRecord.t)
  : option ConnRecord.t :=
  if nonempty (InvitationMessage.requests_attach invitation) then None else conn_rec.

Definition receive_invitation
    (invitation : InvitationMessage.t) (use_existing_connection : bool)
    (auto_accept : option bool) (alias : option string) (mediation_id : option string)
  : M OobRecord.t :=
  '(mediation_id, oob_record, conn_rec) ←
    receive_invitation_begin invitation use_existing_connection mediation_id;
  match reuse_candidate invitation conn_rec with
  | Some found =>
      oob_record ← _handle_hanshake_reuse oob_record found;
      if bool_decide (OobRecord.state oob_record = OobRecord.STATE_ACCEPTED)
      then mret oob_record
      else receive_invitation_connect invitation oob_record None auto_accept alias
             mediation_id
  | None =>
      receive_invitation_connect invitation oob_record conn_rec auto_accept alias mediation_id
  end.

(** ** Invitation builder *)

(** An attachment reference [{"id": ..., "type": ...}]; [.get] gives [None]
    for a missing key. *)
Record AttachRef := { atch_id : option string; atch_type : option string }.

(** [{**d, key: value}] *)
Fixpoint dict_set (key value : string) (d : list (string * string)) : list (string * string) :=
  match d with
  | [] => [(key, value)]
  | (k, v) :: rest =>
      if bool_decide (k = key) then (k, value) :: rest
      else (k, v) :: dict_set key value rest
  end.

(** [x or y] on optional strings *)
Definition or_else (x y : option string) : option string :=
  if truthy x then x else y.

Definition METADATA_KEY : string := "mediation".

(** One turn of the loop over [attachments]. *)
Definition resolve_attachment (invitation_message_id : string) (atch : AttachRef) : M Attach :=
  let a_type := atch_type atch in
  let a_id := atch_id atch in
  message ←
    (if bool_decide (a_type = Some "credential-offer") then
       except_not_found
         (call (retrieve_exchange V10CredentialExchange a_id))
         (call (retrieve_exchange V20CredExRecord a_id))
     else if bool_decide (a_type = Some "present-proof") then
       except_not_found
         (call (retrieve_exchange V10PresentationExchange a_id))
         (call (retrieve_exchange V20PresExRecord a_id))
     else raise (OutOfBandManagerError (UnknownAttachmentType a_type)));
  let message :=
    {| app_body := app_body message;
       app_thread := dict_set "pthid" invitation_message_id (app_thread message) |} in
  mret (AttachDecorator message).

Fixpoint resolve_attachments (invitation_message_id : string) (attachments : list AttachRef)
  : M (list Attach) :=
  match attachments with
  | [] => mret []
  | atch :: rest =>
      a ← resolve_attachment invitation_message_id atch;
      others ← resolve_attachments invitation_message_id rest;
      mret (a :: others)
  end.

(** [if multitenant_mgr and wallet_id] *)
Definition multitenant_relay : option string :=
  if multitenant_mgr_present && truthy setting_wallet_id then setting_wallet_id else None.

Definition new_conn_record
    (invitation_key : string) (invitation_msg_id : string) (accept : bool)
    (invitation_mode : ConnRecord.InvitationMode) (alias connection_protocol : option string)
  : ConnRecord.t :=
  {| ConnRecord.connection_id := None;
     ConnRecord.invitation_key := Some invitation_key;
     ConnRecord.invitation_msg_id := Some invitation_msg_id;
     ConnRecord.their_role := Some ConnRecord.Role_REQUESTER_rfc23;
     ConnRecord.state := ConnRecord.State_INVITATION_rfc23;
     ConnRecord.accept :=
       if accept then ConnRecord.ACCEPT_AUTO else ConnRecord.ACCEPT_MANUAL;
     ConnRecord.invitation_mode := invitation_mode;
     ConnRecord.alias := alias;
     ConnRecord.connection_protocol := connection_protocol;
     ConnRecord.their_public_did := None;
     ConnRecord.attached_invitation := None;
     ConnRecord.metadata := [] |}.

(** The end of [create_invitation], shared by both branches: the sender's
    [OobRecord] is saved and the projection returned. *)
Definition create_invitation_record
    (conn_rec : option ConnRecord.t) (invi_msg : InvitationMessage.t) (invi_url : string)
    (our_recipient_key : option string) : M InvitationRecord.t :=
  let oob_record :=
    {| OobRecord.oob_id := None;
       OobRecord.role := OobRecord.ROLE_SENDER;
       OobRecord.state := OobRecord.STATE_AWAIT_RESPONSE;
       OobRecord.connection_id := conn_rec ≫= ConnRecord.connection_id;
       OobRecord.invi_msg_id := InvitationMessage._id invi_msg;
       OobRecord.reuse_msg_id := None;
       OobRecord.invitation := invi_msg;
       OobRecord.our_recipient_key := our_recipient_key |} in
  oob_record ← OobRecord_save oob_record;
  mret {| InvitationRecord.oob_id := OobRecord.oob_id oob_record;
          InvitationRecord.state := InvitationRecord.STATE_INITIAL;
          InvitationRecord.invi_msg_id := InvitationMessage._id invi_msg;
          InvitationRecord.invitation := invi_msg;
          InvitationRecord.invitation_url := invi_url |}.

(** The [if public:] branch. *)
Definition create_invitation_public
    (my_label : option string) (accept : bool) (alias : option string)
    (invitation_message_id : string) (message_attachments : list Attach)
    (handshake_protocols : list string) (connection_protocol : option string)
  : M InvitationRecord.t :=
  if negb setting_public_invites then
    raise (OutOfBandManagerError PublicInvitesNotEnabled)
  else
    public_did ← call wallet_get_public_did;
    match public_did with
    | None => raise (OutOfBandManagerError NoPublicDid)
    | Some public_did =>
        let invi_msg :=
          {| InvitationMessage._id := invitation_message_id;
             InvitationMessage.label := or_else my_label setting_default_label;
             InvitationMessage.handshake_protocols := handshake_protocols;
             InvitationMessage.requests_attach := message_attachments;
             InvitationMessage.services := [ServiceDID ("did:sov:" ++ did public_did)] |} in
        keylist_updates ← call (mediation_add_key (verkey public_did) None);
        let our_recipient_key := Some (verkey public_did) in
        '(endpoint, _, _) ← call (resolve_invitation (did public_did));
        let invi_url := to_url invi_msg endpoint in
        match multitenant_relay with
        | Some wallet_id => call (multitenant_add_key wallet_id (verkey public_did) true)
        | None => mret tt
        end;;
        conn_rec ←
          (if nonempty handshake_protocols then
             let conn_rec :=
               new_conn_record (verkey public_did) (InvitationMessage._id invi_msg) accept
                 ConnRecord.INVITATION_MODE_ONCE alias connection_protocol in
             conn_rec ← ConnRecord_save conn_rec;
             conn_rec ← ConnRecord_attach_invitation conn_rec invi_msg;
             mret (Some conn_rec)
           else mret None);
        create_invitation_record conn_rec invi_msg invi_url our_recipient_key
    end.

(** The [else:] branch: a pairwise invitation with a fresh key. *)
Definition create_invitation_pairwise
    (my_label my_endpoint : option string) (accept multi_use : bool) (alias : option string)
    (metadata : list (string * string)) (mediation_record : option MediationRecord)
    (invitation_message_id : string) (message_attachments : list Attach)
    (handshake_protocols : list string) (connection_protocol : option string)
  : M InvitationRecord.t :=
  let my_endpoint := if truthy my_endpoint then my_endpoint else setting_default_endpoint in
  connection_key ← call wallet_create_signing_key;
  emit (EvCreateKey (verkey connection_key));;
  keylist_updates ← call (mediation_add_key (verkey connection_key) None);
  let keylist_updates := Some keylist_updates in
  let our_recipient_key := Some (verkey connection_key) in
  match multitenant_relay with
  | Some wallet_id => call (multitenant_add_key wallet_id (verkey connection_key) false)
  | None => mret tt
  end;;
  let invi_msg :=
    {| InvitationMessage._id := invitation_message_id;
       InvitationMessage.label := None;
       InvitationMessage.handshake_protocols := [];
       InvitationMessage.requests_attach := [];
       InvitationMessage.services := [] |} in
  conn_rec ←
    (if nonempty handshake_protocols then
       let invitation_mode :=
         if multi_use then ConnRecord.INVITATION_MODE_MULTI
         else ConnRecord.INVITATION_MODE_ONCE in
       let conn_rec :=
         new_conn_record (verkey connection_key) (InvitationMessage._id invi_msg) accept
           invitation_mode alias connection_protocol in
       conn_rec ← ConnRecord_save conn_rec;
       mret (Some conn_rec)
     else mret None);
  let routing_keys : list string := [] in
  '(routing_keys, my_endpoint, keylist_updates) ←
    (match multitenant_relay with
     | Some _ =>
         base_mediation_record ← call multitenant_get_default_mediator;
         match base_mediation_record with
         | Some base =>
             mret (mediation_routing_keys base, mediation_endpoint base, None)
         | None => mret (routing_keys, my_endpoint, keylist_updates)
         end
     | None => mret (routing_keys, my_endpoint, keylist_updates)
     end : M (list string * option string * option (list string)));
  '(routing_keys, my_endpoint, conn_rec) ←
    match mediation_record return M (list string * option string * option ConnRecord.t) with
    | Some mediation_record =>
        let routing_keys := (routing_keys ++ mediation_routing_keys mediation_record)%list in
        let my_endpoint := mediation_endpoint mediation_record in
        conn_rec ←
          match conn_rec with
          | Some c =>
              c ← ConnRecord_metadata_set c METADATA_KEY (mediation_id mediation_record);
              mret (Some c)
          | None => raise (AttributeError "metadata_set")
          end;
        match keylist_updates with
        | Some keylist_updates =>
            (if responder_present then mret tt else raise (AttributeError "send"));;
            send (OutKeylistUpdate keylist_updates)
              (ToConnection (mediation_connection_id mediation_record))
        | None => mret tt
        end;;
        mret (routing_keys, my_endpoint, conn_rec)
    | None => mret (routing_keys, my_endpoint, conn_rec)
    end;
  routing_keys ←
    comprehension
      (λ key, if bool_decide (split_len key = 3%nat) then Ok key
              else DIDKey_from_public_key_b58 key)
      routing_keys;
  recipient_key ← comprehension DIDKey_from_public_key_b58 [verkey connection_key];
  let invi_msg :=
    {| InvitationMessage._id := invitation_message_id;
       InvitationMessage.label := or_else my_label setting_default_label;
       InvitationMessage.handshake_protocols := handshake_protocols;
       InvitationMessage.requests_attach := message_attachments;
       InvitationMessage.services :=
         [ServiceBlock {| svc_id := "#inline"; svc_type := "did-communication";
                          recipient_keys := recipient_key;
                          service_endpoint := my_endpoint;
                          routing_keys := routing_keys |}] |} in
  let invi_url := to_url invi_msg None in
  conn_rec ←
    match conn_rec with
    | Some c =>
        c ← ConnRecord_attach_invitation c invi_msg;
        c ← foldl (λ acc kv, c ← acc; ConnRecord_metadata_set c kv.1 kv.2) (mret c) metadata;
        mret (Some c)
    | None => mret None
    end;
  create_invitation_record conn_rec invi_msg invi_url our_recipient_key.

Definition create_invitation
    (my_label my_endpoint : option string) (auto_accept : option bool) (public : bool)
    (hs_protos : list HSProto) (multi_use : bool) (alias : option string)
    (attachments : list AttachRef) (metadata : list (string * string))
    (mediation_id : option string) : M InvitationRecord.t :=
  mediation_record ← call (mediation_record_if_id mediation_id true);
  if negb (nonempty hs_protos || nonempty attachments) then
    raise (OutOfBandManagerError MustIncludeHandshakeOrAttachments)
  else
    let accept :=
      match auto_accept with
      | Some b => b
      | None => setting_debug_auto_accept_requests
      end in
    if public && multi_use then raise (OutOfBandManagerError PublicMultiUse)
    else if public && nonempty metadata then raise (OutOfBandManagerError PublicMetadata)
    else if nonempty attachments && multi_use then
      raise (OutOfBandManagerError MultiUseAttachments)
    else
      invitation_message_id ← call (total uuid4);
      message_attachments ← resolve_attachments invitation_message_id attachments;
      let handshake_protocols :=
        (λ hsp, DIDCommPrefix_qualify_current (HSProto_name hsp)) <$> hs_protos in
      let connection_protocol :=
        match hs_protos with
        | hsp :: _ => Some (HSProto_name hsp)
        | [] => None
        end in
      if public then
        create_invitation_public my_label accept alias invitation_message_id
          message_attachments handshake_protocols connection_protocol
      else
        create_invitation_pairwise my_label my_endpoint accept multi_use alias metadata
          mediation_record invitation_message_id message_attachments handshake_protocols
          connection_protocol.

End Manager.

(** ** A scripted environment

    A concrete set of collaborators for running the manager on examples: ids
    are drawn from a counter, every collaborator succeeds, and the messages
    that arrive while the task is suspended are read off a script, one list
    per suspension. *)
Module Scenario.

Record Env := {
  counter : nat;
  arrivals : list (list Inbound);
  existing_connection : option ConnRecord.t;
  mediation : option MediationRecord }.

Definition fresh (prefix : string) (e : Env) : string * Env :=
  (prefix ++ pretty (counter e),
   {| counter := S (counter e); arrivals := arrivals e;
      existing_connection := existing_connection e; mediation := mediation e |}).

Definition next_arrivals (e : Env) : list Inbound * Env :=
  match arrivals e with
  | [] => ([], e)
  | now :: later =>
      (now, {| counter := counter e; arrivals := later;
               existing_connection := existing_connection e; mediation := mediation e |})
  end.

Fixpoint strip_prefix (p s : string) : option string :=
  match p, s with
  | EmptyString, _ => Some s
  | String a p', String b s' => if Ascii.eqb a b then strip_prefix p' s' else None
  | String _ _, EmptyString => None
  end.

Definition unqualify (s : string) : string :=
  default s (strip_prefix "https://didcomm.org/" s).

Definition name (p : HSProto) : string :=
  match p with
  | RFC160 => "connections/1.0"
  | RFC23 => "didexchange/1.0"
  end.

Definition get (label : string) : option HSProto :=
  if bool_decide (unqualify label = name RFC160) then Some RFC160
  else if bool_decide (unqualify label = name RFC23) then Some RFC23
  else None.

Definition from_did (d : string) : Res string :=
  match strip_prefix "did:key:" d with
  | Some key => Ok key
  | None => Raise (CollaboratorError "DIDKey.from_did")
  end.

Definition exchange (cls : ExchangeClass) (id : option string) : Res AppMessage :=
  match cls with
  | V10CredentialExchange | V10PresentationExchange => Raise StorageNotFoundError
  | V20CredExRecord | V20PresExRecord =>
      match id with
      | Some id => Ok {| app_body := id; app_thread := [] |}
      | None => Raise StorageNotFoundError
      end
  end.

Definition established (protocol : string) (their_public_did : option string) (e : Env)
  : Res ConnRecord.t * Env :=
  let '(id, e) := fresh "conn-" e in
  (Ok {| ConnRecord.connection_id := Some id;
         ConnRecord.invitation_key := None;
         ConnRecord.invitation_msg_id := None;
         ConnRecord.their_role := None;
         ConnRecord.state := "request";
         ConnRecord.accept := ConnRecord.ACCEPT_MANUAL;
         ConnRecord.invitation_mode := ConnRecord.INVITATION_MODE_ONCE;
         ConnRecord.alias := None;
         ConnRecord.connection_protocol := Some protocol;
         ConnRecord.their_public_did := their_public_did;
         ConnRecord.attached_invitation := None;
         ConnRecord.metadata := [] |}, e).

#[global] Instance collaborators : Collaborators Env := {|
  setting_wallet_id := None;
  setting_debug_auto_accept_requests := false;
  setting_public_invites := true;
  setting_default_label := Some "agent";
  setting_default_endpoint := Some "http://localhost";
  multitenant_mgr_present := false;
  responder_present := true;
  message_processor_present := true;
  event_bus_present := true;
  HSProto_get := get;
  HSProto_name := name;
  DIDCommPrefix_unqualify := unqualify;
  DIDCommPrefix_qualify_current := λ s, "https://didcomm.org/" ++ s;
  DIDKey_from_public_key_b58 := λ key, Ok ("did:key:" ++ key);
  DIDKey_from_did := from_did;
  to_url := λ invi_msg endpoint, "?oob=" ++ InvitationMessage._id invi_msg;
  is_ready := λ c, bool_decide (ConnRecord.state c ∈ ["active"; "completed"; "response"]);
  uuid4 := fresh "uuid-";
  other_tasks := next_arrivals;
  mediation_record_if_id := λ _ _ e, (Ok (mediation e), e);
  retrieve_exchange := λ cls id e, (exchange cls id, e);
  wallet_get_public_did := λ e, (Ok (Some {| did := "WgWxqztrNooG92RXvxSTWv"; verkey := "pubkey" |}), e);
  wallet_create_signing_key := λ e,
    let '(key, e) := fresh "key-" e in (Ok {| did := key; verkey := key |}, e);
  mediation_add_key := λ key message e, (Ok (default [] message ++ [key])%list, e);
  multitenant_add_key := λ _ _ _ e, (Ok tt, e);
  multitenant_get_default_mediator := λ e, (Ok None, e);
  resolve_invitation := λ _ e, (Ok (Some "http://invitee", ["rk"], []), e);
  fetch_connection_targets := λ _ e, (Ok [(Some "http://invitee", ["rk"])], e);
  responder_send := λ _ _ e, (Ok tt, e);
  find_existing_connection := λ _ e, (Ok (existing_connection e), e);
  didx_receive_invitation := λ _ their_public_did _ _ _, established (name RFC23) their_public_did;
  conn_receive_invitation := λ _ their_public_did _ _ _, established (name RFC160) their_public_did;
  handle_message := λ _ _ e, (Ok tt, e) |}.

Definition start (e : Env) : World Env :=
  {| oob_store := ∅; conn_store := ∅; bus := []; trace := []; env := e |}.

Definition quiet : Env :=
  {| counter := 0; arrivals := []; existing_connection := None; mediation := None |}.

(** The value a run returned, or [default] when it raised. *)
Definition value {A} (default : A) (run : Res A * World Env) : A :=
  match run.1 with
  | Ok a => a
  | Raise _ => default
  end.

(** *** The invitee: an invitation from a public DID with which a
    connection exists *)

Definition known : ConnRecord.t :=
  {| ConnRecord.connection_id := Some "conn-known";
     ConnRecord.invitation_key := None;
     ConnRecord.invitation_msg_id := None;
     ConnRecord.their_role := None;
     ConnRecord.state := "active";
     ConnRecord.accept := ConnRecord.ACCEPT_MANUAL;
     ConnRecord.invitation_mode := ConnRecord.INVITATION_MODE_ONCE;
     ConnRecord.alias := None;
     ConnRecord.connection_protocol := Some "didexchange/1.0";
     ConnRecord.their_public_did := Some "WgWxqztrNooG92RXvxSTWv";
     ConnRecord.attached_invitation := None;
     ConnRecord.metadata := [] |}.

Definition invitation : InvitationMessage.t :=
  {| InvitationMessage._id := "inv-1";
     InvitationMessage.label := Some "inviter";
     InvitationMessage.handshake_protocols := ["https://didcomm.org/didexchange/1.0"];
     InvitationMessage.requests_attach := [];
     InvitationMessage.services := [ServiceDID "did:sov:WgWxqztrNooG92RXvxSTWv"] |}.

Definition receipt : MessageReceipt := {| sender_did := Some "WgWxqztrNooG92RXvxSTWv" |}.

(** The answers of the inviter.  The receiver record gets the first id the
    environment hands out and the reuse message the second. *)
Definition answer : AgentMessage :=
  {| _message_id := "answer-1";
     _thread := Some {| thid := "uuid-1"; pthid := "inv-1" |} |}.

(** No answer arrives: the reuse wait times out. *)
Definition unanswered : Env :=
  {| counter := 0; arrivals := []; existing_connection := Some known; mediation := None |}.

(** A problem report arrives while the invitee waits for an event. *)
Definition rejected : Env :=
  {| counter := 0; arrivals := [[]; [InProblemReport answer receipt known]];
     existing_connection := Some known; mediation := None |}.

(** A reuse-accept arrives while the invitee waits for an event. *)
Definition accepted : Env :=
  {| counter := 0; arrivals := [[]; [InReuseAccept answer receipt known]];
     existing_connection := Some known; mediation := None |}.

(** A receiver record as [receive_invitation] has it before the reuse. *)
Definition pending : OobRecord.t :=
  {| OobRecord.oob_id := Some "oob-1";
     OobRecord.role := OobRecord.ROLE_RECEIVER;
     OobRecord.state := OobRecord.STATE_INITIAL;
     OobRecord.invi_msg_id := "inv-1";
     OobRecord.reuse_msg_id := None;
     OobRecord.connection_id := Some "conn-known";
     OobRecord.invitation := invitation;
     OobRecord.our_recipient_key := None |}.

(** The same record after its reuse was accepted, and a world that stores it. *)
Definition reused : OobRecord.t :=
  OobRecord.set_state OobRecord.STATE_ACCEPTED
    (OobRecord.set_reuse_msg_id (Some "uuid-1") pending).

Definition with_reused : World Env :=
  {| oob_store := {[ "oob-1" := reused ]}; conn_store := {[ "conn-known" := known ]};
     bus := []; trace := []; env := quiet |}.

(** *** The inviter: a sender record that awaits a response *)

Definition sent : OobRecord.t :=
  {| OobRecord.oob_id := Some "oob-s";
     OobRecord.role := OobRecord.ROLE_SENDER;
     OobRecord.state := OobRecord.STATE_AWAIT_RESPONSE;
     OobRecord.invi_msg_id := "inv-1";
     OobRecord.reuse_msg_id := None;
     OobRecord.connection_id := None;
     OobRecord.invitation := invitation;
     OobRecord.our_recipient_key := Some "pubkey" |}.

Definition with_sent : World Env :=
  {| oob_store := {[ "oob-s" := sent ]}; conn_store := {[ "conn-known" := known ]};
     bus := []; trace := []; env := quiet |}.

Definition reuse : AgentMessage :=
  {| _message_id := "reuse-1";
     _thread := Some {| thid := "reuse-1"; pthid := "inv-1" |} |}.

(** *** An invitation that lists one protocol, which is not supported *)

Definition inline : ServiceMessage :=
  {| svc_id := "#inline"; svc_type := "did-communication";
     recipient_keys := ["did:key:z6Mk"]; routing_keys := [];
     service_endpoint := Some "http://inviter" |}.

Definition unsupported : InvitationMessage.t :=
  {| InvitationMessage._id := "inv-2";
     InvitationMessage.label := Some "inviter";
     InvitationMessage.handshake_protocols := ["https://didcomm.org/unknown/1.0"];
     InvitationMessage.requests_attach := [];
     InvitationMessage.services := [ServiceBlock inline] |}.

Definition pending_unsupported : OobRecord.t :=
  {| OobRecord.oob_id := Some "oob-2";
     OobRecord.role := OobRecord.ROLE_RECEIVER;
     OobRecord.state := OobRecord.STATE_INITIAL;
     OobRecord.invi_msg_id := "inv-2";
     OobRecord.reuse_msg_id := None;
     OobRecord.connection_id := None;
     OobRecord.invitation := unsupported;
     OobRecord.our_recipient_key := None |}.

(** *** A pure-attachment invitation under mediation *)

Definition mediator : MediationRecord :=
  {| mediation_id := "mediation-1"; mediation_routing_keys := ["mediator-key"];
     mediation_endpoint := Some "http://mediator";
     mediation_connection_id := Some "conn-mediator" |}.

Definition mediated : Env :=
  {| counter := 0; arrivals := []; existing_connection := None; mediation := Some mediator |}.

Definition offer : AttachRef :=
  {| atch_id := Some "cred-ex-1"; atch_type := Some "credential-offer" |}.

End Scenario.

(** ** Vocabulary of the statements *)

Definition set_trace {E} (t : list Effect) (w : World E) : World E :=
  {| oob_store := oob_store w; conn_store := conn_store w; bus := bus w;
     trace := t; env := env w |}.

Definition set_env {E} (e : E) (w : World E) : World E :=
  {| oob_store := oob_store w; conn_store := conn_store w; bus := bus w;
     trace := trace w; env := e |}.

(** The notifications in an effect log, in order. *)
Definition notifications (t : list Effect) : list (string * list (string * PyVal)) :=
  omap (λ ev, match ev with EvNotify topic payload => Some (topic, payload) | _ => None end) t.

(** The records an effect log saves, in order. *)
Definition saved_oob (t : list Effect) : list OobRecord.t :=
  omap (λ ev, match ev with EvSaveOob r => Some r | _ => None end) t.

Definition saved_conn (t : list Effect) : list ConnRecord.t :=
  omap (λ ev, match ev with EvSaveConn c => Some c | _ => None end) t.


(** The two states the reuse wait is waiting for. *)
Definition reuse_answered (s : OobRecord.State) : Prop :=
  s ∈ [OobRecord.STATE_ACCEPTED; OobRecord.STATE_NOT_ACCEPTED].

(** The record stored under [id] carries that id and a state in [S]. *)
Definition stored_as (S : OobRecord.State → Prop) (id : string)
    (store : gmap string OobRecord.t) : Prop :=
  ∃ r, store !! id = Some r ∧ OobRecord.oob_id r = Some id ∧ S (OobRecord.state r).

(** An effect that is not a notification. *)
Definition not_a_notification (ev : Effect) : Prop :=
  match ev with
  | EvNotify _ _ => False
  | _ => True
  end.

(** An effect that, if it saves an [OobRecord], saves it in a state in [S]. *)
Definition saves_in (S : OobRecord.State → Prop) (ev : Effect) : Prop :=
  match ev with
  | EvSaveOob r => S (OobRecord.state r)
  | _ => True
  end.

(** The states of a record whose reuse message has been sent. *)
Definition in_flight (s : OobRecord.State) : Prop :=
  s = OobRecord.STATE_AWAIT_RESPONSE ∨ s = OobRecord.STATE_ACCEPTED
  ∨ s = OobRecord.STATE_NOT_ACCEPTED.

Definition unanswered_or_rejected (s : OobRecord.State) : Prop :=
  s = OobRecord.STATE_AWAIT_RESPONSE ∨ s = OobRecord.STATE_NOT_ACCEPTED.

(** An effect that belongs neither to a handshake nor to the handling of an
    attachment. *)
Definition before_connecting (ev : Effect) : Prop :=
  match ev with
  | EvHandshake _ | EvHandleMessage _ | EvCreateKey _ | EvRetrieveConn _ => False
  | _ => True
  end.


(** The two attachment types [create_invitation] knows. *)
Definition known_attachment_type (a : AttachRef) : Prop :=
  atch_type a = Some "credential-offer" ∨ atch_type a = Some "present-proof".

Section Vocabulary.
Context {E : Type} `{!Collaborators E}.

(** The first protocol, in the order the invitation lists them, that is a
    supported one. *)
Definition first_supported (listed : list string) : option HSProto :=
  head (omap HSProto_get (DIDCommPrefix_unqualify <$> listed)).

(** The spec on where DONE leaves the stored record, in its words: the
    persisted record keeps INITIAL or AWAIT_RESPONSE. *)
Definition stored_initial_or_awaiting (r : OobRecord.t) (w : World E) : Prop :=
  ∃ id stored,
    OobRecord.oob_id r = Some id
    ∧ oob_store w !! id = Some stored
    ∧ OobRecord.state stored ∈ [OobRecord.STATE_INITIAL; OobRecord.STATE_AWAIT_RESPONSE].

(** The world in which a wait reads the record: the subscription is open and
    the tasks scheduled before the read have run. *)
Definition at_read (pattern : EventPattern) (record_id : option string) (timeout : Z)
    (w : World E) : World E :=
  ((emit (EvWaitFor timeout);; wait_for_event pattern record_id;; suspend) w).2.

(** [c] never leaves the relation [R] between the world it starts in and the
    world it ends in, whether it returns or raises. *)
Definition always {A} (R : relation (World E)) (c : M E A) : Prop :=
  ∀ w, R w (c w).2.

(** An invariant of the [OobRecord] store, as a relation between worlds. *)
Definition keeps (I : gmap string OobRecord.t → Prop) : relation (World E) :=
  λ w w', I (oob_store w) → I (oob_store w').

(** The effect log grows by effects that satisfy [P]. *)
Definition logs (P : Effect → Prop) : relation (World E) :=
  λ w w', ∃ t, trace w' = (trace w ++ t)%list ∧ Forall P t.

(** Nothing that is persisted or observed changes: stores, bus and log. *)
Definition untouched : relation (World E) :=
  λ w w', oob_store w' = oob_store w ∧ conn_store w' = conn_store w
          ∧ bus w' = bus w ∧ trace w' = trace w.

End Vocabulary.

(** ** Reading an effect log *)

(** The handshakes an effect log starts, in order. *)
Definition handshakes (t : list Effect) : list HSProto :=
  omap (λ ev, match ev with EvHandshake protocol => Some protocol | _ => None end) t.

(** The messages an effect log hands to the responder, in order. *)
Definition sent_messages (t : list Effect) : list (Outbound * Destination) :=
  omap (λ ev, match ev with EvSend m dest => Some (m, dest) | _ => None end) t.

(** The signing keys an effect log creates, in order. *)
Definition created_keys (t : list Effect) : list string :=
  omap (λ ev, match ev with EvCreateKey verkey => Some verkey | _ => None end) t.

(** The attached messages an effect log hands to the message processor. *)
Definition handled_messages (t : list Effect) : list AppMessage :=
  omap (λ ev, match ev with EvHandleMessage content => Some content | _ => None end) t.

(** The state of the record stored under [id], if there is one. *)
Definition stored_state {E} (id : string) (w : World E) : option OobRecord.State :=
  OobRecord.state <$> oob_store w !! id.

(** [r], stored under [k], is the one record of the store that a reuse answer
    on [thread] looks up: the record of that invitation ([pthid]) and of that
    reuse message ([thid]). *)
Definition the_record_of_thread (thread : Thread) (k : string) (r : OobRecord.t)
    (store : gmap string OobRecord.t) : Prop :=
  store !! k = Some r
  ∧ OobRecord.oob_id r = Some k
  ∧ OobRecord.invi_msg_id r = pthid thread
  ∧ OobRecord.reuse_msg_id r = Some (thid thread)
  ∧ ∀ k' r', store !! k' = Some r' →
             OobRecord.invi_msg_id r' = pthid thread →
             OobRecord.reuse_msg_id r' = Some (thid thread) → k' = k.

(** No record of the store belongs to [thread]. *)
Definition no_record_of_thread (thread : Thread) (store : gmap string OobRecord.t) : Prop :=
  ∀ k r, store !! k = Some r →
         ¬ (OobRecord.invi_msg_id r = pthid thread
            ∧ OobRecord.reuse_msg_id r = Some (thid thread)).

(** An effect of one of the two event waits. *)
Definition of_a_wait (ev : Effect) : Prop :=
  match ev with
  | EvWaitFor _ | EvSubscribe _ _ | EvRetrieveOob _ | EvRetrieveConn _
  | EvAwaitEvent | EvTimeout => True
  | _ => False
  end.

(** An effect that is neither a message handed to the responder nor a
    notification: what a task logs when it does not try a reuse. *)
Definition not_of_a_reuse (ev : Effect) : Prop :=
  match ev with
  | EvSend _ _ | EvNotify _ _ | EvSubscribe OOB_REUSE_RESPONSE_STATE _ => False
  | _ => True
  end.

(** [d.get(key)] on a [~thread] dict *)
Fixpoint dict_get (key : string) (d : list (string * string)) : option string :=
  match d with
  | [] => None
  | (k, v) :: rest => if bool_decide (k = key) then Some v else dict_get key rest
  end.

(** An attachment of an invitation that is a wrapped message threaded under
    the invitation [invi_msg_id]. *)
Definition threaded_under (invi_msg_id : string) (a : Attach) : Prop :=
  ∃ message, a = AttachDecorator message
             ∧ dict_get "pthid" (app_thread message) = Some invi_msg_id.

(** [m'] is the invitation [m] but for its service entries. *)
Definition same_but_services (m m' : InvitationMessage.t) : Prop :=
  InvitationMessage._id m' = InvitationMessage._id m
  ∧ InvitationMessage.label m' = InvitationMessage.label m
  ∧ InvitationMessage.handshake_protocols m' = InvitationMessage.handshake_protocols m
  ∧ InvitationMessage.requests_attach m' = InvitationMessage.requests_attach m.

(** The invitation [m'] that a record has after a handshake with [protocol]
    on the invitation [m]: the same, except that a handshake over RFC160
    leaves the keys it converted in an inline first service entry. *)
Definition after_handshake {E} `{!Collaborators E} (protocol : HSProto)
    (m m' : InvitationMessage.t) : Prop :=
  same_but_services m m'
  ∧ match protocol, InvitationMessage.services m with
    | RFC160, ServiceBlock service :: rest =>
        ∃ keys1 keys2,
          Forall2 (λ did key, DIDKey_from_did did = Ok key) (recipient_keys service) keys1
          ∧ Forall2 (λ did key, DIDKey_from_did did = Ok key) (routing_keys service) keys2
          ∧ InvitationMessage.services m'
            = ServiceBlock (set_routing_keys keys2 (set_recipient_keys keys1 service)) :: rest
    | _, _ => m' = m
    end.

(** The fields [create_invitation] gives a new connection record, which the
    later writes next to the record leave alone. *)
Definition made_for_invitation (invi_msg_id : string) (invitation_key : option string)
    (accept : bool) (alias connection_protocol : option string) (c : ConnRecord.t) : Prop :=
  ConnRecord.invitation_msg_id c = Some invi_msg_id
  ∧ ConnRecord.invitation_key c = invitation_key
  ∧ ConnRecord.their_role c = Some ConnRecord.Role_REQUESTER_rfc23
  ∧ ConnRecord.state c = ConnRecord.State_INVITATION_rfc23
  ∧ ConnRecord.accept c = (if accept then ConnRecord.ACCEPT_AUTO else ConnRecord.ACCEPT_MANUAL)
  ∧ ConnRecord.alias c = alias
  ∧ ConnRecord.connection_protocol c = connection_protocol.

(** [bool(auto_accept or (auto_accept is None and
    settings.get("debug.auto_accept_requests")))] *)
Definition accepts {E} `{!Collaborators E} (auto_accept : option bool) : bool :=
  match auto_accept with
  | Some b => b
  | None => setting_debug_auto_accept_requests
  end.

(** The sender record that [create_invitation] stores for an invitation. *)
Definition sender_record (id : string) (invi_msg : InvitationMessage.t)
    (connection_id our_recipient_key : option string) : OobRecord.t :=
  {| OobRecord.oob_id := Some id;
     OobRecord.role := OobRecord.ROLE_SENDER;
     OobRecord.state := OobRecord.STATE_AWAIT_RESPONSE;
     OobRecord.invi_msg_id := InvitationMessage._id invi_msg;
     OobRecord.reuse_msg_id := None;
     OobRecord.connection_id := connection_id;
     OobRecord.invitation := invi_msg;
     OobRecord.our_recipient_key := our_recipient_key |}.

(** An effect that does not save an [OobRecord]. *)
Definition not_an_oob_save (ev : Effect) : Prop :=
  match ev with
  | EvSaveOob _ => False
  | _ => True
  end.

(** [c'] is [c] but for what is written next to a connection record: the
    attached invitation and the metadata. *)
Definition same_but_notes (c c' : ConnRecord.t) : Prop :=
  ConnRecord.connection_id c' = ConnRecord.connection_id c
  ∧ ConnRecord.invitation_key c' = ConnRecord.invitation_key c
  ∧ ConnRecord.invitation_msg_id c' = ConnRecord.invitation_msg_id c
  ∧ ConnRecord.their_role c' = ConnRecord.their_role c
  ∧ ConnRecord.state c' = ConnRecord.state c
  ∧ ConnRecord.accept c' = ConnRecord.accept c
  ∧ ConnRecord.invitation_mode c' = ConnRecord.invitation_mode c
  ∧ ConnRecord.alias c' = ConnRecord.alias c
  ∧ ConnRecord.connection_protocol c' = ConnRecord.connection_protocol c
  ∧ ConnRecord.their_public_did c' = ConnRecord.their_public_did c.

(** ** More of the scripted environment *)
Module Cases.
Import Scenario.

(** The thread of the answers of the inviter. *)
Definition the_thread : Thread := {| thid := "uuid-1"; pthid := "inv-1" |}.

(** The invitee's store when the reuse of [pending] is under way, with the
    reuse-accept arriving while the invitee waits. *)
Definition answered : Env :=
  {| counter := 1; arrivals := [[]; [InReuseAccept answer receipt known]];
     existing_connection := Some known; mediation := None |}.

(** An invitee that has a connection with the public DID of the inviter. *)
Definition acquainted : World Env :=
  {| oob_store := ∅; conn_store := {[ "conn-known" := known ]}; bus := []; trace := [];
     env := unanswered |}.

(** An invitee whose handshake has stored a connection that is not ready. *)
Definition requested : ConnRecord.t :=
  {| ConnRecord.connection_id := Some "conn-new";
     ConnRecord.invitation_key := None;
     ConnRecord.invitation_msg_id := None;
     ConnRecord.their_role := None;
     ConnRecord.state := "request";
     ConnRecord.accept := ConnRecord.ACCEPT_MANUAL;
     ConnRecord.invitation_mode := ConnRecord.INVITATION_MODE_ONCE;
     ConnRecord.alias := None;
     ConnRecord.connection_protocol := Some "didexchange/1.0";
     ConnRecord.their_public_did := None;
     ConnRecord.attached_invitation := None;
     ConnRecord.metadata := [] |}.

Definition handshaking : World Env :=
  {| oob_store := ∅; conn_store := {[ "conn-new" := requested ]}; bus := []; trace := [];
     env := quiet |}.





(** An invitation without a service entry. *)
Definition no_service : InvitationMessage.t :=
  {| InvitationMessage._id := "inv-3";
     InvitationMessage.label := Some "inviter";
     InvitationMessage.handshake_protocols := ["https://didcomm.org/didexchange/1.0"];
     InvitationMessage.requests_attach := [];
     InvitationMessage.services := [] |}.

Definition request : AppMessage :=
  {| app_body := "present-proof request"; app_thread := [("pthid", "inv-4")] |}.

(** An invitation from the public DID that carries a request. *)
Definition with_request : InvitationMessage.t :=
  {| InvitationMessage._id := "inv-4";
     InvitationMessage.label := Some "inviter";
     InvitationMessage.handshake_protocols := ["https://didcomm.org/didexchange/1.0"];
     InvitationMessage.requests_attach := [AttachDecorator request];
     InvitationMessage.services := [ServiceDID "did:sov:WgWxqztrNooG92RXvxSTWv"] |}.

(** A connectionless invitation: a request and no handshake protocol. *)
Definition request_only : InvitationMessage.t :=
  {| InvitationMessage._id := "inv-4";
     InvitationMessage.label := Some "inviter";
     InvitationMessage.handshake_protocols := [];
     InvitationMessage.requests_attach := [AttachDecorator request];
     InvitationMessage.services := [ServiceBlock inline] |}.

(** The scripted collaborators with public invitations switched on or off,
    a responder bound or not, a mediation lookup that finds the record or
    raises [StorageNotFoundError], and an event bus bound or not. *)
Definition faulty (public_invites responder mediation_known event_bus : bool)
  : Collaborators Env :=
  {| setting_wallet_id := setting_wallet_id;
     setting_debug_auto_accept_requests := setting_debug_auto_accept_requests;
     setting_public_invites := public_invites;
     setting_default_label := setting_default_label;
     setting_default_endpoint := setting_default_endpoint;
     multitenant_mgr_present := multitenant_mgr_present;
     responder_present := responder;
     message_processor_present := message_processor_present;
     event_bus_present := event_bus;
     HSProto_get := HSProto_get;
     HSProto_name := HSProto_name;
     DIDCommPrefix_unqualify := DIDCommPrefix_unqualify;
     DIDCommPrefix_qualify_current := DIDCommPrefix_qualify_current;
     DIDKey_from_public_key_b58 := DIDKey_from_public_key_b58;
     DIDKey_from_did := DIDKey_from_did;
     to_url := to_url;
     is_ready := is_ready;
     uuid4 := uuid4;
     other_tasks := other_tasks;
     mediation_record_if_id := λ id or_default e,
       if mediation_known then mediation_record_if_id id or_default e
       else (Raise StorageNotFoundError, e);
     retrieve_exchange := retrieve_exchange;
     wallet_get_public_did := wallet_get_public_did;
     wallet_create_signing_key := wallet_create_signing_key;
     mediation_add_key := mediation_add_key;
     multitenant_add_key := multitenant_add_key;
     multitenant_get_default_mediator := multitenant_get_default_mediator;
     resolve_invitation := resolve_invitation;
     fetch_connection_targets := fetch_connection_targets;
     responder_send := responder_send;
     find_existing_connection := find_existing_connection;
     didx_receive_invitation := didx_receive_invitation;
     conn_receive_invitation := conn_receive_invitation;
     handle_message := handle_message |}.

End Cases.

(** * Properties *)

Section Properties.
Context {E : Type} `{!Collaborators E}.

Local Abbreviation M := (M E).

(** ** Running a bind *)

Lemma run_bind {A B} (c : M A) (k : A → M B) (w : World E) :
  (c ≫= k) w =
  match c w with
  | (Ok a, w') => k a w'
  | (Raise err, w') => (Raise err, w')
  end.
Proof. reflexivity. Qed.

Lemma bind_Ok {A B} (c : M A) (k : A → M B) (w w2 : World E) (b : B) :
  (c ≫= k) w = (Ok b, w2) ↔ ∃ a w1, c w = (Ok a, w1) ∧ k a w1 = (Ok b, w2).
Proof.
  rewrite run_bind. destruct (c w) as [[a|err] w1]; split.
  - intros Hk. by exists a, w1.
  - by intros (? & ? & [= -> ->] & Hk).
  - intros [=].
  - by intros (? & ? & [=] & _).
Qed.

Lemma bind_Raise {A B} (c : M A) (k : A → M B) (w w2 : World E) (err : Error) :
  (c ≫= k) w = (Raise err, w2) ↔
  c w = (Raise err, w2) ∨ ∃ a w1, c w = (Ok a, w1) ∧ k a w1 = (Raise err, w2).
Proof.
  rewrite run_bind. destruct (c w) as [[a|err'] w1]; split.
  - intros Hk. right. by exists a, w1.
  - intros [[=] | (? & ? & [= -> ->] & Hk)]. done.
  - intros [= -> ->]. by left.
  - intros [[= -> ->] | (? & ? & [=] & _)]. done.
Qed.

Lemma try_except_Ok {A} (body : M A) (handler : Error → M A) (w w' : World E) (a : A) :
  try_except body handler w = (Ok a, w') →
  body w = (Ok a, w') ∨ ∃ err w0, body w = (Raise err, w0) ∧ handler err w0 = (Ok a, w').
Proof.
  unfold try_except. destruct (body w) as [[a0|err] w0]; [by left | right; eauto].
Qed.

Lemma call_Ok {A} (f : E → Res A * E) (w : World E) (res : Res A) (e : E) :
  f (env w) = (res, e) → call f w = (res, set_env e w).
Proof. intros Hf. unfold call. by rewrite Hf. Qed.

Lemma call_total {A} (f : E → A * E) (w : World E) (a : A) (e : E) :
  f (env w) = (a, e) → call (total f) w = (Ok a, set_env e w).
Proof. intros Hf. unfold call, total. by rewrite Hf. Qed.

(** ** Relations that every step respects *)

Section always.
Context (R : relation (World E)) `{!PreOrder R}.

Lemma always_ret {A} (a : A) : always R (mret a : M A).
Proof. intros w. reflexivity. Qed.

Lemma always_raise {A} (err : Error) : always R (raise err : M A).
Proof. intros w. reflexivity. Qed.

Lemma always_get_world : always R (get_world : M (World E)).
Proof. intros w. reflexivity. Qed.

Lemma always_bind {A B} (c : M A) (k : A → M B) :
  always R c → (∀ a, always R (k a)) → always R (c ≫= k).
Proof.
  intros Hc Hk w. rewrite run_bind. specialize (Hc w).
  destruct (c w) as [[a|err] w1]; simpl in *; [|done].
  etrans; [exact Hc | apply Hk].
Qed.

Lemma always_try_except {A} (body : M A) (handler : Error → M A) :
  always R body → (∀ err, always R (handler err)) → always R (try_except body handler).
Proof.
  intros Hb Hh w. unfold try_except. specialize (Hb w).
  destruct (body w) as [[a|err] w1]; simpl in *; [done|].
  etrans; [exact Hb | apply Hh].
Qed.

Lemma always_except_timeout {A} (body handler : M A) :
  always R body → always R handler → always R (except_timeout body handler).
Proof.
  intros Hb Hh w. unfold except_timeout. specialize (Hb w).
  destruct (body w) as [[a|[]] w1]; simpl in *; try done.
  etrans; [exact Hb | apply Hh].
Qed.

Lemma always_except_not_found {A} (body handler : M A) :
  always R body → always R handler → always R (except_not_found body handler).
Proof.
  intros Hb Hh w. unfold except_not_found. specialize (Hb w).
  destruct (body w) as [[a|[]] w1]; simpl in *; try done.
  etrans; [exact Hb | apply Hh].
Qed.

Lemma always_for_each {A} (body : A → M unit) (xs : list A) :
  (∀ x, always R (body x)) → always R (for_each body xs).
Proof.
  intros Hb. induction xs as [|x xs IH]; simpl.
  - apply always_ret.
  - apply always_bind; [apply Hb | intros _; exact IH].
Qed.

Lemma always_comprehension {A B} (f : A → Res B) (xs : list A) :
  always R (comprehension f xs).
Proof.
  induction xs as [|x xs IH]; simpl.
  - apply always_ret.
  - destruct (f x).
    + apply always_bind; [exact IH | intros ?; apply always_ret].
    + apply always_raise.
Qed.

Lemma always_inject (present : bool) : always R (inject present).
Proof. destruct present; [apply always_ret | apply always_raise]. Qed.

Lemma always_thread_of (msg : AgentMessage) : always R (thread_of msg).
Proof. unfold thread_of. destruct (_thread msg); [apply always_ret | apply always_raise]. Qed.

End always.


#[global] Instance keeps_preorder (I : gmap string OobRecord.t → Prop) :
  PreOrder (keeps (E:=E) I).
Proof.
  split.
  - intros w Hw. exact Hw.
  - intros w1 w2 w3 H12 H23 Hw. apply H23, H12, Hw.
Qed.

#[global] Instance logs_preorder (P : Effect → Prop) : PreOrder (logs (E:=E) P).
Proof.
  split.
  - intros w. exists []. by rewrite app_nil_r.
  - intros w1 w2 w3 (t1 & H1 & HP1) (t2 & H2 & HP2). exists (t1 ++ t2)%list.
    rewrite H2, H1, <-(assoc_L (++)%list). split; [done | by apply Forall_app].
Qed.

#[global] Instance untouched_preorder : PreOrder (untouched (E:=E)).
Proof.
  split.
  - intros w. by unfold untouched.
  - intros w1 w2 w3 (? & ? & ? & ?) (? & ? & ? & ?). unfold untouched.
    repeat split; congruence.
Qed.

(** *** Structural descent through a computation *)

Ltac always_step :=
  lazymatch goal with
  | |- always _ (mbind _ _) => apply always_bind; [try apply _ | | intros ?]
  | |- always _ (mret _) => apply always_ret; try apply _
  | |- always _ (raise _) => apply always_raise; try apply _
  | |- always _ get_world => apply always_get_world; try apply _
  | |- always _ (try_except _ _) => apply always_try_except; [try apply _ | | intros ?]
  | |- always _ (except_timeout _ _) => apply always_except_timeout; [try apply _ | | ]
  | |- always _ (except_not_found _ _) => apply always_except_not_found; [try apply _ | | ]
  | |- always _ (for_each _ _) => apply always_for_each; [try apply _ | intros ?]
  | |- always _ (comprehension _ _) => apply always_comprehension; try apply _
  | |- always _ (inject _) => apply always_inject; try apply _
  | |- always _ (thread_of _) => apply always_thread_of; try apply _
  | |- always _ (if ?b then _ else _) => destruct b
  | |- always _ (match ?x with _ => _ end) => destruct x
  end.

(** *** What the primitive steps do to each relation *)

Lemma keeps_call {A} I (f : E → Res A * E) : always (keeps I) (call f).
Proof. intros w. unfold call. destruct (f (env w)). intros Hw. exact Hw. Qed.

Lemma keeps_emit I (ev : Effect) : always (keeps (E:=E) I) (emit ev).
Proof. intros w Hw. exact Hw. Qed.

Lemma keeps_publish I (b : BusEvent) : always (keeps (E:=E) I) (publish b).
Proof. intros w Hw. exact Hw. Qed.

Lemma keeps_put_conn I id c : always (keeps (E:=E) I) (put_conn id c).
Proof. intros w Hw. exact Hw. Qed.

Lemma keeps_set_conn_store I s : always (keeps (E:=E) I) (set_conn_store s).
Proof. intros w Hw. exact Hw. Qed.

Lemma keeps_other_task {A} I (c : M A) : always (keeps I) c → always (keeps I) (other_task c).
Proof. intros Hc w. exact (Hc w). Qed.

Lemma logs_call {A} P (f : E → Res A * E) : always (logs P) (call f).
Proof. intros w. unfold call. destruct (f (env w)). exists []. by rewrite app_nil_r. Qed.

Lemma logs_emit (P : Effect → Prop) (ev : Effect) : P ev → always (logs (E:=E) P) (emit ev).
Proof. intros HP w. exists [ev]. split; [done | by constructor]. Qed.

Lemma logs_publish P (b : BusEvent) : always (logs (E:=E) P) (publish b).
Proof. intros w. exists []. by rewrite app_nil_r. Qed.

Lemma logs_put_oob P id r : always (logs (E:=E) P) (put_oob id r).
Proof. intros w. exists []. by rewrite app_nil_r. Qed.

Lemma logs_put_conn P id c : always (logs (E:=E) P) (put_conn id c).
Proof. intros w. exists []. by rewrite app_nil_r. Qed.

Lemma logs_set_conn_store P s : always (logs (E:=E) P) (set_conn_store s).
Proof. intros w. exists []. by rewrite app_nil_r. Qed.

Lemma logs_other_task {A} P (c : M A) : always (logs P) (other_task c).
Proof. intros w. exists []. by rewrite app_nil_r. Qed.

Lemma untouched_call {A} (f : E → Res A * E) : always untouched (call f).
Proof. intros w. unfold call. destruct (f (env w)). by unfold untouched. Qed.

(** *** The store invariant under saves *)

Lemma stored_as_insert S id k r store :
  S (OobRecord.state r) →
  stored_as S id store →
  stored_as S id (<[k := OobRecord.set_oob_id (Some k) r]> store).
Proof.
  intros HS (r0 & Hr0 & Hid & HS0). destruct (decide (k = id)) as [->|Hne].
  - eexists. rewrite lookup_insert_eq. done.
  - exists r0. by rewrite lookup_insert_ne.
Qed.

Lemma keeps_save S id r :
  S (OobRecord.state r) → always (keeps (stored_as S id)) (OobRecord_save r).
Proof.
  intros HS. unfold OobRecord_save.
  apply always_bind; [apply _ | | intros k].
  { destruct (OobRecord.oob_id r); [apply always_ret, _ | apply keeps_call]. }
  apply always_bind; [apply _ | | intros _].
  { intros w Hw. simpl. by apply stored_as_insert. }
  repeat always_step; first [apply keeps_publish | apply keeps_emit].
Qed.

Lemma keeps_conn_save I c : always (keeps I) (ConnRecord_save c).
Proof.
  unfold ConnRecord_save.
  repeat always_step;
    first [apply keeps_call | apply keeps_put_conn | apply keeps_publish | apply keeps_emit].
Qed.

Ltac keeps_prim :=
  first [ apply keeps_call | apply keeps_emit | apply keeps_publish | apply keeps_put_conn
        | apply keeps_set_conn_store | apply keeps_conn_save
        | apply keeps_save; simpl; solve [auto] ].

Lemma keeps_handle_inbound S id (i : Inbound) :
  S OobRecord.STATE_ACCEPTED → S OobRecord.STATE_NOT_ACCEPTED →
  always (keeps (stored_as S id)) (handle_inbound i).
Proof.
  intros Ha Hn. destruct i; simpl; apply keeps_other_task.
  - unfold receive_reuse_message, OobRecord_retrieve_by_tag_filter, new_message, notify, send,
      delete_stale_connection_by_invitation, delete_record.
    repeat (always_step || keeps_prim).
  - unfold receive_reuse_accepted_message, OobRecord_retrieve_by_tag_filter, notify.
    repeat (always_step || keeps_prim).
  - unfold receive_problem_report, OobRecord_retrieve_by_tag_filter.
    repeat (always_step || keeps_prim).
  - apply keeps_conn_save.
Qed.

Lemma keeps_suspend S id :
  S OobRecord.STATE_ACCEPTED → S OobRecord.STATE_NOT_ACCEPTED →
  always (keeps (stored_as S id)) suspend.
Proof.
  intros Ha Hn. unfold suspend. repeat always_step; [apply keeps_call|].
  by apply keeps_handle_inbound.
Qed.

Lemma handle_inbound_Ok (i : Inbound) (w : World E) :
  (handle_inbound i w).1 = Ok tt ∧ trace (handle_inbound i w).2 = trace w.
Proof. by destruct i. Qed.

Lemma suspend_Ok (w : World E) : (suspend w).1 = Ok tt ∧ trace (suspend w).2 = trace w.
Proof.
  unfold suspend. rewrite run_bind. unfold call, total.
  destruct (other_tasks (env w)) as [inbound e]. simpl.
  set (w0 := {| oob_store := oob_store w; env := e |}).
  change (trace w) with (trace w0). generalize w0. clear.
  induction inbound as [|i inbound IH]; intros w; simpl; [done|].
  rewrite run_bind. pose proof (handle_inbound_Ok i w) as [H1 H2].
  destruct (handle_inbound i w) as [[[]|err] w1]; simpl in *; [|done].
  rewrite <-H2. apply IH.
Qed.


Lemma suspend_run (w : World E) : suspend w = (Ok tt, (suspend w).2).
Proof. pose proof (suspend_Ok w) as [H _]. destruct (suspend w) as [[[]|?] ?]; by simplify_eq/=. Qed.

Lemma suspend_trace (w : World E) : trace (suspend w).2 = trace w.
Proof. apply suspend_Ok. Qed.

(** ** Event waiter *)

Lemma run_emit (ev : Effect) (w : World E) :
  emit ev w = (Ok tt, set_trace (trace w ++ [ev]) w).
Proof. reflexivity. Qed.

(** A suspension that the goal is waiting on returns. *)
Ltac suspend_returns :=
  match goal with
  | |- context [match suspend ?x with _ => _ end] => rewrite (suspend_run x)
  end.

(** Symbolic execution of the computation in the goal. *)
Ltac run := repeat first [rewrite run_bind | suspend_returns | progress simpl].

Lemma at_read_trace pattern record_id timeout (w : World E) :
  trace (at_read pattern record_id timeout w)
  = (trace w ++ [EvWaitFor timeout; EvSubscribe pattern record_id])%list.
Proof.
  unfold at_read, wait_for_event. rewrite !run_bind. simpl. rewrite !run_bind. simpl.
  rewrite suspend_trace. simpl. by rewrite <-(assoc_L (++)%list).
Qed.

(** The world in which a wait stops when no event bus is bound. *)
Lemma no_bus_run {A} pattern record_id timeout (k : nat → M A) (w : World E) :
  event_bus_present = false →
  asyncio_wait_for
    (inject event_bus_present;; sub ← wait_for_event pattern record_id; suspend;; k sub)
    timeout w
  = (Raise InjectionError, set_trace (trace w ++ [EvWaitFor timeout]) w).
Proof. intros Hbus. unfold asyncio_wait_for, inject. rewrite Hbus. by run. Qed.

(** Both waits start alike: the timer, the event bus, the subscription, and
    a suspension before the continuation [k] reads the record. *)
Lemma at_read_run {A} pattern record_id timeout (k : nat → M A) (w : World E) :
  event_bus_present = true →
  asyncio_wait_for
    (inject event_bus_present;; sub ← wait_for_event pattern record_id; suspend;; k sub)
    timeout w
  = k (length (bus w)) (at_read pattern record_id timeout w).
Proof.
  intros Hbus. unfold asyncio_wait_for, at_read, wait_for_event, inject. rewrite Hbus.
  by run.
Qed.

(** A wait without an event bus fails at once; nothing is subscribed or read. *)
Lemma _wait_for_reuse_response_no_bus oob_id timeout (w : World E) :
  event_bus_present = false →
  _wait_for_reuse_response oob_id timeout w
  = (Raise InjectionError, set_trace (trace w ++ [EvWaitFor timeout]) w).
Proof.
  intros Hbus. unfold _wait_for_reuse_response, except_timeout, _wait_for_state_oob.
  by rewrite no_bus_run.
Qed.

(** The reuse wait, step by step: the read, and when the record is not yet
    answered the wait for an event, and when none arrives the second read,
    before which other tasks run once more. *)
Lemma _wait_for_reuse_response_run oob_id timeout (w : World E) :
  event_bus_present = true →
  let w1 := at_read OOB_REUSE_RESPONSE_STATE oob_id timeout w in
  let w1' := set_trace (trace w1 ++ [EvRetrieveOob oob_id]) w1 in
  _wait_for_reuse_response oob_id timeout w =
  match oob_id ≫= (oob_store w1 !!.) with
  | None => (Raise StorageNotFoundError, w1')
  | Some r =>
      if bool_decide (reuse_answered (OobRecord.state r)) then (Ok r, w1')
      else
        let w2 := (suspend (set_trace (trace w1' ++ [EvAwaitEvent]) w1')).2 in
        match head (omap (reuse_response_event oob_id) (drop (length (bus w)) (bus w2))) with
        | Some payload => (Ok payload, w2)
        | None =>
            let w3 := (suspend (set_trace (trace w2 ++ [EvTimeout]) w2)).2 in
            let w3' := set_trace (trace w3 ++ [EvRetrieveOob oob_id]) w3 in
            match oob_id ≫= (oob_store w3 !!.) with
            | Some r' => (Ok r', w3')
            | None => (Raise StorageNotFoundError, w3')
            end
        end
  end.
Proof.
  intros Hbus w1 w1'. subst w1'.
  unfold _wait_for_reuse_response, except_timeout, _wait_for_state_oob.
  rewrite at_read_run by done. fold w1. generalize w1. clear w1. intros w1.
  unfold OobRecord_retrieve_by_id, await_event, reuse_answered. run.
  destruct (oob_id ≫= (oob_store w1 !!.)) as [r|] eqn:Hr; run; [|done].
  case_bool_decide; run; [done|].
  set (w2 := (suspend _).2).
  destruct (head _) as [payload|]; run; [done|].
  set (w3 := (suspend _).2).
  by destruct (oob_id ≫= (oob_store w3 !!.)).
Qed.


Lemma _wait_for_conn_rec_active_no_bus connection_id timeout (w : World E) :
  event_bus_present = false →
  _wait_for_conn_rec_active connection_id timeout w
  = (Raise InjectionError, set_trace (trace w ++ [EvWaitFor timeout]) w).
Proof.
  intros Hbus.
  unfold _wait_for_conn_rec_active, except_timeout, _wait_for_state_conn, asyncio_wait_for,
    inject.
  rewrite Hbus. by run.
Qed.

Lemma _wait_for_conn_rec_active_run connection_id timeout (w : World E) :
  event_bus_present = true →
  let w1 := at_read CONNECTION_READY_EVENT connection_id timeout w in
  let w1' := set_trace (trace w1 ++ [EvRetrieveConn connection_id]) w1 in
  _wait_for_conn_rec_active connection_id timeout w =
  match connection_id ≫= (conn_store w1 !!.) with
  | None => (Raise StorageNotFoundError, w1')
  | Some c =>
      if is_ready c then (Ok (Some c), w1')
      else
        let w2 := (suspend (set_trace (trace w1' ++ [EvAwaitEvent]) w1')).2 in
        match head (omap (connection_ready_event connection_id)
                      (drop (length (bus w)) (bus w2))) with
        | Some payload => (Ok (Some payload), w2)
        | None => (Ok None, set_trace (trace w2 ++ [EvTimeout]) w2)
        end
  end.
Proof.
  intros Hbus w1 w1'. subst w1'.
  unfold _wait_for_conn_rec_active, except_timeout, _wait_for_state_conn.
  assert (∀ (k : nat → M ConnRecord.t),
    asyncio_wait_for
      ((inject event_bus_present;;
        sub ← wait_for_event CONNECTION_READY_EVENT connection_id; suspend;; k sub)
         ≫= λ c, mret (Some c)) timeout w
    = (k (length (bus w)) ≫= λ c, mret (Some c)) w1) as ->.
  { intros k. unfold asyncio_wait_for, w1, at_read, wait_for_event, inject. rewrite Hbus.
    by run. }
  generalize w1. clear w1. intros w1.
  unfold ConnRecord_retrieve_by_id, await_event. run.
  destruct (connection_id ≫= (conn_store w1 !!.)) as [c|] eqn:Hc; run; [|done].
  destruct (is_ready c); run; [done|].
  set (w2 := (suspend _).2).
  by destruct (head _) as [payload|]; run.
Qed.

(** A wait that returns had an event bus to subscribe to. *)
Lemma _wait_for_reuse_response_bus oob_id timeout (w w' : World E) (r : OobRecord.t) :
  _wait_for_reuse_response oob_id timeout w = (Ok r, w') → event_bus_present = true.
Proof.
  destruct event_bus_present eqn:Hbus; [done|].
  by rewrite _wait_for_reuse_response_no_bus.
Qed.

Lemma _wait_for_conn_rec_active_bus connection_id timeout (w w' : World E) c :
  _wait_for_conn_rec_active connection_id timeout w = (Ok c, w') → event_bus_present = true.
Proof.
  destruct event_bus_present eqn:Hbus; [done|].
  by rewrite _wait_for_conn_rec_active_no_bus.
Qed.

(** The reuse-response wait: the subscription is in the log before the
    read; an answered record found at the read is returned at once; after a
    timeout the record now in the store is returned as it is, and the wait
    itself saves nothing. *)
Lemma reuse_wait_subscribes_then_reads (oob_id : option string) (timeout : Z) (w : World E) :
  event_bus_present = true →
  let w1 := at_read OOB_REUSE_RESPONSE_STATE oob_id timeout w in
  let out := _wait_for_reuse_response oob_id timeout w in
  (∃ rest, trace out.2 =
           (trace w ++ EvWaitFor timeout :: EvSubscribe OOB_REUSE_RESPONSE_STATE oob_id
                       :: EvRetrieveOob oob_id :: rest)%list
           ∧ saved_oob rest = [] ∧ notifications rest = []
           ∧ (EvTimeout ∈ rest →
              out.1 = match oob_id ≫= (oob_store out.2 !!.) with
                      | Some r => Ok r
                      | None => Raise StorageNotFoundError
                      end))
  ∧ (∀ r, oob_id ≫= (oob_store w1 !!.) = Some r →
          reuse_answered (OobRecord.state r) →
          out = (Ok r, set_trace (trace w ++ [EvWaitFor timeout;
                                              EvSubscribe OOB_REUSE_RESPONSE_STATE oob_id;
                                              EvRetrieveOob oob_id]) w1)).
Proof.
  intros Hbus w1 out. subst out. rewrite _wait_for_reuse_response_run by done. fold w1.
  pose proof (at_read_trace OOB_REUSE_RESPONSE_STATE oob_id timeout w) as Hw1. fold w1 in Hw1.
  split.
  - destruct (oob_id ≫= (oob_store w1 !!.)) as [r|]; simpl.
    2:{ exists []. rewrite Hw1, <-(assoc_L (++)%list). repeat split; [done..|]. by intros ?%elem_of_nil. }
    case_bool_decide; simpl.
    { exists []. rewrite Hw1, <-(assoc_L (++)%list). repeat split; [done..|]. by intros ?%elem_of_nil. }
    set (w2 := (suspend _).2).
    assert (trace w2 = (trace w1 ++ [EvRetrieveOob oob_id; EvAwaitEvent])%list) as Hw2.
    { unfold w2. rewrite suspend_trace. simpl. by rewrite <-(assoc_L (++)%list). }
    destruct (head _) as [payload|]; simpl.
    { exists [EvAwaitEvent]. rewrite Hw2, Hw1, <-(assoc_L (++)%list). repeat split; [done..|].
      intros Hin. by apply list_elem_of_singleton in Hin. }
    set (w3 := (suspend _).2).
    assert (trace w3 = (trace w2 ++ [EvTimeout])%list) as Hw3.
    { unfold w3. by rewrite suspend_trace. }
    exists [EvAwaitEvent; EvTimeout; EvRetrieveOob oob_id].
    destruct (oob_id ≫= (oob_store w3 !!.)) as [r'|] eqn:Hr'; simpl;
      rewrite Hw3, Hw2, Hw1, <-!(assoc_L (++)%list); repeat split; try done;
      intros _; by rewrite Hr'.
  - intros r Hr Hans. rewrite Hr. rewrite bool_decide_eq_true_2 by done.
    f_equal. unfold set_trace. by rewrite Hw1, <-(assoc_L (++)%list).
Qed.




(** ** Saving a record *)

Lemma OobRecord_save_run (r : OobRecord.t) (w : World E) :
  ∃ id e,
    let r' := OobRecord.set_oob_id (Some id) r in
    OobRecord_save r w =
      (Ok r', {| oob_store := <[id := r']> (oob_store w); conn_store := conn_store w;
                 bus := bus w ++ [BusOob r']; trace := trace w ++ [EvSaveOob r'];
                 env := e |})
    ∧ (∀ id', OobRecord.oob_id r = Some id' → id' = id).
Proof.
  unfold OobRecord_save. destruct (OobRecord.oob_id r) as [id|] eqn:Hid.
  - exists id, (env w). split; [by run | by intros ? [= ->]].
  - unfold call, total. destruct (uuid4 (env w)) as [id e] eqn:Hu.
    exists id, e. split; [|done]. run. rewrite Hu. by run.
Qed.

(** A saved record has the fields it was saved with, and is stored under
    its id. *)
Lemma OobRecord_save_Ok (r r' : OobRecord.t) (w w' : World E) :
  OobRecord_save r w = (Ok r', w') →
  ∃ id, r' = OobRecord.set_oob_id (Some id) r
        ∧ oob_store w' = <[id := r']> (oob_store w)
        ∧ conn_store w' = conn_store w
        ∧ trace w' = (trace w ++ [EvSaveOob r'])%list
        ∧ (∀ id', OobRecord.oob_id r = Some id' → id' = id).
Proof.
  destruct (OobRecord_save_run r w) as (id & e & Hrun & Hid). simpl in Hrun.
  rewrite Hrun. intros [= <- <-]. by exists id.
Qed.

Lemma OobRecord_save_returns (r : OobRecord.t) (w : World E) :
  ∃ r' w', OobRecord_save r w = (Ok r', w').
Proof. destruct (OobRecord_save_run r w) as (id & e & Hrun & _). eauto. Qed.

(** ** Reuse, initiating side *)

Lemma quiet_notifications (t : list Effect) : Forall not_a_notification t → notifications t = [].
Proof.
  induction 1 as [|ev t Hev _ IH]; [done|].
  unfold notifications in *. simpl. destruct ev; simpl in *; done.
Qed.

Lemma notifications_app (t1 t2 : list Effect) :
  notifications (t1 ++ t2) = (notifications t1 ++ notifications t2)%list.
Proof. apply omap_app. Qed.

Lemma logs_save P (r : OobRecord.t) :
  (∀ r', P (EvSaveOob r')) → always (logs P) (OobRecord_save r).
Proof.
  intros HP. unfold OobRecord_save.
  repeat always_step;
    first [apply logs_call | apply logs_put_oob | apply logs_publish | by apply logs_emit].
Qed.

Lemma _create_handshake_reuse_message_quiet (oob_record : OobRecord.t) (conn : ConnRecord.t) :
  always (logs not_a_notification) (_create_handshake_reuse_message oob_record conn).
Proof.
  unfold _create_handshake_reuse_message, new_message, send.
  repeat always_step;
    first [apply logs_call | by apply logs_emit | by apply logs_save].
Qed.

Lemma _create_handshake_reuse_message_Ok oob_record conn r1 (w w1 : World E) :
  _create_handshake_reuse_message oob_record conn w = (Ok r1, w1) →
  OobRecord.state r1 = OobRecord.STATE_AWAIT_RESPONSE
  ∧ is_Some (OobRecord.reuse_msg_id r1)
  ∧ OobRecord.invitation r1 = OobRecord.invitation oob_record
  ∧ OobRecord.invi_msg_id r1 = OobRecord.invi_msg_id oob_record
  ∧ (∃ id, OobRecord.oob_id r1 = Some id ∧ oob_store w1 !! id = Some r1
           ∧ (∀ id', OobRecord.oob_id oob_record = Some id' → id' = id)).
Proof.
  unfold _create_handshake_reuse_message. intros [Hbody|(? & ? & _ & [=])]%try_except_Ok.
  apply bind_Ok in Hbody as (msg & wa & _ & Hbody).
  apply bind_Ok in Hbody as (targets & wb & _ & Hbody).
  apply bind_Ok in Hbody as ([] & wc & _ & Hbody).
  apply bind_Ok in Hbody as ([] & wd & _ & Hbody).
  apply bind_Ok in Hbody as (r' & we & Hsave & [= -> ->]).
  apply OobRecord_save_Ok in Hsave as (id & -> & Hstore & _ & _ & Hid).
  repeat split; simpl; [by eexists | ].
  exists id. split; [done|]. split; [|done]. rewrite Hstore. apply lookup_insert_eq.
Qed.


(** C1: when the reuse wait ends on a record that is not ACCEPTED, the
    initiating side clears the record's connection id, keeps the state the
    wait ended in (a timeout hands back the stored record, whose state is not
    changed), saves the record, and emits exactly one notification, a
    rejection that carries the reuse message id, the connection id and a
    comment. *)
Theorem reuse_not_accepted_clears_connection_and_notifies_once
    (oob_record : OobRecord.t) (conn_record : ConnRecord.t) (w w1 w2 : World E)
    (r1 r2 : OobRecord.t) :
  _create_handshake_reuse_message oob_record conn_record w = (Ok r1, w1) →
  _wait_for_reuse_response (OobRecord.oob_id r1) reuse_response_timeout w1 = (Ok r2, w2) →
  OobRecord.state r2 ≠ OobRecord.STATE_ACCEPTED →
  ∃ r3 w3 t,
    _handle_hanshake_reuse oob_record conn_record w = (Ok r3, w3)
    ∧ OobRecord.connection_id r3 = None
    ∧ OobRecord.state r3 = OobRecord.state r2
    ∧ (∃ id, OobRecord.oob_id r3 = Some id ∧ oob_store w3 !! id = Some r3)
    ∧ trace w3 = (trace w ++ t)%list
    ∧ notifications t =
        [(REUSE_ACCEPTED_WEBHOOK_TOPIC,
          [("thread_id", py_opt (OobRecord.reuse_msg_id r2));
           ("connection_id", py_opt (ConnRecord.connection_id conn_record));
           ("state", PyStr "rejected");
           ("comment",
            PyTuple
              ["No HandshakeReuseAccept message received, "
               ++ "connection " ++ py_str (ConnRecord.connection_id conn_record) ++ " ";
               "and invitation " ++ InvitationMessage._id (OobRecord.invitation r2)])])]
    ∧ (∀ waited, trace w2 = (trace w1 ++ waited)%list → EvTimeout ∈ waited →
         OobRecord.oob_id r1 ≫= (oob_store w2 !!.) = Some r2).
Proof.
  intros Hcreate Hwait Hstate.
  pose proof (_create_handshake_reuse_message_quiet oob_record conn_record w) as (t1 & Ht1 & Hq1).
  rewrite Hcreate in Ht1. simpl in Ht1.
  pose proof (reuse_wait_subscribes_then_reads (OobRecord.oob_id r1) reuse_response_timeout w1
                (_wait_for_reuse_response_bus _ _ _ _ _ Hwait))
    as [(rest & Ht2 & _ & Hq2 & Htimeout) _].
  rewrite Hwait in Ht2, Htimeout. simpl in Ht2, Htimeout.
  set (payload := [("thread_id", py_opt (OobRecord.reuse_msg_id r2)); _; _; _]).
  set (cleared := OobRecord.set_connection_id None r2).
  set (w2' := set_trace (trace w2 ++ [EvNotify REUSE_ACCEPTED_WEBHOOK_TOPIC payload]) w2).
  destruct (OobRecord_save_run cleared w2') as (id & e & Hsave & _). simpl in Hsave.
  eexists _, _, _. split.
  { unfold _handle_hanshake_reuse. rewrite run_bind, Hcreate. simpl.
    rewrite run_bind, Hwait. simpl. rewrite bool_decide_eq_true_2 by done.
    unfold notify. rewrite run_bind, run_emit. fold payload cleared w2'.
    rewrite run_bind, Hsave. reflexivity. }
  simpl. repeat split.
  - exists id. split; [done|]. apply lookup_insert_eq.
  - rewrite Ht2, Ht1, <-!(assoc_L (++)%list). reflexivity.
  - rewrite !notifications_app, (quiet_notifications t1) by done. simpl.
    fold (notifications rest). rewrite Hq2. reflexivity.
  - intros waited Hwaited Hin. rewrite Ht2 in Hwaited. apply (inj (app _)) in Hwaited.
    subst waited. rewrite !elem_of_cons in Hin.
    destruct Hin as [[=]|[[=]|[[=]|Hin]]].
    specialize (Htimeout Hin).
    destruct (OobRecord.oob_id r1 ≫= _); congruence.
Qed.


(** ** The stored record during the waits *)

Lemma keeps_at_read S id pattern record_id timeout (w : World E) :
  S OobRecord.STATE_ACCEPTED → S OobRecord.STATE_NOT_ACCEPTED →
  stored_as S id (oob_store w) →
  stored_as S id (oob_store (at_read pattern record_id timeout w)).
Proof.
  intros Ha Hn. unfold at_read.
  assert (always (keeps (stored_as S id))
            (emit (EvWaitFor timeout);; wait_for_event pattern record_id;; suspend)) as Hk.
  { unfold wait_for_event.
    repeat always_step; first [apply keeps_emit | by apply keeps_suspend]. }
  apply Hk.
Qed.

Lemma reuse_response_event_Some oob_id (b : BusEvent) (r : OobRecord.t) :
  reuse_response_event oob_id b = Some r →
  reuse_answered (OobRecord.state r) ∧ OobRecord.oob_id r = oob_id.
Proof.
  destruct b as [r'|c]; simpl; [|done].
  destruct (bool_decide _ && bool_decide _) eqn:Hb; [|done].
  intros [= ->]. apply andb_true_iff in Hb as [H1 H2].
  apply bool_decide_eq_true in H1. apply bool_decide_eq_true in H2. done.
Qed.

Lemma head_omap_Some {A B} (f : A → option B) (l : list A) (y : B) :
  head (omap f l) = Some y → ∃ x, x ∈ l ∧ f x = Some y.
Proof. intros H%head_Some_elem_of. by apply list_elem_of_omap. Qed.

Lemma reuse_answered_cases (s : OobRecord.State) :
  reuse_answered s ↔ s = OobRecord.STATE_ACCEPTED ∨ s = OobRecord.STATE_NOT_ACCEPTED.
Proof.
  unfold reuse_answered. rewrite !elem_of_cons, elem_of_nil. tauto.
Qed.

(** The record the reuse wait returns is the awaited one, in a state that
    the store or an answer could have given it. *)
Lemma _wait_for_reuse_response_Ok S id timeout (w w' : World E) (r : OobRecord.t) :
  S OobRecord.STATE_ACCEPTED → S OobRecord.STATE_NOT_ACCEPTED →
  stored_as S id (oob_store w) →
  _wait_for_reuse_response (Some id) timeout w = (Ok r, w') →
  OobRecord.oob_id r = Some id ∧ S (OobRecord.state r) ∧ stored_as S id (oob_store w').
Proof.
  intros Ha Hn Hst Hrun. pose proof (_wait_for_reuse_response_bus _ _ _ _ _ Hrun) as Hbus.
  revert Hrun. rewrite _wait_for_reuse_response_run by done.
  pose proof (keeps_at_read S id OOB_REUSE_RESPONSE_STATE (Some id) timeout w Ha Hn Hst) as H1.
  set (w1 := at_read _ _ _ _) in *. simpl.
  destruct H1 as (r1 & Hr1 & Hid1 & HS1). rewrite Hr1.
  case_bool_decide.
  { intros [= <- <-]. simpl. split; [done|]. split; [done|]. by exists r1. }
  set (x := set_trace _ _).
  assert (stored_as S id (oob_store (suspend x).2)) as H2.
  { apply (keeps_suspend S id Ha Hn x). by exists r1. }
  set (w2 := (suspend x).2) in *.
  destruct (head _) as [payload|] eqn:Hhead.
  { intros [= <- <-]. apply head_omap_Some in Hhead as (b & _ & Hb).
    apply reuse_response_event_Some in Hb as [Hans Hid]. split; [done|]. split; [|done].
    apply reuse_answered_cases in Hans. destruct Hans as [Hans|Hans]; by rewrite Hans. }
  set (y := set_trace _ w2).
  assert (stored_as S id (oob_store (suspend y).2)) as H3.
  { apply (keeps_suspend S id Ha Hn y). exact H2. }
  destruct H3 as (r3 & Hr3 & Hid3 & HS3). rewrite Hr3.
  intros [= <- <-]. simpl. split; [done|]. split; [done|]. by exists r3.
Qed.

Lemma keeps_wait_conn S id connection_id timeout :
  S OobRecord.STATE_ACCEPTED → S OobRecord.STATE_NOT_ACCEPTED →
  always (keeps (stored_as S id)) (_wait_for_conn_rec_active connection_id timeout).
Proof.
  intros Ha Hn.
  unfold _wait_for_conn_rec_active, asyncio_wait_for, _wait_for_state_conn, wait_for_event,
    ConnRecord_retrieve_by_id, await_event.
  repeat always_step; first [apply keeps_emit | by apply keeps_suspend].
Qed.


(** ** What one call saves *)

Lemma saves_in_saved S (t : list Effect) :
  Forall (saves_in S) t → Forall (λ r, S (OobRecord.state r)) (saved_oob t).
Proof.
  induction 1 as [|ev t Hev _ IH]; [constructor|].
  unfold saved_oob in *. simpl. destruct ev; simpl in *; try done. by constructor.
Qed.

Lemma saves_in_weaken (S S' : OobRecord.State → Prop) (t : list Effect) :
  (∀ s, S s → S' s) → Forall (saves_in S) t → Forall (saves_in S') t.
Proof.
  intros HS Ht. eapply Forall_impl; [exact Ht|]. intros [] H; simpl in *; auto.
Qed.

Lemma logs_weaken (P Q : Effect → Prop) (w w' : World E) :
  (∀ ev, P ev → Q ev) → logs P w w' → logs Q w w'.
Proof. intros HPQ (t & Ht & HP). exists t. split; [done|]. by eapply Forall_impl. Qed.

Lemma logs_save_in S (r : OobRecord.t) :
  S (OobRecord.state r) → always (logs (saves_in S)) (OobRecord_save r).
Proof.
  intros HS. unfold OobRecord_save.
  repeat always_step;
    first [apply logs_call | apply logs_put_oob | apply logs_publish | by apply logs_emit].
Qed.

Lemma logs_conn_save P (c : ConnRecord.t) :
  (∀ c', P (EvSaveConn c')) → always (logs P) (ConnRecord_save c).
Proof.
  intros HP. unfold ConnRecord_save.
  repeat always_step;
    first [apply logs_call | apply logs_put_conn | apply logs_publish | by apply logs_emit].
Qed.

Lemma logs_suspend P : always (logs P) suspend.
Proof.
  unfold suspend. apply always_bind; [apply _ | apply logs_call | intros inbound].
  apply always_for_each; [apply _|]. intros []; apply logs_other_task.
Qed.

Ltac logs_prim :=
  first [ apply logs_call | apply logs_put_oob | apply logs_put_conn | apply logs_publish
        | apply logs_set_conn_store | apply logs_suspend
        | apply logs_emit; simpl; solve [auto]
        | apply logs_conn_save; simpl; solve [auto]
        | apply logs_save_in; simpl; solve [auto] ].

Lemma logs_wait_reuse S oob_id timeout :
  always (logs (saves_in S)) (_wait_for_reuse_response oob_id timeout).
Proof.
  unfold _wait_for_reuse_response, asyncio_wait_for, _wait_for_state_oob, wait_for_event,
    OobRecord_retrieve_by_id, await_event.
  repeat (always_step || logs_prim).
Qed.

Lemma logs_wait_conn S connection_id timeout :
  always (logs (saves_in S)) (_wait_for_conn_rec_active connection_id timeout).
Proof.
  unfold _wait_for_conn_rec_active, asyncio_wait_for, _wait_for_state_conn, wait_for_event,
    ConnRecord_retrieve_by_id, await_event.
  repeat (always_step || logs_prim).
Qed.

Lemma keeps_handshake_loop I protocols invitation service public_did alias auto_accept
    mediation_id :
  always (keeps I)
    (handshake_loop protocols invitation service public_did alias auto_accept mediation_id).
Proof.
  induction protocols as [|[p|] protocols IH]; simpl; [apply always_ret, _| |exact IH].
  unfold handshake_with, stored_by_collaborator.
  repeat (always_step || keeps_prim).
Qed.

Lemma logs_handshake_loop S protocols invitation service public_did alias auto_accept
    mediation_id :
  always (logs (saves_in S))
    (handshake_loop protocols invitation service public_did alias auto_accept mediation_id).
Proof.
  induction protocols as [|[p|] protocols IH]; simpl; [apply always_ret, _| |exact IH].
  unfold handshake_with, stored_by_collaborator.
  repeat (always_step || logs_prim).
Qed.

Lemma keeps_perform_handshake S id oob_record alias auto_accept mediation_id :
  S (OobRecord.state oob_record) →
  always (keeps (stored_as S id)) (_perform_handshake oob_record alias auto_accept mediation_id).
Proof.
  intros HS. unfold _perform_handshake, resolve_service.
  repeat (always_step || keeps_prim || apply keeps_handshake_loop).
Qed.

Lemma logs_perform_handshake S oob_record alias auto_accept mediation_id :
  S (OobRecord.state oob_record) →
  always (logs (saves_in S)) (_perform_handshake oob_record alias auto_accept mediation_id).
Proof.
  intros HS. unfold _perform_handshake, resolve_service.
  repeat (always_step || logs_prim || apply logs_handshake_loop).
Qed.

Lemma _perform_handshake_Ok oob_record alias auto_accept mediation_id (w w' : World E) r :
  _perform_handshake oob_record alias auto_accept mediation_id w = (Ok r, w') →
  OobRecord.state r = OobRecord.state oob_record
  ∧ (∀ id, OobRecord.oob_id oob_record = Some id → OobRecord.oob_id r = Some id).
Proof.
  unfold _perform_handshake.
  intros (service & w1 & _ & H)%bind_Ok.
  apply bind_Ok in H as ([service' public_did] & w2 & _ & H).
  apply bind_Ok in H as ([conn_record assigned] & w3 & _ & H).
  destruct conn_record as [conn_record|]; [|done].
  apply bind_Ok in H as (r' & w4 & Hsave & [= -> ->]).
  apply OobRecord_save_Ok in Hsave as (id & -> & _ & _ & _ & Hid).
  split; [done|]. intros id' Hid'. simpl. f_equal. symmetry. by apply Hid.
Qed.


Lemma always_run {A} (R : relation (World E)) (c : M A) (w w' : World E) (res : Res A) :
  always R c → c w = (res, w') → R w w'.
Proof. intros Hc Hrun. specialize (Hc w). by rewrite Hrun in Hc. Qed.

Lemma keeps_respond I oob_record : always (keeps I) (_respond_request_attach oob_record).
Proof. unfold _respond_request_attach. repeat (always_step || keeps_prim). Qed.

Lemma logs_respond S oob_record :
  always (logs (saves_in S)) (_respond_request_attach oob_record).
Proof. unfold _respond_request_attach. repeat (always_step || logs_prim). Qed.

(** ** Orchestrator *)

(** The part of [receive_invitation] after the reuse attempt: when it
    returns, the record it returns is in state DONE, the records it saved
    were in the state the record came in with, and the stored record is not
    touched except by those saves and by the tasks that ran during the wait. *)
Lemma receive_invitation_connect_Ok S id invitation oob_record conn_rec auto_accept alias
    mediation_id (w w' : World E) (r : OobRecord.t) :
  S OobRecord.STATE_ACCEPTED → S OobRecord.STATE_NOT_ACCEPTED →
  S (OobRecord.state oob_record) →
  OobRecord.oob_id oob_record = Some id →
  stored_as S id (oob_store w) →
  receive_invitation_connect invitation oob_record conn_rec auto_accept alias mediation_id w
    = (Ok r, w') →
  OobRecord.state r = OobRecord.STATE_DONE
  ∧ OobRecord.oob_id r = Some id
  ∧ stored_as S id (oob_store w')
  ∧ logs (saves_in (λ s, s = OobRecord.state oob_record)) w w'.
Proof.
  intros Ha Hn HS Hid Hst. unfold receive_invitation_connect.
  intros ([r1 c1] & w1 & Hfirst & Hrest)%bind_Ok.
  assert (OobRecord.state r1 = OobRecord.state oob_record
          ∧ OobRecord.oob_id r1 = Some id
          ∧ stored_as S id (oob_store w1)
          ∧ logs (saves_in (λ s, s = OobRecord.state oob_record)) w w1)
    as (Hs1 & Hid1 & Hst1 & Hlog1).
  { destruct (negb _ && _).
    - apply bind_Ok in Hfirst as (ra & wa & Hperform & Hfirst).
      apply bind_Ok in Hfirst as (c & wb & Hretrieve & [= <- <- <-]).
      pose proof (_perform_handshake_Ok _ _ _ _ _ _ _ Hperform) as [Hsa Hida].
      split; [done|]. split; [by apply Hida|].
      assert (always (keeps (stored_as S id)) (ConnRecord_retrieve_by_id (OobRecord.connection_id ra)))
        as Hk by (unfold ConnRecord_retrieve_by_id; repeat (always_step || keeps_prim)).
      assert (always (logs (saves_in (λ s, s = OobRecord.state oob_record)))
                (ConnRecord_retrieve_by_id (OobRecord.connection_id ra)))
        as Hl by (unfold ConnRecord_retrieve_by_id; repeat (always_step || logs_prim)).
      split.
      + eapply (always_run _ _ _ _ _ Hk Hretrieve).
        by eapply (always_run _ _ _ _ _ (keeps_perform_handshake S id _ _ _ _ HS) Hperform).
      + etrans.
        * eapply (always_run _ _ _ _ _ (logs_perform_handshake (λ s, s = OobRecord.state oob_record) _ _ _ _ eq_refl) Hperform).
        * eapply (always_run _ _ _ _ _ Hl Hretrieve).
    - injection Hfirst as <- <- <-. repeat split; [done..|]. reflexivity. }
  apply bind_Ok in Hrest as (r2 & w2 & Hattach & [= <- <-]).
  split; [done|]. simpl.
  destruct (nonempty (InvitationMessage.requests_attach invitation)).
  2:{ injection Hattach as <- <-. done. }
  apply bind_Ok in Hattach as ([] & wa & Hwait & Hattach).
  apply bind_Ok in Hattach as (r3 & wb & Hkey & Hattach).
  apply bind_Ok in Hattach as ([] & wc & Hrespond & [= <- <-]).
  assert (stored_as S id (oob_store wa)
          ∧ logs (saves_in (λ s, s = OobRecord.state oob_record)) w1 wa) as [Hsta Hloga].
  { destruct (truthy _).
    - apply bind_Ok in Hwait as (? & ? & Hwait & [= <-]). split.
      + by eapply (always_run _ _ _ _ _ (keeps_wait_conn S id _ _ Ha Hn) Hwait).
      + eapply (always_run _ _ _ _ _ (logs_wait_conn _ _ _) Hwait).
    - injection Hwait as <-. split; [done | reflexivity]. }
  assert (OobRecord.oob_id r3 = Some id
          ∧ stored_as S id (oob_store wb)
          ∧ logs (saves_in (λ s, s = OobRecord.state oob_record)) wa wb)
    as (Hid3 & Hstb & Hlogb).
  { destruct c1 as [c|].
    - injection Hkey as <- <-. repeat split; [done..|]. reflexivity.
    - apply bind_Ok in Hkey as (key & wk & Hcall & Hkey).
      apply bind_Ok in Hkey as ([] & wl & Hemit & Hsave).
      set (keyed := OobRecord.set_our_recipient_key _ r1) in Hsave.
      assert (S (OobRecord.state keyed)) as HSk by (simpl; by rewrite Hs1).
      assert (OobRecord.state keyed = OobRecord.state oob_record) as Hsk by done.
      pose proof (OobRecord_save_Ok _ _ _ _ Hsave) as (id' & -> & _ & _ & _ & Hid').
      split; [simpl; f_equal; symmetry; by apply Hid'|].
      split.
      + eapply (always_run _ _ _ _ _ (keeps_save S id _ HSk) Hsave).
        eapply (always_run _ _ _ _ _ (keeps_emit _ _) Hemit).
        by eapply (always_run _ _ _ _ _ (keeps_call _ _) Hcall).
      + etrans; [eapply (always_run _ _ _ _ _ (logs_call _ _) Hcall)|].
        etrans; [eapply (always_run _ _ _ _ _ (logs_emit (saves_in (λ s, s = OobRecord.state oob_record)) (EvCreateKey (verkey key)) I) Hemit)|].
        eapply (always_run _ _ _ _ _ (logs_save_in (λ s, s = OobRecord.state oob_record) _ Hsk) Hsave). }
  split; [done|]. split.
  - by eapply (always_run _ _ _ _ _ (keeps_respond _ _) Hrespond).
  - etrans; [exact Hlog1|]. etrans; [exact Hloga|]. etrans; [exact Hlogb|].
    eapply (always_run _ _ _ _ _ (logs_respond _ _) Hrespond).
Qed.


Lemma stored_as_weaken (S S' : OobRecord.State → Prop) id (store : gmap string OobRecord.t) :
  (∀ s, S s → S' s) → stored_as S id store → stored_as S' id store.
Proof. intros HS (r & ? & ? & ?). exists r. auto. Qed.

Lemma logs_begin invitation use_existing_connection mediation_id :
  always (logs (saves_in (λ s, s = OobRecord.STATE_INITIAL)))
    (receive_invitation_begin (E:=E) invitation use_existing_connection mediation_id).
Proof. unfold receive_invitation_begin. repeat (always_step || logs_prim). Qed.

Lemma receive_invitation_begin_Ok invitation use_existing_connection mediation_id
    (w w0 : World E) mediation_id' r0 c0 :
  receive_invitation_begin invitation use_existing_connection mediation_id w
    = (Ok (mediation_id', r0, c0), w0) →
  OobRecord.state r0 = OobRecord.STATE_INITIAL
  ∧ OobRecord.invitation r0 = invitation
  ∧ ∃ id, OobRecord.oob_id r0 = Some id ∧ oob_store w0 !! id = Some r0.
Proof.
  unfold receive_invitation_begin.
  intros (mid & w1 & _ & H)%bind_Ok.
  destruct (negb (bool_decide _)); [done|].
  destruct (negb (_ || _)); [done|].
  apply bind_Ok in H as (item & w2 & _ & H).
  apply bind_Ok in H as (conn_rec & w3 & _ & H).
  apply bind_Ok in H as (r & w4 & Hsave & [= <- <- <- <-]).
  apply OobRecord_save_Ok in Hsave as (id & -> & Hstore & _ & _ & _).
  repeat split; [].
  exists id. split; [done|]. rewrite Hstore. apply lookup_insert_eq.
Qed.

Lemma logs_create_reuse oob_record conn_record :
  always (logs (saves_in unanswered_or_rejected))
    (_create_handshake_reuse_message (E:=E) oob_record conn_record).
Proof.
  unfold _create_handshake_reuse_message, new_message, send.
  repeat (always_step || logs_prim). apply logs_save_in. by left.
Qed.

(** The reuse attempt, when it returns: the record is the one that was
    handed in, answered or not; unless it was accepted its connection id
    is cleared; what was saved was awaiting or rejected. *)
Lemma _handle_hanshake_reuse_Ok oob_record conn_record id (w wa : World E) ra :
  OobRecord.oob_id oob_record = Some id →
  _handle_hanshake_reuse oob_record conn_record w = (Ok ra, wa) →
  OobRecord.oob_id ra = Some id
  ∧ in_flight (OobRecord.state ra)
  ∧ (OobRecord.state ra ≠ OobRecord.STATE_ACCEPTED → OobRecord.connection_id ra = None)
  ∧ stored_as in_flight id (oob_store wa)
  ∧ logs (saves_in unanswered_or_rejected) w wa.
Proof.
  intros Hid. unfold _handle_hanshake_reuse.
  intros (r1 & w1 & Hcreate & H)%bind_Ok.
  apply bind_Ok in H as (r2 & w2 & Hwait & H).
  pose proof (_create_handshake_reuse_message_Ok _ _ _ _ _ Hcreate)
    as (Hs1 & _ & _ & _ & id1 & Hid1 & Hst1 & Hsame).
  rewrite <-(Hsame id Hid) in *. clear Hsame.
  rewrite Hid1 in Hwait.
  assert (stored_as in_flight id (oob_store w1)) as Hstored.
  { exists r1. rewrite Hs1. repeat split; [done..|]. by left. }
  pose proof (_wait_for_reuse_response_Ok in_flight id _ _ _ _
                ltac:(right; by left) ltac:(right; by right) Hstored Hwait)
    as (Hid2 & Hs2 & Hst2).
  pose proof (always_run _ _ _ _ _ (logs_create_reuse _ _) Hcreate) as Hlog1.
  pose proof (always_run _ _ _ _ _ (logs_wait_reuse unanswered_or_rejected _ _) Hwait)
    as Hlog2.
  case_bool_decide as Hacc.
  - apply bind_Ok in H as ([] & w3 & Hnotify & H).
    apply bind_Ok in H as (r3 & w4 & Hsave & [= <- <-]).
    set (cleared := OobRecord.set_connection_id None r2) in *.
    assert (unanswered_or_rejected (OobRecord.state cleared)) as Hsc.
    { simpl. destruct Hs2 as [?|[?|?]]; [by left | done | by right]. }
    pose proof (OobRecord_save_Ok _ _ _ _ Hsave) as (id' & -> & Hstore & _ & _ & Hid').
    rewrite <-(Hid' id Hid2) in *.
    split; [done|]. split; [done|]. split; [done|]. split.
    + eexists. rewrite Hstore, lookup_insert_eq. done.
    + etrans; [exact Hlog1|]. etrans; [exact Hlog2|].
      etrans; [eapply always_run; [|exact Hnotify]; by apply logs_emit|].
      eapply (always_run _ _ _ _ _ (logs_save_in unanswered_or_rejected _ Hsc) Hsave).
  - injection H as <- <-.
    split; [done|]. split; [done|]. split; [done|]. split; [done|].
    etrans; [exact Hlog1 | exact Hlog2].
Qed.


Lemma logs_reuse_before_connecting oob_record conn_record :
  always (logs before_connecting) (_handle_hanshake_reuse (E:=E) oob_record conn_record).
Proof.
  unfold _handle_hanshake_reuse, _create_handshake_reuse_message, new_message, send, notify,
    _wait_for_reuse_response, asyncio_wait_for, _wait_for_state_oob, wait_for_event,
    OobRecord_retrieve_by_id, await_event.
  repeat (always_step || logs_prim || (apply logs_save; intros; exact I)).
Qed.

Lemma logs_begin_before_connecting invitation use_existing_connection mediation_id :
  always (logs before_connecting)
    (receive_invitation_begin (E:=E) invitation use_existing_connection mediation_id).
Proof.
  unfold receive_invitation_begin.
  repeat (always_step || logs_prim || (apply logs_save; intros; exact I)).
Qed.

(** C3: a completing [receive_invitation] returns early exactly when the
    reuse attempt ended with the record ACCEPTED: then it returns what the
    reuse attempt returned, in the world the attempt ended in, and nothing of
    the handshake or of the attachments has happened; in every other
    completing run the returned record is in state DONE. *)
Theorem receive_invitation_returns_early_iff_reuse_accepted
    (invitation : InvitationMessage.t) (use_existing_connection : bool)
    (auto_accept : option bool) (alias mediation_id : option string)
    (w w' : World E) (r : OobRecord.t) :
  receive_invitation invitation use_existing_connection auto_accept alias mediation_id w
    = (Ok r, w') →
  ∃ mediation_id' r0 c0 w0,
    receive_invitation_begin invitation use_existing_connection mediation_id w
      = (Ok (mediation_id', r0, c0), w0)
    ∧ ((∃ found,
          reuse_candidate invitation c0 = Some found
          ∧ _handle_hanshake_reuse r0 found w0 = (Ok r, w')
          ∧ OobRecord.state r = OobRecord.STATE_ACCEPTED
          ∧ logs before_connecting w w')
       ∨ (OobRecord.state r = OobRecord.STATE_DONE
          ∧ ¬ ∃ found ra wa,
                reuse_candidate invitation c0 = Some found
                ∧ _handle_hanshake_reuse r0 found w0 = (Ok ra, wa)
                ∧ OobRecord.state ra = OobRecord.STATE_ACCEPTED)).
Proof.
  unfold receive_invitation.
  intros ([[mediation_id' r0] c0] & w0 & Hbegin & H)%bind_Ok.
  exists mediation_id', r0, c0, w0. split; [done|].
  pose proof (receive_invitation_begin_Ok _ _ _ _ _ _ _ _ Hbegin) as (Hs0 & _ & id & Hid & Hst).
  assert (stored_as (λ _, True) id (oob_store w0)) as Hstored by (by exists r0).
  destruct (reuse_candidate invitation c0) as [found|] eqn:Hcand.
  - apply bind_Ok in H as (ra & wa & Hreuse & H).
    pose proof (_handle_hanshake_reuse_Ok _ _ _ _ _ _ Hid Hreuse) as (Hida & _ & _ & Hsta & _).
    case_bool_decide as Hacc.
    + injection H as <- <-. left. exists found. repeat split; [done..|].
      etrans; [exact (always_run _ _ _ _ _ (logs_begin_before_connecting _ _ _) Hbegin)|].
      exact (always_run _ _ _ _ _ (logs_reuse_before_connecting _ _) Hreuse).
    + right. split.
      * eapply (receive_invitation_connect_Ok (λ _, True)) in H as [? _]; try done.
        by eapply stored_as_weaken.
      * intros (found' & ra' & wa' & [= <-] & Hreuse' & Hacc').
        rewrite Hreuse in Hreuse'. by injection Hreuse' as <- <-.
  - right. split.
    + by eapply (receive_invitation_connect_Ok (λ _, True)) in H as [? _].
    + by intros (found' & ra' & wa' & [=] & _).
Qed.

(** C10, as the code has it: in a run of [receive_invitation] that reaches
    the final step, DONE is the state of the returned record only.  Every
    record the run saved was INITIAL, AWAIT_RESPONSE or NOT_ACCEPTED, and the
    record stored under the returned id is not DONE, so the returned and the
    stored state differ. *)
Theorem done_is_returned_but_never_saved
    (invitation : InvitationMessage.t) (use_existing_connection : bool)
    (auto_accept : option bool) (alias mediation_id : option string)
    (w w' : World E) (r : OobRecord.t) :
  receive_invitation invitation use_existing_connection auto_accept alias mediation_id w
    = (Ok r, w') →
  OobRecord.state r = OobRecord.STATE_DONE →
  (∃ t, trace w' = (trace w ++ t)%list
        ∧ Forall (λ saved, OobRecord.state saved ∈
                             [OobRecord.STATE_INITIAL; OobRecord.STATE_AWAIT_RESPONSE;
                              OobRecord.STATE_NOT_ACCEPTED]) (saved_oob t))
  ∧ ∃ id stored,
      OobRecord.oob_id r = Some id
      ∧ oob_store w' !! id = Some stored
      ∧ OobRecord.state stored ≠ OobRecord.STATE_DONE
      ∧ OobRecord.state stored ≠ OobRecord.state r.
Proof.
  set (allowed := λ s, s ∈ [OobRecord.STATE_INITIAL; OobRecord.STATE_AWAIT_RESPONSE;
                            OobRecord.STATE_NOT_ACCEPTED]).
  set (not_done := λ s, s ≠ OobRecord.STATE_DONE).
  unfold receive_invitation.
  intros ([[mediation_id' r0] c0] & w0 & Hbegin & H)%bind_Ok Hdone.
  pose proof (receive_invitation_begin_Ok _ _ _ _ _ _ _ _ Hbegin) as (Hs0 & _ & id & Hid & Hst).
  pose proof (always_run _ _ _ _ _ (logs_begin _ _ _) Hbegin) as Hlog0.
  assert (stored_as not_done id (oob_store w0)) as Hstored.
  { exists r0. by rewrite Hs0. }
  assert (∃ rb wb, OobRecord.oob_id rb = Some id ∧ allowed (OobRecord.state rb)
                   ∧ stored_as not_done id (oob_store wb)
                   ∧ logs (saves_in allowed) w wb
                   ∧ ∃ c, receive_invitation_connect invitation rb c auto_accept alias
                            mediation_id' wb = (Ok r, w'))
    as (rb & wb & Hidb & Hsb & Hstb & Hlogb & c & Hconnect).
  { destruct (reuse_candidate invitation c0) as [found|].
    - apply bind_Ok in H as (ra & wa & Hreuse & H).
      pose proof (_handle_hanshake_reuse_Ok _ _ _ _ _ _ Hid Hreuse)
        as (Hida & Hsa & _ & Hsta & Hloga).
      case_bool_decide as Hacc.
      { injection H as <- <-. congruence. }
      exists ra, wa. split; [done|]. split.
      { unfold allowed. rewrite !elem_of_cons.
        destruct Hsa as [Hx|[Hx|Hx]]; [right; by left | done | right; right; by left]. }
      split.
      { eapply stored_as_weaken; [|exact Hsta]. unfold not_done. by intros s [->|[->| ->]]. }
      split; [|by eexists].
      etrans.
      + eapply logs_weaken; [|exact Hlog0]. intros [] Hev; simpl in *; try done.
        rewrite Hev. unfold allowed. rewrite !elem_of_cons. by left.
      + eapply logs_weaken; [|exact Hloga]. intros [] Hev; simpl in *; try done.
        unfold allowed. rewrite !elem_of_cons.
        destruct Hev as [Hx|Hx]; [right; by left | right; right; by left].
    - exists r0, w0. split; [done|]. split.
      { rewrite Hs0. unfold allowed. rewrite !elem_of_cons. by left. }
      split; [done|]. split; [|by eexists].
      eapply logs_weaken; [|exact Hlog0]. intros [] Hev; simpl in *; try done.
      rewrite Hev. unfold allowed. rewrite !elem_of_cons. auto. }
  assert (not_done (OobRecord.state rb)) as Hnd.
  { unfold not_done, allowed in *. rewrite !elem_of_cons, elem_of_nil in Hsb.
    destruct Hsb as [->|[->|[->|[]]]]; done. }
  eapply (receive_invitation_connect_Ok not_done id) in Hconnect
    as (_ & Hidr & (stored & Hstored' & _ & Hnot) & Hlogc); try done.
  split.
  - destruct Hlogb as (tb & Htb & Hfb). destruct Hlogc as (tc & Htc & Hfc).
    exists (tb ++ tc)%list. split; [by rewrite Htc, Htb, <-(assoc_L (++)%list)|].
    apply (saves_in_saved allowed), Forall_app. split; [done|].
    eapply saves_in_weaken; [|exact Hfc]. by intros s ->.
  - exists id, stored. rewrite Hdone. done.
Qed.


(** ** Tag queries *)

Lemma filter_none (tags : OobRecord.t → bool) (store : gmap string OobRecord.t) :
  (∀ k r, store !! k = Some r → tags r = false) →
  map_to_list (filter (λ kv, tags kv.2) store) = [].
Proof.
  intros Hnone. apply map_to_list_empty_iff, map_empty. intros i.
  apply map_lookup_filter_None. right. intros r Hr. simpl. rewrite (Hnone i r Hr). by intros [].
Qed.

Lemma filter_unique (tags : OobRecord.t → bool) (store : gmap string OobRecord.t) k r :
  store !! k = Some r → tags r = true →
  (∀ k' r', store !! k' = Some r' → tags r' = true → k' = k) →
  map_to_list (filter (λ kv, tags kv.2) store) = [(k, r)].
Proof.
  intros Hk Hr Huniq.
  assert (filter (λ kv, tags kv.2) store = {[k := r]}) as ->; [|apply map_to_list_singleton].
  apply map_eq. intros i. destruct (decide (i = k)) as [->|Hne].
  - rewrite lookup_singleton_eq. apply map_lookup_filter_Some. split; [done|]. simpl.
    by rewrite Hr.
  - rewrite lookup_singleton_ne by done. apply map_lookup_filter_None. right.
    intros r' Hr' Htags. simpl in Htags. apply Hne, (Huniq i r' Hr').
    by destruct (tags r').
Qed.

Lemma OobRecord_retrieve_by_tag_filter_none tags (w : World E) :
  (∀ k r, oob_store w !! k = Some r → tags r = false) →
  OobRecord_retrieve_by_tag_filter tags w = (Raise StorageNotFoundError, w).
Proof.
  intros Hnone. unfold OobRecord_retrieve_by_tag_filter. run. by rewrite filter_none.
Qed.

Lemma OobRecord_retrieve_by_tag_filter_unique tags (w : World E) k r :
  oob_store w !! k = Some r → tags r = true →
  (∀ k' r', oob_store w !! k' = Some r' → tags r' = true → k' = k) →
  OobRecord_retrieve_by_tag_filter tags w = (Ok r, w).
Proof.
  intros Hk Hr Huniq. unfold OobRecord_retrieve_by_tag_filter. run.
  by rewrite (filter_unique tags _ k r).
Qed.

Lemma OobRecord_retrieve_by_tag_filter_run tags (w : World E) :
  ∃ res, OobRecord_retrieve_by_tag_filter tags w = (res, w).
Proof.
  unfold OobRecord_retrieve_by_tag_filter. run.
  destruct (map_to_list _) as [|[k r] [|]]; run; eauto.
Qed.

Lemma ConnRecord_save_run (c : ConnRecord.t) (w : World E) :
  ∃ id e,
    let c' := ConnRecord.set_connection_id (Some id) c in
    ConnRecord_save c w =
      (Ok c', {| oob_store := oob_store w; conn_store := <[id := c']> (conn_store w);
                 bus := bus w ++ [BusConn c']; trace := trace w ++ [EvSaveConn c'];
                 env := e |})
    ∧ (∀ id', ConnRecord.connection_id c = Some id' → id' = id).
Proof.
  unfold ConnRecord_save. destruct (ConnRecord.connection_id c) as [id|] eqn:Hid.
  - exists id, (env w). split; [by run | by intros ? [= ->]].
  - unfold call, total. destruct (uuid4 (env w)) as [id e] eqn:Hu.
    exists id, e. split; [|done]. run. rewrite Hu. by run.
Qed.

(** Saving a record as it is stored changes nothing in the store. *)
Lemma set_oob_id_same (r : OobRecord.t) k :
  OobRecord.oob_id r = Some k → OobRecord.set_oob_id (Some k) r = r.
Proof. destruct r. simpl. by intros ->. Qed.

Lemma set_state_same (r : OobRecord.t) s :
  OobRecord.state r = s → OobRecord.set_state s r = r.
Proof. destruct r. simpl. by intros ->. Qed.

(** ** Reuse, receiving sides *)

(** C8: a [HandshakeReuseAccept] delivered for a record that is already
    ACCEPTED is processed without an exception and leaves the record store as
    it was: the record keeps its state and its connection id, and a further
    delivery finds the same store again. *)
Theorem reuse_accept_redelivered_keeps_accepted_record
    (reuse_accepted_msg : AgentMessage) (receipt : MessageReceipt) (conn_record : ConnRecord.t)
    (thread : Thread) (k : string) (r : OobRecord.t) (w : World E) :
  _thread reuse_accepted_msg = Some thread →
  oob_store w !! k = Some r →
  OobRecord.oob_id r = Some k →
  OobRecord.invi_msg_id r = pthid thread →
  OobRecord.reuse_msg_id r = Some (thid thread) →
  (∀ k' r', oob_store w !! k' = Some r' →
            OobRecord.invi_msg_id r' = pthid thread →
            OobRecord.reuse_msg_id r' = Some (thid thread) → k' = k) →
  OobRecord.state r = OobRecord.STATE_ACCEPTED →
  ∃ w',
    receive_reuse_accepted_message reuse_accepted_msg receipt conn_record w = (Ok tt, w')
    ∧ oob_store w' = oob_store w
    ∧ ∃ r', oob_store w' !! k = Some r'
            ∧ OobRecord.state r' = OobRecord.STATE_ACCEPTED
            ∧ OobRecord.connection_id r' = OobRecord.connection_id r.
Proof.
  intros Hthread Hk Hid Hinvi Hreuse Huniq Hstate.
  unfold receive_reuse_accepted_message, thread_of, try_except. rewrite Hthread. run.
  erewrite (OobRecord_retrieve_by_tag_filter_unique _ w k r); [|done|..].
  2:{ by rewrite Hinvi, Hreuse, !bool_decide_eq_true_2. }
  2:{ intros k' r' Hk' Htags. apply andb_true_iff in Htags as [H1 H2].
      apply bool_decide_eq_true in H1. apply bool_decide_eq_true in H2. by eapply Huniq. }
  run. rewrite (set_state_same r) by done.
  destruct (ConnRecord_save_run
              (ConnRecord.set_invitation_msg_id (Some (pthid thread)) conn_record) w)
    as (cid & e & Hconn & _).
  simpl in Hconn. rewrite Hconn. run.
  unfold OobRecord_save. rewrite Hid. run. rewrite (set_oob_id_same r k) by done.
  unfold notify. run.
  eexists. split; [reflexivity|]. simpl. rewrite insert_id by done.
  split; [done|]. by exists r.
Qed.


(** C2, at the input on which it fails: a [HandshakeReuse] whose invitation
    has no record awaiting a response.  The lookup raises
    [StorageNotFoundError], and that exception leaves
    [receive_reuse_message] as it is: nothing wraps it in an
    [OutOfBandManagerError] the way [receive_reuse_accepted_message] and
    [receive_problem_report] wrap theirs. *)
Theorem reuse_message_without_record_raises_unwrapped
    (reuse_msg : AgentMessage) (receipt : MessageReceipt) (conn_rec : ConnRecord.t)
    (thread : Thread) (w : World E) :
  _thread reuse_msg = Some thread →
  (∀ k r, oob_store w !! k = Some r →
          ¬ (OobRecord.invi_msg_id r = pthid thread
             ∧ OobRecord.state r = OobRecord.STATE_AWAIT_RESPONSE)) →
  responder_present = true →
  (∀ e, ∃ targets e', fetch_connection_targets conn_rec e = (Ok targets, e')) →
  ∃ w', receive_reuse_message reuse_msg receipt conn_rec w = (Raise StorageNotFoundError, w')
        ∧ trace w' = trace w
        ∧ oob_store w' = oob_store w.
Proof.
  intros Hthread Hnone Hresponder Hfetch.
  unfold receive_reuse_message, thread_of, new_message. rewrite Hthread, Hresponder. run.
  unfold call at 1, total. destruct (uuid4 (env w)) as [id e1]. run.
  unfold call at 1. simpl. destruct (Hfetch e1) as (targets & e2 & ->). run.
  rewrite OobRecord_retrieve_by_tag_filter_none.
  - eexists. split; [reflexivity|]. done.
  - intros k r Hk. simpl in Hk. apply andb_false_iff.
    destruct (decide (OobRecord.invi_msg_id r = pthid thread)) as [Hi|Hi].
    + right. apply bool_decide_eq_false_2. intros Hs. by apply (Hnone k r Hk).
    + left. by apply bool_decide_eq_false_2.
Qed.

Lemma delete_record_run id (w : World E) :
  delete_record id w
  = (Ok tt, {| oob_store := oob_store w; conn_store := delete id (conn_store w);
               bus := bus w; trace := trace w; env := env w |}).
Proof. reflexivity. Qed.






(** ** Handshake *)

Lemma handshake_loop_skips_unsupported
    (seen xs : list string) invitation service public_did alias auto_accept mediation_id :
  (∀ x, x ∈ seen → HSProto_get x = None) →
  handshake_loop (HSProto_get <$> dict_fromkeys seen xs) invitation service public_did alias
    auto_accept mediation_id
  = match head (omap HSProto_get xs) with
    | Some protocol =>
        '(conn_record, service) ←
          handshake_with protocol invitation service public_did alias auto_accept mediation_id;
        mret (Some conn_record, service)
    | None => mret (None, service)
    end.
Proof.
  revert seen. induction xs as [|x xs IH]; intros seen Hseen; simpl; [done|].
  case_bool_decide as Hx.
  - rewrite (Hseen x Hx). by apply IH.
  - simpl. destruct (HSProto_get x) as [protocol|] eqn:Hget; simpl; [done|].
    apply IH. intros y [->|Hy]%elem_of_cons; [done | by apply Hseen].
Qed.

Lemma handshake_loop_first_supported
    invitation service public_did alias auto_accept mediation_id :
  handshake_loop (E:=E) (supported_handshake_protocols invitation) invitation service
    public_did alias auto_accept mediation_id
  = match first_supported (InvitationMessage.handshake_protocols invitation) with
    | Some protocol =>
        '(conn_record, service) ←
          handshake_with protocol invitation service public_did alias auto_accept
            mediation_id;
        mret (Some conn_record, service)
    | None => mret (None, service)
    end.
Proof.
  unfold supported_handshake_protocols, first_supported.
  apply handshake_loop_skips_unsupported. by intros x ?%elem_of_nil.
Qed.




(** ** One handshake *)

Lemma comprehension_Ok {A B} (f : A → Res B) (xs : list A) (w w' : World E) (ys : list B) :
  comprehension f xs w = (Ok ys, w') → w' = w ∧ Forall2 (λ x y, f x = Ok y) xs ys.
Proof.
  revert ys w'. induction xs as [|x xs IH]; intros ys w'; simpl.
  - intros [= <- <-]. by split.
  - destruct (f x) as [y|err] eqn:Hx; [|done].
    intros (ys' & w1 & [-> Hys]%IH & [= <- <-])%bind_Ok. split; [done|]. by constructor.
Qed.

Lemma comprehension_run {A B} (f : A → Res B) (xs : list A) (w : World E) :
  ∃ res, comprehension f xs w = (res, w).
Proof.
  induction xs as [|x xs [res IH]]; simpl; [by eexists|].
  destruct (f x) as [y|err]; [|by eexists].
  rewrite run_bind, IH. destruct res; by eexists.
Qed.

Lemma resolve_service_run (service : ServiceItem) (w w1 : World E) res :
  resolve_service service w = (res, w1) → ∃ e, w1 = set_env e w.
Proof.
  destruct service as [did|service]; simpl.
  2:{ intros [= <- <-]. exists (env w). by destruct w. }
  rewrite run_bind. unfold call at 1.
  destruct (resolve_invitation did (env w)) as [[[[endpoint recipient_keys] routing_keys]|err] e].
  2:{ intros [= <- <-]. by exists e. }
  rewrite run_bind.
  match goal with
  | |- context [comprehension ?f ?xs ?x] => destruct (comprehension_run f xs x) as [res1 ->]
  end.
  destruct res1 as [keys1|err]; [|intros [= <- <-]; by exists e].
  rewrite run_bind.
  match goal with
  | |- context [comprehension ?f ?xs ?x] => destruct (comprehension_run f xs x) as [res2 ->]
  end.
  destruct res2 as [keys2|err]; intros [= <- <-]; by exists e.
Qed.

Lemma same_but_services_assigned (item : ServiceItem) (service : ServiceMessage)
    (invitation : InvitationMessage.t) :
  same_but_services invitation (service_assigned item service invitation).
Proof.
  unfold service_assigned, same_but_services.
  by destruct item, (InvitationMessage.services invitation).
Qed.

Lemma handshake_with_run protocol invitation service public_did alias auto_accept mediation_id
    (w w' : World E) res :
  handshake_with protocol invitation service public_did alias auto_accept mediation_id w
    = (res, w') →
  oob_store w' = oob_store w ∧ bus w' = bus w
  ∧ match res with
    | Ok (c, assigned) =>
        trace w' = (trace w ++ [EvHandshake protocol])%list
        ∧ conn_store w' = match ConnRecord.connection_id c with
                          | Some cid => <[cid := c]> (conn_store w)
                          | None => conn_store w
                          end
        ∧ match protocol with
          | RFC23 => assigned = service
          | RFC160 =>
              ∃ keys1 keys2,
                Forall2 (λ did key, DIDKey_from_did did = Ok key) (recipient_keys service) keys1
                ∧ Forall2 (λ did key, DIDKey_from_did did = Ok key) (routing_keys service)
                    keys2
                ∧ assigned = set_routing_keys keys2 (set_recipient_keys keys1 service)
          end
    | Raise err =>
        conn_store w' = conn_store w
        ∧ (trace w' = trace w ∨ trace w' = (trace w ++ [EvHandshake protocol])%list)
    end.
Proof.
  assert (∀ (f : E → Res ConnRecord.t * E) (s : ServiceMessage) (w0 : World E),
            (emit (EvHandshake protocol);;
             conn_record ← call f; stored_by_collaborator conn_record;; mret (conn_record, s))
              w0
            = (res, w') →
            oob_store w' = oob_store w0 ∧ bus w' = bus w0
            ∧ match res with
              | Ok (c, assigned) =>
                  trace w' = (trace w0 ++ [EvHandshake protocol])%list
                  ∧ conn_store w' = match ConnRecord.connection_id c with
                                    | Some cid => <[cid := c]> (conn_store w0)
                                    | None => conn_store w0
                                    end
                  ∧ assigned = s
              | Raise err =>
                  conn_store w' = conn_store w0
                  ∧ (trace w' = trace w0 ∨ trace w' = (trace w0 ++ [EvHandshake protocol])%list)
              end) as Hcall.
  { intros f s w0. run. unfold call. simpl. destruct (f (env w0)) as [[c|err] e]; run.
    - unfold stored_by_collaborator. destruct (ConnRecord.connection_id c) as [cid|] eqn:Hc; run;
        intros [= <- <-]; simpl; by rewrite ?Hc.
    - intros [= <- <-]. simpl. auto. }
  destruct protocol; simpl; [|apply Hcall].
  rewrite run_bind.
  destruct (comprehension DIDKey_from_did (recipient_keys service) w) as [[keys1|err] w1]
    eqn:H1.
  2:{ destruct (comprehension_run DIDKey_from_did (recipient_keys service) w) as [res1 Hr].
      rewrite Hr in H1. injection H1 as _ <-. intros [= <- <-]. auto. }
  apply comprehension_Ok in H1 as [-> HF1]. rewrite run_bind.
  destruct (comprehension DIDKey_from_did (routing_keys service) w) as [[keys2|err] w2]
    eqn:H2.
  2:{ destruct (comprehension_run DIDKey_from_did (routing_keys service) w) as [res2 Hr].
      rewrite Hr in H2. injection H2 as _ <-. intros [= <- <-]. auto. }
  apply comprehension_Ok in H2 as [-> HF2].
  intros H. apply Hcall in H as (Ho & Hb & H). split; [done|]. split; [done|].
  destruct res as [[c assigned]|err]; [|done]. destruct H as (Ht & Hc & ->).
  split; [done|]. split; [done|]. by exists keys1, keys2.
Qed.

Lemma _perform_handshake_run oob_record alias auto_accept mediation_id (w w' : World E) res :
  _perform_handshake oob_record alias auto_accept mediation_id w = (res, w') →
  let invitation := OobRecord.invitation oob_record in
  let listed := InvitationMessage.handshake_protocols invitation in
  match res with
  | Ok r =>
      ∃ protocol c id,
        first_supported listed = Some protocol
        ∧ trace w' = (trace w ++ [EvHandshake protocol; EvSaveOob r])%list
        ∧ r = OobRecord.set_oob_id (Some id)
                (OobRecord.set_connection_id (ConnRecord.connection_id c)
                   (OobRecord.set_invitation (OobRecord.invitation r) oob_record))
        ∧ (∀ id', OobRecord.oob_id oob_record = Some id' → id' = id)
        ∧ oob_store w' = <[id := r]> (oob_store w)
        ∧ conn_store w' = match ConnRecord.connection_id c with
                          | Some cid => <[cid := c]> (conn_store w)
                          | None => conn_store w
                          end
        ∧ after_handshake protocol invitation (OobRecord.invitation r)
  | Raise err =>
      oob_store w' = oob_store w ∧ conn_store w' = conn_store w ∧ bus w' = bus w
      ∧ (trace w' = trace w
         ∨ ∃ protocol, first_supported listed = Some protocol
                       ∧ trace w' = (trace w ++ [EvHandshake protocol])%list)
  end.
Proof.
  unfold _perform_handshake. rewrite run_bind.
  destruct (InvitationMessage.services _) as [|item rest] eqn:Hservices; simpl.
  { intros [= <- <-]. auto. }
  rewrite run_bind.
  destruct (resolve_service item w) as [[[service public_did]|err] w1] eqn:Hresolve.
  2:{ apply resolve_service_run in Hresolve as [e ->]. intros [= <- <-]. simpl. auto. }
  assert (∀ block, item = ServiceBlock block → service = block) as Hblock.
  { intros block ->. simpl in Hresolve. by injection Hresolve as <- _ _. }
  apply resolve_service_run in Hresolve as [e ->].
  rewrite run_bind, handshake_loop_first_supported.
  destruct (first_supported _) as [protocol|] eqn:Hfirst; simpl.
  2:{ intros [= <- <-]. simpl. auto. }
  rewrite run_bind.
  destruct (handshake_with protocol _ _ _ _ _ _ _) as [[[c assigned]|err] w2] eqn:Hwith;
    apply handshake_with_run in Hwith as (Ho & Hb & Hres); simpl in *.
  2:{ intros [= <- <-]. destruct Hres as [Hc Ht]. repeat split; try done.
      destruct Ht as [Ht|Ht]; [by left|]. right. by exists protocol. }
  destruct Hres as (Ht & Hc & Hassigned). rewrite run_bind.
  match goal with
  | |- context [OobRecord_save ?x ?y] =>
      destruct (OobRecord_save_run x y) as (k & e4 & -> & Hk)
  end. simpl. intros [= <- <-]. simpl.
  exists protocol, c, k. rewrite Ht, Ho, Hc, <-(assoc_L (++)%list).
  do 6 (split; [done|]). split; [apply same_but_services_assigned|].
  rewrite Hservices. unfold service_assigned. rewrite Hservices.
  destruct protocol, item as [did|block]; try done.
  - specialize (Hblock block eq_refl). subst service.
    destruct Hassigned as (keys1 & keys2 & HF1 & HF2 & ->). by exists keys1, keys2.
  - specialize (Hblock block eq_refl). subst service assigned.
    destruct (OobRecord.invitation oob_record); simpl in *. by subst.
Qed.


(** ** Invitation builder *)

Lemma untouched_resolve_attachments invitation_message_id attachments :
  always untouched (resolve_attachments (E:=E) invitation_message_id attachments).
Proof.
  induction attachments as [|atch attachments IH]; simpl; [apply always_ret, _|].
  unfold resolve_attachment.
  repeat (always_step || apply untouched_call || exact IH).
Qed.

Lemma resolve_attachments_unknown_type invitation_message_id attachments (w : World E) :
  Exists (λ a, ¬ known_attachment_type a) attachments →
  ∃ err w', resolve_attachments invitation_message_id attachments w = (Raise err, w').
Proof.
  intros Hex. revert w. induction Hex as [atch rest Hunknown|atch rest _ IH]; intros w; simpl.
  - rewrite run_bind. unfold resolve_attachment at 1. rewrite run_bind.
    rewrite bool_decide_eq_false_2 by (intros ?; apply Hunknown; by left).
    rewrite bool_decide_eq_false_2 by (intros ?; apply Hunknown; by right).
    simpl. eauto.
  - rewrite run_bind.
    destruct (resolve_attachment invitation_message_id atch w) as [[a|err] w1]; [|eauto].
    rewrite run_bind. destruct (IH w1) as (err & w2 & ->). eauto.
Qed.

(** C6: [create_invitation] fails before anything is persisted when the
    handshake protocols and the attachments are both empty, when a public
    invitation is multi-use or has metadata, when a multi-use invitation has
    attachments, and when an attachment has an unknown type: the call raises,
    and stores, bus and effect log are as they were. *)
Theorem create_invitation_validation_fails_before_persisting
    (my_label my_endpoint : option string) (auto_accept : option bool) (public : bool)
    (hs_protos : list HSProto) (multi_use : bool) (alias : option string)
    (attachments : list AttachRef) (metadata : list (string * string))
    (mediation_id : option string) (w : World E) :
  (hs_protos = [] ∧ attachments = [])
  ∨ (public = true ∧ multi_use = true)
  ∨ (public = true ∧ metadata ≠ [])
  ∨ (attachments ≠ [] ∧ multi_use = true)
  ∨ Exists (λ a, ¬ known_attachment_type a) attachments →
  ∃ err w',
    create_invitation my_label my_endpoint auto_accept public hs_protos multi_use alias
      attachments metadata mediation_id w = (Raise err, w')
    ∧ untouched w w'.
Proof.
  intros Hinvalid. unfold create_invitation. rewrite run_bind.
  destruct (call (mediation_record_if_id mediation_id true) w) as [[mediation_record|err] w1]
    eqn:Hmediation.
  2:{ exists err, w1. split; [done|]. exact (always_run _ _ _ _ _ (untouched_call _) Hmediation). }
  pose proof (always_run _ _ _ _ _ (untouched_call _) Hmediation) as Hw1.
  destruct (negb (nonempty hs_protos || nonempty attachments)) eqn:Hempty; [by eexists _, _|].
  destruct (public && multi_use) eqn:Hpm; [by eexists _, _|].
  destruct (public && nonempty metadata) eqn:Hpmeta; [by eexists _, _|].
  destruct (nonempty attachments && multi_use) eqn:Ham; [by eexists _, _|].
  destruct Hinvalid as [[-> ->]|[[-> ->]|[[-> Hmeta]|[[Hatt ->]|Hunknown]]]].
  - done.
  - done.
  - by destruct metadata.
  - by destruct attachments.
  - rewrite run_bind.
    destruct (call (total uuid4) w1) as [[invitation_message_id|err] w2] eqn:Huuid.
    2:{ exists err, w2. split; [done|]. etrans; [exact Hw1|].
        exact (always_run _ _ _ _ _ (untouched_call _) Huuid). }
    pose proof (always_run _ _ _ _ _ (untouched_call _) Huuid) as Hw2.
    rewrite run_bind.
    destruct (resolve_attachments_unknown_type invitation_message_id attachments w2 Hunknown)
      as (err & w3 & Hresolve).
    rewrite Hresolve. exists err, w3. split; [done|].
    etrans; [exact Hw1|]. etrans; [exact Hw2|].
    exact (always_run _ _ _ _ _ (untouched_resolve_attachments _ _) Hresolve).
Qed.

(** C9: a pairwise invitation ([public=False]) with no handshake protocol,
    with attachments, and with a mediation record in force.  When the
    collaborators on the way do not fail, [create_invitation] creates the
    signing key and then raises [AttributeError] on
    [conn_rec.metadata_set], [conn_rec] being [None]; no invitation is
    returned and no record has been stored. *)
Theorem pairwise_attachment_invitation_with_mediation_crashes
    (my_label my_endpoint : option string) (auto_accept : option bool)
    (alias : option string) (attachments : list AttachRef)
    (metadata : list (string * string)) (mediation_id : option string)
    (mediation_record : MediationRecord) (e1 : E) (w : World E) :
  attachments ≠ [] →
  mediation_record_if_id mediation_id true (env w) = (Ok (Some mediation_record), e1) →
  (∀ id w0, ∃ resolved w1, resolve_attachments id attachments w0 = (Ok resolved, w1)) →
  (∀ e, ∃ key e', wallet_create_signing_key e = (Ok key, e')) →
  (∀ key message e, ∃ updates e', mediation_add_key key message e = (Ok updates, e')) →
  (∀ wallet_id key skip e, ∃ e', multitenant_add_key wallet_id key skip e = (Ok tt, e')) →
  (∀ e, ∃ base e', multitenant_get_default_mediator e = (Ok base, e')) →
  ∃ key w',
    create_invitation my_label my_endpoint auto_accept false [] false alias attachments
      metadata mediation_id w = (Raise (AttributeError "metadata_set"), w')
    ∧ trace w' = (trace w ++ [EvCreateKey key])%list
    ∧ oob_store w' = oob_store w
    ∧ conn_store w' = conn_store w.
Proof.
  intros Hatt Hmediation Hresolve Hkey Hadd Hmtadd Hmtget.
  unfold create_invitation. rewrite run_bind, (call_Ok _ _ _ _ Hmediation).
  destruct attachments as [|atch attachments]; [done|]. cbn [nonempty negb orb andb].
  destruct (uuid4 e1) as [id e2] eqn:Huuid.
  rewrite run_bind, (call_total _ (set_env e1 w) _ _ Huuid).
  set (w0 := set_env e2 _).
  destruct (Hresolve id w0) as (resolved & w1 & Hr).
  pose proof (always_run _ _ _ _ _ (untouched_resolve_attachments id (atch :: attachments)) Hr)
    as (Ho & Hc & _ & Ht).
  simpl in Ho, Hc, Ht. rewrite run_bind, Hr.
  unfold create_invitation_pairwise.
  destruct (Hkey (env w1)) as (key & e3 & Hk).
  rewrite run_bind, (call_Ok _ _ _ _ Hk). exists (verkey key).
  rewrite run_bind, run_emit.
  destruct (Hadd (verkey key) None e3) as (updates & e4 & Ha).
  rewrite run_bind, (call_Ok _ (set_trace _ (set_env e3 w1)) _ _ Ha).
  destruct multitenant_relay as [wallet_id|].
  - destruct (Hmtadd wallet_id (verkey key) false e4) as (e5 & Hm).
    rewrite run_bind, (call_Ok _ (set_env e4 _) _ _ Hm). simpl nonempty. run.
    destruct (Hmtget e5) as (base & e6 & Hg).
    rewrite (call_Ok _ (set_env e5 _) _ _ Hg).
    destruct base; run; eexists; (split; [reflexivity|]); simpl; by rewrite Ho, Hc, Ht.
  - run. eexists. split; [reflexivity|]. simpl. by rewrite Ho, Hc, Ht.
Qed.

(** ** Stale connections *)

Lemma for_each_delete_run (l : list (string * ConnRecord.t)) (w : World E) :
  for_each (λ kv : string * ConnRecord.t, delete_record kv.1) l w
  = (Ok tt, {| oob_store := oob_store w;
               conn_store := foldl (λ m kv, delete kv.1 m) (conn_store w) l;
               bus := bus w; trace := trace w; env := env w |}).
Proof.
  revert w. induction l as [|kv l IH]; intros w; simpl; [by destruct w|].
  by rewrite run_bind, delete_record_run, IH.
Qed.

Lemma lookup_foldl_delete (l : list (string * ConnRecord.t)) (m : gmap string ConnRecord.t)
    (id : string) :
  foldl (λ m kv, delete kv.1 m) m l !! id = if decide (id ∈ l.*1) then None else m !! id.
Proof.
  revert m. induction l as [|[k c] l IH]; intros m; [done|].
  rewrite fmap_cons. simpl. rewrite IH.
  destruct (decide (id ∈ l.*1)) as [Hin|Hnin];
    destruct (decide (id ∈ k :: l.*1)) as [Hin'|Hnin']; try done.
  - exfalso. apply Hnin', elem_of_cons. by right.
  - apply elem_of_cons in Hin' as [->|?]; [|done]. apply lookup_delete_eq.
  - apply lookup_delete_ne. intros ->. apply Hnin', elem_of_cons. by left.
Qed.

Lemma delete_stale_connection_by_invitation_spec invi_msg_id (w : World E) :
  delete_stale_connection_by_invitation invi_msg_id w
  = (Ok tt, {| oob_store := oob_store w;
               conn_store := filter (λ kv, ¬ is_stale invi_msg_id kv.2) (conn_store w);
               bus := bus w; trace := trace w; env := env w |}).
Proof.
  unfold delete_stale_connection_by_invitation. rewrite run_bind. simpl.
  rewrite for_each_delete_run. do 2 f_equal. apply map_eq. intros id.
  rewrite lookup_foldl_delete.
  destruct (conn_store w !! id) as [c|] eqn:Hc.
  - destruct (is_stale invi_msg_id c) eqn:Hstale.
    + rewrite decide_True.
      * symmetry. apply map_lookup_filter_None. right. intros c' Hc' Hn. simplify_eq.
        apply Hn. simpl. by rewrite Hstale.
      * apply list_elem_of_fmap. exists (id, c). split; [done|].
        apply elem_of_map_to_list, map_lookup_filter_Some. split; [done|]. simpl.
        by rewrite Hstale.
    + rewrite decide_False.
      * symmetry. apply map_lookup_filter_Some. split; [done|]. simpl. rewrite Hstale.
        by intros [].
      * intros ([k c'] & -> & Hin)%list_elem_of_fmap.
        apply elem_of_map_to_list, map_lookup_filter_Some in Hin as [Hk Hs]. simpl in *.
        simplify_eq. by rewrite Hstale in Hs.
  - rewrite decide_False.
    + symmetry. apply map_lookup_filter_None. by left.
    + intros ([k c'] & -> & Hin)%list_elem_of_fmap.
      apply elem_of_map_to_list, map_lookup_filter_Some in Hin as [Hk Hs]. simpl in *.
      simplify_eq.
Qed.

Lemma is_stale_fields invi_msg_id (c : ConnRecord.t) :
  is_stale invi_msg_id c ↔
  ConnRecord.invitation_msg_id c = Some invi_msg_id
  ∧ ConnRecord.invitation_mode c = ConnRecord.INVITATION_MODE_ONCE
  ∧ ConnRecord.state c = "invitation".
Proof.
  unfold is_stale. rewrite !andb_True, !bool_decide_spec. tauto.
Qed.

(** X1: [delete_stale_connection_by_invitation] returns, leaves the
    [OobRecord] store alone, and deletes from the connection store exactly
    the records made for this invitation that are single-use and still in
    state [invitation]: every other record is kept as it is. *)
Theorem stale_connections_are_deleted_and_no_other (invi_msg_id : string) (w : World E) :
  let out := delete_stale_connection_by_invitation invi_msg_id w in
  out.1 = Ok tt
  ∧ oob_store out.2 = oob_store w
  ∧ ∀ id c,
      conn_store out.2 !! id = Some c ↔
      conn_store w !! id = Some c
      ∧ ¬ (ConnRecord.invitation_msg_id c = Some invi_msg_id
           ∧ ConnRecord.invitation_mode c = ConnRecord.INVITATION_MODE_ONCE
           ∧ ConnRecord.state c = "invitation").
Proof.
  simpl. rewrite delete_stale_connection_by_invitation_spec. simpl.
  split; [done|]. split; [done|]. intros id c.
  rewrite map_lookup_filter_Some. simpl. by rewrite is_stale_fields.
Qed.

(** ** The reuse handlers on a record that is found *)

Lemma OobRecord_save_stored (r : OobRecord.t) (k : string) (w : World E) :
  OobRecord.oob_id r = Some k →
  OobRecord_save r w
  = (Ok r, {| oob_store := <[k := r]> (oob_store w); conn_store := conn_store w;
              bus := bus w ++ [BusOob r]; trace := trace w ++ [EvSaveOob r];
              env := env w |}).
Proof. intros Hk. unfold OobRecord_save. rewrite Hk. run. by rewrite set_oob_id_same. Qed.

Lemma retrieve_the_record_of_thread thread k r (w : World E) :
  the_record_of_thread thread k r (oob_store w) →
  OobRecord_retrieve_by_tag_filter
    (λ r, bool_decide (OobRecord.invi_msg_id r = pthid thread)
          && bool_decide (OobRecord.reuse_msg_id r = Some (thid thread))) w
  = (Ok r, w).
Proof.
  intros (Hk & _ & Hinvi & Hreuse & Huniq).
  apply (OobRecord_retrieve_by_tag_filter_unique _ w k r); [done|..].
  - by rewrite Hinvi, Hreuse, !bool_decide_eq_true_2.
  - intros k' r' Hk' Htags. apply andb_true_iff in Htags as [H1 H2].
    apply bool_decide_eq_true in H1. apply bool_decide_eq_true in H2. by eapply Huniq.
Qed.

Lemma retrieve_no_record_of_thread thread (w : World E) :
  no_record_of_thread thread (oob_store w) →
  OobRecord_retrieve_by_tag_filter
    (λ r, bool_decide (OobRecord.invi_msg_id r = pthid thread)
          && bool_decide (OobRecord.reuse_msg_id r = Some (thid thread))) w
  = (Raise StorageNotFoundError, w).
Proof.
  intros Hnone. apply OobRecord_retrieve_by_tag_filter_none. intros k r Hk.
  apply andb_false_iff.
  destruct (decide (OobRecord.invi_msg_id r = pthid thread)) as [Hi|Hi].
  - right. apply bool_decide_eq_false_2. intros Hs. by apply (Hnone k r Hk).
  - left. by apply bool_decide_eq_false_2.
Qed.

(** A handler that rewrites the state of the record keeps it the record of
    its thread. *)
Lemma the_record_of_thread_set_state thread k r s (store : gmap string OobRecord.t) :
  the_record_of_thread thread k r store →
  the_record_of_thread thread k (OobRecord.set_state s r)
    (<[k := OobRecord.set_state s r]> store).
Proof.
  intros (Hk & Hid & Hinvi & Hreuse & Huniq). repeat split; try done.
  - apply lookup_insert_eq.
  - intros k' r' Hk' Hi Hr. destruct (decide (k' = k)) as [->|Hne]; [done|].
    rewrite lookup_insert_ne in Hk' by done. by eapply Huniq.
Qed.

Lemma receive_reuse_accepted_message_found msg receipt conn_record thread k r (w : World E) :
  _thread msg = Some thread →
  the_record_of_thread thread k r (oob_store w) →
  ∃ cid e,
    let c' := ConnRecord.set_connection_id (Some cid)
                (ConnRecord.set_invitation_msg_id (Some (pthid thread)) conn_record) in
    let r' := OobRecord.set_state OobRecord.STATE_ACCEPTED r in
    receive_reuse_accepted_message msg receipt conn_record w
    = (Ok tt, {| oob_store := <[k := r']> (oob_store w);
                 conn_store := <[cid := c']> (conn_store w);
                 bus := bus w ++ [BusConn c'; BusOob r'];
                 trace := trace w ++
                   [EvSaveConn c'; EvSaveOob r';
                    EvNotify REUSE_ACCEPTED_WEBHOOK_TOPIC
                      [("thread_id", PyStr (thid thread));
                       ("connection_id", PyStr cid);
                       ("state", PyStr "accepted");
                       ("comment", PyStr (reuse_comment (Some cid) (pthid thread)))]];
                 env := e |})
    ∧ (∀ id', ConnRecord.connection_id conn_record = Some id' → id' = cid).
Proof.
  intros Hthread Hrec.
  unfold receive_reuse_accepted_message, thread_of, try_except. rewrite Hthread. run.
  rewrite (retrieve_the_record_of_thread thread k r w Hrec). run.
  destruct (ConnRecord_save_run
              (ConnRecord.set_invitation_msg_id (Some (pthid thread)) conn_record) w)
    as (cid & e & Hconn & Hcid).
  simpl in Hconn. rewrite Hconn. run.
  destruct Hrec as (_ & Hid & _).
  rewrite (OobRecord_save_stored _ k) by done. unfold notify. run.
  exists cid, e. split; [|exact Hcid]. by rewrite <-!(assoc_L (++)%list).
Qed.

Lemma receive_problem_report_found msg receipt conn_record thread k r (w : World E) :
  _thread msg = Some thread →
  the_record_of_thread thread k r (oob_store w) →
  let r' := OobRecord.set_state OobRecord.STATE_NOT_ACCEPTED r in
  receive_problem_report msg receipt conn_record w
  = (Ok tt, {| oob_store := <[k := r']> (oob_store w); conn_store := conn_store w;
               bus := bus w ++ [BusOob r']; trace := trace w ++ [EvSaveOob r'];
               env := env w |}).
Proof.
  intros Hthread Hrec.
  unfold receive_problem_report, thread_of, try_except. rewrite Hthread. run.
  rewrite (retrieve_the_record_of_thread thread k r w Hrec). run.
  destruct Hrec as (_ & Hid & _).
  by rewrite (OobRecord_save_stored _ k) by done.
Qed.

(** X2: a problem report whose thread has one record stores that record as
    NOT_ACCEPTED with every other field as it was (the connection id
    included), whatever state the record was in.  It touches no connection
    record; its whole effect log is the one save, so it emits no notification
    and sends nothing. *)
Theorem problem_report_rejects_silently
    (problem_report : AgentMessage) (receipt : MessageReceipt) (conn_record : ConnRecord.t)
    (thread : Thread) (k : string) (r : OobRecord.t) (w : World E) :
  _thread problem_report = Some thread →
  the_record_of_thread thread k r (oob_store w) →
  ∃ w',
    receive_problem_report problem_report receipt conn_record w = (Ok tt, w')
    ∧ oob_store w' = <[k := OobRecord.set_state OobRecord.STATE_NOT_ACCEPTED r]> (oob_store w)
    ∧ conn_store w' = conn_store w
    ∧ trace w' = (trace w ++ [EvSaveOob (OobRecord.set_state OobRecord.STATE_NOT_ACCEPTED r)])%list.
Proof.
  intros Hthread Hrec. eexists. split.
  - by apply (receive_problem_report_found _ _ _ thread k r).
  - done.
Qed.

(** X3: a reuse-accept whose thread has one record stores that record as
    ACCEPTED, whatever state it was in and with every other field as it was,
    and saves the connection it arrived on with the invitation's id as its
    [invitation_msg_id]. *)
Theorem reuse_accept_binds_connection_to_invitation
    (reuse_accepted_msg : AgentMessage) (receipt : MessageReceipt) (conn_record : ConnRecord.t)
    (thread : Thread) (k : string) (r : OobRecord.t) (w : World E) :
  _thread reuse_accepted_msg = Some thread →
  the_record_of_thread thread k r (oob_store w) →
  ∃ w' cid,
    receive_reuse_accepted_message reuse_accepted_msg receipt conn_record w = (Ok tt, w')
    ∧ oob_store w' = <[k := OobRecord.set_state OobRecord.STATE_ACCEPTED r]> (oob_store w)
    ∧ conn_store w' =
        <[cid := ConnRecord.set_connection_id (Some cid)
                   (ConnRecord.set_invitation_msg_id (Some (pthid thread)) conn_record)]>
          (conn_store w)
    ∧ (∀ id', ConnRecord.connection_id conn_record = Some id' → id' = cid).
Proof.
  intros Hthread Hrec.
  destruct (receive_reuse_accepted_message_found reuse_accepted_msg receipt conn_record
              thread k r w Hthread Hrec) as (cid & e & Hrun & Hcid).
  eexists _, cid. split; [exact Hrun|]. simpl. repeat split; done.
Qed.

(** X4: the two answers have no guard on the current state, so the one that
    is handled last decides: a problem report after a reuse-accept leaves
    the record NOT_ACCEPTED, and a reuse-accept after a problem report
    leaves it ACCEPTED. *)
Theorem last_reuse_answer_wins
    (reuse_accepted_msg problem_report : AgentMessage) (receipt : MessageReceipt)
    (conn_record : ConnRecord.t) (thread : Thread) (k : string) (r : OobRecord.t)
    (w : World E) :
  _thread reuse_accepted_msg = Some thread →
  _thread problem_report = Some thread →
  the_record_of_thread thread k r (oob_store w) →
  (∃ w1 w2,
     receive_reuse_accepted_message reuse_accepted_msg receipt conn_record w = (Ok tt, w1)
     ∧ receive_problem_report problem_report receipt conn_record w1 = (Ok tt, w2)
     ∧ stored_state k w2 = Some OobRecord.STATE_NOT_ACCEPTED)
  ∧ (∃ w1 w2,
       receive_problem_report problem_report receipt conn_record w = (Ok tt, w1)
       ∧ receive_reuse_accepted_message reuse_accepted_msg receipt conn_record w1 = (Ok tt, w2)
       ∧ stored_state k w2 = Some OobRecord.STATE_ACCEPTED).
Proof.
  intros Ha Hp Hrec. split.
  - destruct (receive_reuse_accepted_message_found reuse_accepted_msg receipt conn_record
                thread k r w Ha Hrec) as (cid & e & Hrun & _).
    eexists _, _. split; [exact Hrun|]. split.
    + apply (receive_problem_report_found _ _ _ thread k
               (OobRecord.set_state OobRecord.STATE_ACCEPTED r)); [done|].
      by apply the_record_of_thread_set_state.
    + unfold stored_state. simpl. by rewrite lookup_insert_eq.
  - pose proof (receive_problem_report_found problem_report receipt conn_record thread k r w
                  Hp Hrec) as Hreport.
    simpl in Hreport. set (w1 := {| oob_store := _ |}) in Hreport.
    destruct (receive_reuse_accepted_message_found reuse_accepted_msg receipt conn_record
                thread k (OobRecord.set_state OobRecord.STATE_NOT_ACCEPTED r) w1 Ha)
      as (cid & e & Hrun & _).
    { by apply the_record_of_thread_set_state. }
    eexists _, _. split; [exact Hreport|]. split; [exact Hrun|].
    unfold stored_state. simpl. by rewrite lookup_insert_eq.
Qed.

(** ** Failures of the answer handlers *)

(** X5: [receive_reuse_accepted_message] and [receive_problem_report] let no
    exception of their body out as it is: whatever they raise for a message
    with a thread decorator is an [OutOfBandManagerError] that names the
    invitation and carries the cause.  For a thread that no record belongs
    to the cause is [StorageNotFoundError] and both stores are as they were.
    A message without a thread decorator fails before that, with an
    [AttributeError], in the world the call started in; so does
    [receive_reuse_message]. *)
Theorem reuse_answers_wrap_every_failure :
  (∀ msg receipt conn thread (w : World E),
     _thread msg = Some thread →
     let out := receive_reuse_accepted_message msg receipt conn w in
     (∀ err, out.1 = Raise err →
             ∃ cause, err = OutOfBandManagerError
                              (ErrorProcessingReuseAccepted (pthid thread) cause))
     ∧ (no_record_of_thread thread (oob_store w) →
        out.1 = Raise (OutOfBandManagerError
                         (ErrorProcessingReuseAccepted (pthid thread) StorageNotFoundError))
        ∧ oob_store out.2 = oob_store w ∧ conn_store out.2 = conn_store w))
  ∧ (∀ msg receipt conn thread (w : World E),
       _thread msg = Some thread →
       let out := receive_problem_report msg receipt conn w in
       (∀ err, out.1 = Raise err →
               ∃ cause, err = OutOfBandManagerError
                                (ErrorProcessingProblemReport (pthid thread) cause))
       ∧ (no_record_of_thread thread (oob_store w) →
          out = (Raise (OutOfBandManagerError
                          (ErrorProcessingProblemReport (pthid thread) StorageNotFoundError)),
                 w)))
  ∧ (∀ msg receipt conn (w : World E),
       _thread msg = None →
       receive_reuse_accepted_message msg receipt conn w = (Raise (AttributeError "_thread"), w)
       ∧ receive_problem_report msg receipt conn w = (Raise (AttributeError "_thread"), w)
       ∧ receive_reuse_message msg receipt conn w = (Raise (AttributeError "_thread"), w)).
Proof.
  split; [|split].
  - intros msg receipt conn thread w Hthread.
    unfold receive_reuse_accepted_message, thread_of, try_except. rewrite Hthread. split.
    + intros err. run.
      match goal with
      | |- context [OobRecord_retrieve_by_tag_filter ?tags ?x] =>
          destruct (OobRecord_retrieve_by_tag_filter_run tags x) as ([found|cause] & ->)
      end; run.
      * match goal with
        | |- context [ConnRecord_save ?x ?y] =>
            destruct (ConnRecord_save_run x y) as (cid & e1 & -> & _)
        end. run.
        match goal with
        | |- context [OobRecord_save ?x ?y] =>
            destruct (OobRecord_save_run x y) as (k & e2 & -> & _)
        end. run. unfold notify. by run.
      * unfold notify. run. intros [= <-]. by exists cause.
    + intros Hnone. run.
      rewrite (retrieve_no_record_of_thread thread w Hnone). unfold notify. by run.
  - intros msg receipt conn thread w Hthread.
    unfold receive_problem_report, thread_of, try_except. rewrite Hthread. split.
    + intros err. run.
      match goal with
      | |- context [OobRecord_retrieve_by_tag_filter ?tags ?x] =>
          destruct (OobRecord_retrieve_by_tag_filter_run tags x) as ([found|cause] & ->)
      end; run.
      * match goal with
        | |- context [OobRecord_save ?x ?y] =>
            destruct (OobRecord_save_run x y) as (k & e2 & -> & _)
        end. by run.
      * intros [= <-]. by exists cause.
    + intros Hnone. run.
      by rewrite (retrieve_no_record_of_thread thread w Hnone).
  - intros msg receipt conn w Hthread.
    unfold receive_reuse_accepted_message, receive_problem_report, receive_reuse_message,
      thread_of.
    by rewrite Hthread.
Qed.

(** ** The inviter's side of a reuse *)

Lemma OobRecord_retrieve_by_tag_filter_Ok tags (w w1 : World E) (r : OobRecord.t) :
  OobRecord_retrieve_by_tag_filter tags w = (Ok r, w1) →
  w1 = w ∧ ∃ k, oob_store w !! k = Some r ∧ tags r = true.
Proof.
  unfold OobRecord_retrieve_by_tag_filter. run.
  destruct (map_to_list _) as [|[k r0] [|]] eqn:Hl; run; intros [= <- <-].
  split; [done|]. exists k.
  assert ((k, r0) ∈ map_to_list (filter (λ kv, tags kv.2) (oob_store w))) as Hin.
  { rewrite Hl. apply elem_of_cons. by left. }
  apply elem_of_map_to_list, map_lookup_filter_Some in Hin as [Hk Htags].
  split; [done|]. simpl in Htags. by destruct (tags r0).
Qed.

Lemma sent_messages_app (t1 t2 : list Effect) :
  sent_messages (t1 ++ t2) = (sent_messages t1 ++ sent_messages t2)%list.
Proof. apply omap_app. Qed.

Lemma receive_reuse_message_Ok reuse_msg receipt conn_rec (w w' : World E) :
  receive_reuse_message reuse_msg receipt conn_rec w = (Ok tt, w') →
  ∃ thread found k accept targets cid t,
    _thread reuse_msg = Some thread
    ∧ (∃ k0, oob_store w !! k0 = Some found)
    ∧ OobRecord.invi_msg_id found = pthid thread
    ∧ OobRecord.state found = OobRecord.STATE_AWAIT_RESPONSE
    ∧ (∀ id', OobRecord.oob_id found = Some id' → id' = k)
    ∧ oob_store w' =
        <[k := OobRecord.set_oob_id (Some k)
                 (OobRecord.set_connection_id (ConnRecord.connection_id conn_rec)
                    (OobRecord.set_reuse_msg_id (Some (thid thread))
                       (OobRecord.set_state OobRecord.STATE_ACCEPTED found)))]> (oob_store w)
    ∧ conn_store w' =
        filter (λ kv, ¬ is_stale (pthid thread) kv.2)
          (<[cid := ConnRecord.set_connection_id (Some cid)
                      (ConnRecord.set_invitation_msg_id (Some (pthid thread)) conn_rec)]>
             (conn_store w))
    ∧ (∀ id', ConnRecord.connection_id conn_rec = Some id' → id' = cid)
    ∧ trace w' = (trace w ++ t)%list
    ∧ sent_messages t = [(OutReuseAccept accept, ToTargets targets)]
    ∧ _thread accept = Some thread.
Proof.
  unfold receive_reuse_message, thread_of, new_message.
  destruct (_thread reuse_msg) as [thread|] eqn:Hthread; run; [|done].
  unfold call at 1, total. destruct (uuid4 (env w)) as [id e1]. run.
  unfold call at 1. simpl.
  destruct (fetch_connection_targets conn_rec e1) as [[targets|err] e2]; run; [|done].
  destruct responder_present; run; [|done].
  match goal with
  | |- context [OobRecord_retrieve_by_tag_filter ?tags ?x] =>
      destruct (OobRecord_retrieve_by_tag_filter tags x) as [[found|err] w1] eqn:Hfound
  end; run; [|done].
  apply OobRecord_retrieve_by_tag_filter_Ok in Hfound as (-> & k0 & Hk0 & Htags).
  apply andb_true_iff in Htags as [Hi Hs].
  apply bool_decide_eq_true in Hi. apply bool_decide_eq_true in Hs.
  match goal with
  | |- context [OobRecord_save ?x ?y] =>
      destruct (OobRecord_save_run x y) as (k & e3 & -> & Hk)
  end. run.
  match goal with
  | |- context [ConnRecord_save ?x ?y] =>
      destruct (ConnRecord_save_run x y) as (cid & e4 & -> & Hcid)
  end. run.
  rewrite delete_stale_connection_by_invitation_spec. run.
  unfold notify, send. run. unfold call. simpl.
  destruct (responder_send _ _ _) as [[[]|err] e5]; [|done]. intros [= <-]. simpl.
  exists thread, found, k,
    {| _message_id := id;
       _thread := Some {| thid := _thread_id reuse_msg; pthid := pthid thread |} |},
    targets, cid.
  eexists. split; [done|]. split; [by exists k0|]. split; [done|]. split; [done|].
  split; [exact Hk|].
  assert (_thread_id reuse_msg = thid thread) as Hthid by (unfold _thread_id; by rewrite Hthread).
  rewrite Hthid. split; [done|]. split; [done|]. split; [exact Hcid|].
  split; [by rewrite <-!(assoc_L (++)%list)|]. split; [done|]. by destruct thread.
Qed.

(** X6: when [receive_reuse_message] returns, it has found a record of the
    invitation that awaited a response and stored it as ACCEPTED, with the
    thread id of the reuse message as its [reuse_msg_id] and the connection
    the message arrived on as its connection; the connection store holds no
    single-use record in state [invitation] for that invitation any more;
    and the one message it sent is a reuse-accept on the thread of the reuse
    message (same [thid], same [pthid]). *)
Theorem reuse_message_accepts_and_echoes_thread
    (reuse_msg : AgentMessage) (receipt : MessageReceipt) (conn_rec : ConnRecord.t)
    (w w' : World E) :
  receive_reuse_message reuse_msg receipt conn_rec w = (Ok tt, w') →
  ∃ thread k stored accept targets t,
    _thread reuse_msg = Some thread
    ∧ oob_store w' = <[k := stored]> (oob_store w)
    ∧ OobRecord.state stored = OobRecord.STATE_ACCEPTED
    ∧ OobRecord.invi_msg_id stored = pthid thread
    ∧ OobRecord.reuse_msg_id stored = Some (thid thread)
    ∧ OobRecord.connection_id stored = ConnRecord.connection_id conn_rec
    ∧ (∀ id c, conn_store w' !! id = Some c →
               ¬ (ConnRecord.invitation_msg_id c = Some (pthid thread)
                  ∧ ConnRecord.invitation_mode c = ConnRecord.INVITATION_MODE_ONCE
                  ∧ ConnRecord.state c = "invitation"))
    ∧ trace w' = (trace w ++ t)%list
    ∧ sent_messages t = [(OutReuseAccept accept, ToTargets targets)]
    ∧ _thread accept = Some thread.
Proof.
  intros (thread & found & k & accept & targets & cid & t & Hthread & _ & Hinvi & _ & _
          & Hstore & Hconn & _ & Htrace & Hsent & Haccept)%receive_reuse_message_Ok.
  eexists thread, k, _, accept, targets, t.
  split; [done|]. split; [exact Hstore|]. simpl. repeat split; try done.
  intros id c. rewrite Hconn, map_lookup_filter_Some. simpl. rewrite is_stale_fields. tauto.
Qed.

(** ** The initiating side of a reuse *)

Lemma _create_handshake_reuse_message_run oob_record conn_record (w w' : World E) res :
  _create_handshake_reuse_message oob_record conn_record w = (res, w') →
  match res with
  | Ok r1 =>
      ∃ reuse_msg targets id,
        trace w'
        = (trace w ++ [EvSend (OutReuse reuse_msg) (ToTargets targets); EvSaveOob r1])%list
        ∧ _thread reuse_msg
          = Some {| thid := _message_id reuse_msg;
                    pthid := OobRecord.invi_msg_id oob_record |}
        ∧ r1 = OobRecord.set_oob_id (Some id)
                 (OobRecord.set_state OobRecord.STATE_AWAIT_RESPONSE
                    (OobRecord.set_reuse_msg_id (Some (_message_id reuse_msg)) oob_record))
        ∧ (∀ id', OobRecord.oob_id oob_record = Some id' → id' = id)
        ∧ oob_store w' = <[id := r1]> (oob_store w)
        ∧ conn_store w' = conn_store w
  | Raise err =>
      (∃ cause, err = OutOfBandManagerError (ErrorCreatingReuse cause))
      ∧ oob_store w' = oob_store w
      ∧ conn_store w' = conn_store w
      ∧ bus w' = bus w
  end.
Proof.
  unfold _create_handshake_reuse_message, try_except, new_message. run.
  unfold call at 1, total. destruct (uuid4 (env w)) as [id e1]. run.
  unfold call at 1. simpl.
  destruct (fetch_connection_targets conn_record e1) as [[targets|err] e2]; run.
  2:{ intros [= <- <-]. eauto. }
  destruct responder_present; run.
  2:{ intros [= <- <-]. eauto. }
  unfold send. run. unfold call at 1. simpl.
  destruct (responder_send _ _ e2) as [[[]|err] e3]; run.
  2:{ intros [= <- <-]. eauto. }
  match goal with
  | |- context [OobRecord_save ?x ?y] =>
      destruct (OobRecord_save_run x y) as (k & e4 & -> & Hk)
  end. run. intros [= <- <-].
  eexists {| _message_id := id |}, targets, k. simpl.
  rewrite <-?(assoc_L (++)%list). repeat split; done.
Qed.

(** X7: [_create_handshake_reuse_message] either returns or raises an
    [OutOfBandManagerError] that carries the cause.  When it returns, its
    effect log is the reuse message handed to the responder and then the
    save; the message is its own thread ([thid] is its id) under the
    invitation ([pthid]); the saved record is the given one with that
    message id as [reuse_msg_id] and the state AWAIT_RESPONSE.  When it
    raises, both stores and the event bus are as they were. *)
Theorem reuse_message_is_sent_then_stored
    (oob_record : OobRecord.t) (conn_record : ConnRecord.t) (w : World E) :
  let out := _create_handshake_reuse_message oob_record conn_record w in
  match out.1 with
  | Ok r1 =>
      ∃ reuse_msg targets id,
        trace out.2
        = (trace w ++ [EvSend (OutReuse reuse_msg) (ToTargets targets); EvSaveOob r1])%list
        ∧ _thread reuse_msg
          = Some {| thid := _message_id reuse_msg;
                    pthid := OobRecord.invi_msg_id oob_record |}
        ∧ r1 = OobRecord.set_oob_id (Some id)
                 (OobRecord.set_state OobRecord.STATE_AWAIT_RESPONSE
                    (OobRecord.set_reuse_msg_id (Some (_message_id reuse_msg)) oob_record))
        ∧ (∀ id', OobRecord.oob_id oob_record = Some id' → id' = id)
        ∧ oob_store out.2 = <[id := r1]> (oob_store w)
  | Raise err =>
      (∃ cause, err = OutOfBandManagerError (ErrorCreatingReuse cause))
      ∧ oob_store out.2 = oob_store w
      ∧ conn_store out.2 = conn_store w
      ∧ bus out.2 = bus w
  end.
Proof.
  destruct (_create_handshake_reuse_message oob_record conn_record w) as [res w'] eqn:Hrun.
  apply _create_handshake_reuse_message_run in Hrun. simpl. destruct res as [r1|err]; [|done].
  destruct Hrun as (reuse_msg & targets & id & H1 & H2 & H3 & H4 & H5 & _).
  by exists reuse_msg, targets, id.
Qed.

(** X8: the correlation ids of a reuse line up across the two agents.  The
    reuse message that [_create_handshake_reuse_message] sends is answered by
    the inviter's [receive_reuse_message], whenever that returns, with a
    reuse-accept that the invitee's [receive_reuse_accepted_message] resolves
    to the very record the invitee stored, which ends ACCEPTED, provided no
    other record of the invitee has the same invitation and reuse message
    ids. *)
Theorem reuse_round_trip
    (oob_record : OobRecord.t) (conn_record : ConnRecord.t) (wi wi1 : World E)
    (r1 : OobRecord.t) (k : string) :
  _create_handshake_reuse_message oob_record conn_record wi = (Ok r1, wi1) →
  OobRecord.oob_id r1 = Some k →
  (∀ k' r', oob_store wi1 !! k' = Some r' →
            OobRecord.invi_msg_id r' = OobRecord.invi_msg_id r1 →
            OobRecord.reuse_msg_id r' = OobRecord.reuse_msg_id r1 → k' = k) →
  ∃ reuse_msg targets,
    sent_messages (drop (length (trace wi)) (trace wi1))
    = [(OutReuse reuse_msg, ToTargets targets)]
    ∧ ∀ receipt_v conn_v (wv wv' : World E),
        receive_reuse_message reuse_msg receipt_v conn_v wv = (Ok tt, wv') →
        ∃ accept targets_v,
          sent_messages (drop (length (trace wv)) (trace wv'))
          = [(OutReuseAccept accept, ToTargets targets_v)]
          ∧ ∀ receipt_i conn_i, ∃ wi2,
              receive_reuse_accepted_message accept receipt_i conn_i wi1 = (Ok tt, wi2)
              ∧ stored_state k wi2 = Some OobRecord.STATE_ACCEPTED.
Proof.
  intros Hcreate Hk Huniq.
  pose proof (_create_handshake_reuse_message_run _ _ _ _ _ Hcreate) as H. simpl in H.
  destruct H as (reuse_msg & targets & id & Htrace & Hthread & Hr1 & _ & Hstore & _).
  assert (id = k) as -> by (rewrite Hr1 in Hk; simpl in Hk; by injection Hk).
  exists reuse_msg, targets. split.
  { by rewrite Htrace, drop_app_length. }
  intros receipt_v conn_v wv wv'
    (thread & found & kv & accept & targets_v & cid & t & Hthread_v & _ & _ & _ & _ & _ & _ & _
     & Htrace_v & Hsent & Haccept)%receive_reuse_message_Ok.
  exists accept, targets_v. split.
  { by rewrite Htrace_v, drop_app_length. }
  intros receipt_i conn_i.
  rewrite Hthread in Hthread_v. injection Hthread_v as <-.
  destruct (receive_reuse_accepted_message_found accept receipt_i conn_i _ k r1 wi1 Haccept)
    as (cid_i & e & Hrun & _).
  - repeat split; simpl.
    + rewrite Hstore. apply lookup_insert_eq.
    + done.
    + by rewrite Hr1.
    + by rewrite Hr1.
    + intros k' r' Hk' Hi Hr. apply (Huniq k' r' Hk'); [by rewrite Hr1 | by rewrite Hr1].
  - eexists. split; [exact Hrun|]. unfold stored_state. simpl. by rewrite lookup_insert_eq.
Qed.

(** ** What the two waits can end in *)

Lemma head_omap_None {A B} (f : A → option B) (l : list A) :
  head (omap f l) = None → Forall (λ x, f x = None) l.
Proof.
  induction l as [|x l IH]; simpl; [by constructor|].
  destruct (f x) eqn:Hx; simpl; [done|]. intros H. constructor; [done | by apply IH].
Qed.

Lemma connection_ready_event_Some connection_id (b : BusEvent) (c : ConnRecord.t) :
  connection_ready_event connection_id b = Some c →
  ConnRecord.state c ∈ ["active"; "completed"; "response"]
  ∧ ConnRecord.connection_id c = connection_id.
Proof.
  destruct b as [r|c0]; simpl; [done|].
  destruct (bool_decide _ && bool_decide _) eqn:Hb; [|done].
  intros [= ->]. apply andb_true_iff in Hb as [H1 H2].
  apply bool_decide_eq_true in H1. apply bool_decide_eq_true in H2. done.
Qed.

(** An effect that is not in a log that is written out. *)
Ltac absent_from_log :=
  let H := fresh in
  intros H; exfalso; simpl in H; rewrite ?elem_of_cons, ?elem_of_nil in H;
  repeat (destruct H as [H|H]; [discriminate H|]);
  first [discriminate H | destruct H].

(** X9: neither wait lets a timeout out as an exception; each raises in two
    cases only.  Without an event bus to subscribe to, the wait fails at once
    with the [InjectionError] of the injection, the timer being all it has
    logged.  With one, the reuse wait raises [StorageNotFoundError] exactly
    when the record is missing at the read it ends on (the first one, or
    after a timeout the second), and the connection wait raises
    [StorageNotFoundError] exactly when the connection record is missing at
    its first read. *)
Theorem event_waits_raise_without_bus_or_record :
  (∀ oob_id timeout (w : World E),
     let out := _wait_for_reuse_response oob_id timeout w in
     match out.1 with
     | Raise err =>
         (event_bus_present = false ∧ err = InjectionError
          ∧ out.2 = set_trace (trace w ++ [EvWaitFor timeout]) w)
         ∨ (event_bus_present = true ∧ err = StorageNotFoundError
            ∧ oob_id ≫= (oob_store out.2 !!.) = None)
     | Ok _ => event_bus_present = true
     end)
  ∧ (∀ connection_id timeout (w : World E),
       let w1 := at_read CONNECTION_READY_EVENT connection_id timeout w in
       let out := _wait_for_conn_rec_active connection_id timeout w in
       match out.1 with
       | Raise err =>
           (event_bus_present = false ∧ err = InjectionError
            ∧ out.2 = set_trace (trace w ++ [EvWaitFor timeout]) w)
           ∨ (event_bus_present = true ∧ err = StorageNotFoundError
              ∧ connection_id ≫= (conn_store w1 !!.) = None)
       | Ok _ => event_bus_present = true ∧ is_Some (connection_id ≫= (conn_store w1 !!.))
       end).
Proof.
  split.
  - intros oob_id timeout w out. subst out. destruct event_bus_present eqn:Hbus.
    2:{ rewrite _wait_for_reuse_response_no_bus by done. simpl. by left. }
    rewrite _wait_for_reuse_response_run by done. cbv zeta.
    set (w1 := at_read _ _ _ _) in *.
    destruct (oob_id ≫= (oob_store w1 !!.)) as [r|] eqn:Hr; simpl; [|by right].
    case_bool_decide; simpl; [done|].
    destruct (head _) as [payload|]; simpl; [done|].
    set (w3 := (suspend _).2).
    destruct (oob_id ≫= (oob_store w3 !!.)) as [r'|] eqn:Hr'; simpl; [done | by right].
  - intros connection_id timeout w w1 out. subst out. destruct event_bus_present eqn:Hbus.
    2:{ rewrite _wait_for_conn_rec_active_no_bus by done. simpl. by left. }
    rewrite _wait_for_conn_rec_active_run by done. cbv zeta.
    fold w1. destruct (connection_id ≫= (conn_store w1 !!.)) as [c|]; simpl; [|by right].
    destruct (is_ready c); simpl; [by split; [|eexists]|].
    destruct (head _) as [payload|]; simpl; by split; [|eexists].
Qed.

(** X10: a connection wait that runs out of time has missed nothing.  The
    connection wait returns [None] exactly when it timed out, and then no
    ready event of the awaited connection is on the bus after the place the
    call started at; a record it returns was ready at the read or is the
    payload of such an event.  A reuse wait that did not time out returns a
    record in state ACCEPTED or NOT_ACCEPTED. *)
Theorem connection_wait_times_out_only_without_event :
  (∀ connection_id timeout (w : World E) rest,
     let out := _wait_for_conn_rec_active connection_id timeout w in
     trace out.2 = (trace w ++ rest)%list →
     (out.1 = Ok None ↔ EvTimeout ∈ rest)
     ∧ (EvTimeout ∈ rest →
        Forall (λ b, connection_ready_event connection_id b = None)
          (drop (length (bus w)) (bus out.2)))
     ∧ (∀ c, out.1 = Ok (Some c) →
             is_ready c = true
             ∨ (ConnRecord.state c ∈ ["active"; "completed"; "response"]
                ∧ ConnRecord.connection_id c = connection_id)))
  ∧ (∀ oob_id timeout (w : World E) rest,
       let out := _wait_for_reuse_response oob_id timeout w in
       trace out.2 = (trace w ++ rest)%list →
       EvTimeout ∉ rest → ∀ r, out.1 = Ok r → reuse_answered (OobRecord.state r)).
Proof.
  split.
  - intros connection_id timeout w rest out. subst out. destruct event_bus_present eqn:Hbus.
    2:{ rewrite _wait_for_conn_rec_active_no_bus by done. simpl.
        intros <-%(inj (app (trace w))).
        split; [split; [done | absent_from_log]|]. split; [absent_from_log | done]. }
    rewrite _wait_for_conn_rec_active_run by done. cbv zeta.
    pose proof (at_read_trace CONNECTION_READY_EVENT connection_id timeout w) as Hw1.
    set (w1 := at_read _ _ _ _) in *.
    destruct (connection_id ≫= (conn_store w1 !!.)) as [c|]; simpl.
    2:{ rewrite Hw1, <-(assoc_L (++)%list). intros <-%(inj (app (trace w))).
        split; [split; [done | absent_from_log]|]. split; [absent_from_log | done]. }
    destruct (is_ready c) eqn:Hready; simpl.
    { rewrite Hw1, <-(assoc_L (++)%list). intros <-%(inj (app (trace w))).
      split; [split; [done | absent_from_log]|]. split; [absent_from_log|].
      intros c' [= <-]. by left. }
    set (w2 := (suspend _).2).
    assert (trace w2 = (trace w ++ [EvWaitFor timeout;
                                    EvSubscribe CONNECTION_READY_EVENT connection_id;
                                    EvRetrieveConn connection_id; EvAwaitEvent])%list) as Hw2.
    { unfold w2. rewrite suspend_trace. simpl. rewrite Hw1. by rewrite <-!(assoc_L (++)%list). }
    destruct (head _) as [payload|] eqn:Hhead; simpl.
    { rewrite Hw2. intros <-%(inj (app (trace w))).
      split; [split; [done | absent_from_log]|]. split; [absent_from_log|].
      intros c' [= <-]. right. apply head_omap_Some in Hhead as (b & _ & Hb).
      by apply connection_ready_event_Some in Hb. }
    apply head_omap_None in Hhead.
    rewrite Hw2, <-(assoc_L (++)%list). intros <-%(inj (app (trace w))). simpl.
    rewrite ?elem_of_cons. split; [split; [tauto | done]|]. split; [done|]. done.
  - intros oob_id timeout w rest out. subst out. destruct event_bus_present eqn:Hbus.
    2:{ by rewrite _wait_for_reuse_response_no_bus by done. }
    rewrite _wait_for_reuse_response_run by done. cbv zeta.
    pose proof (at_read_trace OOB_REUSE_RESPONSE_STATE oob_id timeout w) as Hw1.
    set (w1 := at_read _ _ _ _) in *.
    destruct (oob_id ≫= (oob_store w1 !!.)) as [r|]; simpl; [|done].
    case_bool_decide as Hans; simpl; [by intros _ _ r' [= <-]|].
    set (w2 := (suspend _).2).
    assert (trace w2 = (trace w ++ [EvWaitFor timeout;
                                    EvSubscribe OOB_REUSE_RESPONSE_STATE oob_id;
                                    EvRetrieveOob oob_id; EvAwaitEvent])%list) as Hw2.
    { unfold w2. rewrite suspend_trace. simpl. rewrite Hw1. by rewrite <-!(assoc_L (++)%list). }
    destruct (head _) as [payload|] eqn:Hhead; simpl.
    { intros _ _ r' [= <-]. apply head_omap_Some in Hhead as (b & _ & Hb).
      by apply reuse_response_event_Some in Hb as [? _]. }
    set (w3 := (suspend _).2).
    assert (trace w3 = (trace w2 ++ [EvTimeout])%list) as Hw3.
    { unfold w3. by rewrite suspend_trace. }
    destruct (oob_id ≫= (oob_store w3 !!.)) as [r'|]; simpl;
      rewrite Hw3, Hw2, <-!(assoc_L (++)%list); intros <-%(inj (app (trace w)));
      intros Hno; exfalso; apply Hno; simpl; rewrite ?elem_of_cons; tauto.
Qed.

(** ** A reuse inside [receive_invitation] *)

Lemma omap_none_of {A B} (P : A → Prop) (f : A → option B) (l : list A) :
  (∀ x, P x → f x = None) → Forall P l → omap f l = [].
Proof.
  intros HP Hl. induction Hl as [|x l Hx _ IH]; simpl; [done|]. by rewrite (HP x Hx).
Qed.

Lemma before_connecting_handshakes (t : list Effect) :
  Forall before_connecting t → handshakes t = [].
Proof. apply omap_none_of. by intros []. Qed.

Lemma before_connecting_created_keys (t : list Effect) :
  Forall before_connecting t → created_keys t = [].
Proof. apply omap_none_of. by intros []. Qed.

(** What a part of [receive_invitation] logs, by the kinds of its effects. *)
Lemma logs_begin_kinds (P : Effect → Prop) invitation use_existing_connection mediation_id :
  (∀ r, P (EvSaveOob r)) →
  always (logs P)
    (receive_invitation_begin (E:=E) invitation use_existing_connection mediation_id).
Proof.
  intros Hsave. unfold receive_invitation_begin.
  repeat (always_step || logs_prim || (apply logs_save; exact Hsave)).
Qed.

Lemma logs_create_reuse_kinds (P : Effect → Prop) oob_record conn_record :
  (∀ m dest, P (EvSend m dest)) → (∀ r, P (EvSaveOob r)) →
  always (logs P) (_create_handshake_reuse_message (E:=E) oob_record conn_record).
Proof.
  intros Hsend Hsave. unfold _create_handshake_reuse_message, new_message, send.
  repeat (always_step || logs_prim || (apply logs_save; exact Hsave)
          || (apply logs_emit; apply Hsend)).
Qed.

(** X11: a reuse that ends ACCEPTED is silent on the initiating side.  The
    task of [_handle_hanshake_reuse] emits no notification and saves the
    record once only, before it waits, as AWAIT_RESPONSE with the id of the
    reuse message: the ACCEPTED state it returns was written by the handler
    of the answer, not by the task itself. *)
Theorem accepted_reuse_is_silent_on_the_initiating_side
    (oob_record : OobRecord.t) (conn_record : ConnRecord.t) (w w' : World E)
    (r : OobRecord.t) :
  _handle_hanshake_reuse oob_record conn_record w = (Ok r, w') →
  OobRecord.state r = OobRecord.STATE_ACCEPTED →
  ∃ t r1,
    trace w' = (trace w ++ t)%list
    ∧ notifications t = []
    ∧ saved_oob t = [r1]
    ∧ OobRecord.state r1 = OobRecord.STATE_AWAIT_RESPONSE
    ∧ is_Some (OobRecord.reuse_msg_id r1)
    ∧ _wait_for_reuse_response (OobRecord.oob_id r1) reuse_response_timeout
        (_create_handshake_reuse_message oob_record conn_record w).2 = (Ok r, w').
Proof.
  unfold _handle_hanshake_reuse.
  intros (r1 & w1 & Hcreate & H)%bind_Ok Hstate.
  apply bind_Ok in H as (r2 & w2 & Hwait & H).
  case_bool_decide as Hacc.
  { apply bind_Ok in H as ([] & w3 & _ & H).
    apply bind_Ok in H as (r3 & w4 & Hsave & [= <- <-]).
    apply OobRecord_save_Ok in Hsave as (k & -> & _). by destruct Hacc. }
  injection H as <- <-.
  pose proof (_create_handshake_reuse_message_run _ _ _ _ _ Hcreate) as Hc. simpl in Hc.
  destruct Hc as (reuse_msg & targets & id & Ht1 & _ & Hr1 & _).
  destruct (reuse_wait_subscribes_then_reads (OobRecord.oob_id r1) reuse_response_timeout w1
              (_wait_for_reuse_response_bus _ _ _ _ _ Hwait))
    as [(rest & Ht2 & Hs2 & Hn2 & _) _].
  simpl in Ht2. rewrite Hwait in Ht2. simpl in Ht2.
  eexists _, r1. split.
  { rewrite Ht2, Ht1, <-(assoc_L (++)%list). reflexivity. }
  rewrite Hcreate. simpl.
  unfold notifications, saved_oob in *. simpl. rewrite Hn2, Hs2.
  repeat split; [by rewrite Hr1 | by rewrite Hr1 | done].
Qed.

(** X12: when the reuse message cannot be created or sent,
    [receive_invitation] fails with that [OutOfBandManagerError] and does
    not fall back on a new handshake: its effect log has no handshake and no
    notification, and the receiver record saved at the start is still in the
    store, in state INITIAL. *)
Theorem failed_reuse_send_aborts_receive_invitation
    (invitation : InvitationMessage.t) (use_existing_connection : bool)
    (auto_accept : option bool) (alias mediation_id mediation_id' : option string)
    (r0 : OobRecord.t) (c0 : option ConnRecord.t) (found : ConnRecord.t) (err : Error)
    (w w0 w1 : World E) :
  receive_invitation_begin invitation use_existing_connection mediation_id w
    = (Ok (mediation_id', r0, c0), w0) →
  reuse_candidate invitation c0 = Some found →
  _create_handshake_reuse_message r0 found w0 = (Raise err, w1) →
  receive_invitation invitation use_existing_connection auto_accept alias mediation_id w
    = (Raise err, w1)
  ∧ (∃ cause, err = OutOfBandManagerError (ErrorCreatingReuse cause))
  ∧ (∃ t, trace w1 = (trace w ++ t)%list ∧ handshakes t = [] ∧ notifications t = [])
  ∧ ∃ id, OobRecord.oob_id r0 = Some id
          ∧ oob_store w1 !! id = Some r0
          ∧ OobRecord.state r0 = OobRecord.STATE_INITIAL.
Proof.
  intros Hbegin Hcand Hcreate. split; [|split; [|split]].
  - unfold receive_invitation. rewrite run_bind, Hbegin. simpl. rewrite Hcand.
    unfold _handle_hanshake_reuse. by rewrite !run_bind, Hcreate.
  - by destruct (_create_handshake_reuse_message_run _ _ _ _ _ Hcreate) as [? _].
  - set (P := λ ev, before_connecting ev ∧ not_a_notification ev).
    assert (logs P w w1) as (t & Ht & HP).
    { etrans.
      - eapply always_run; [|exact Hbegin]. by apply logs_begin_kinds.
      - eapply always_run; [|exact Hcreate]. by apply logs_create_reuse_kinds. }
    exists t. split; [done|]. split.
    + apply before_connecting_handshakes. eapply Forall_impl; [exact HP|]. by intros ? [].
    + apply quiet_notifications. eapply Forall_impl; [exact HP|]. by intros ? [].
  - apply receive_invitation_begin_Ok in Hbegin as (Hstate & _ & id & Hid & Hstored).
    destruct (_create_handshake_reuse_message_run _ _ _ _ _ Hcreate) as (_ & Hstore & _).
    exists id. by rewrite Hstore.
Qed.

(** ** One handshake *)

(** X13: [_perform_handshake] starts at most one handshake and has no
    fallback.  When it returns, it has started exactly one, with the first
    supported protocol in the order of the invitation, and then saved the
    record once, bound to the connection that handshake gave and in the
    state it had.  When it raises, it has saved nothing and the [OobRecord]
    store is as it was; if a handshake was started, it was that first
    supported protocol, and no other protocol was tried after its failure. *)
Theorem handshake_is_started_once_without_fallback
    (oob_record : OobRecord.t) (alias : option string) (auto_accept : option bool)
    (mediation_id : option string) (w : World E) :
  let listed := InvitationMessage.handshake_protocols (OobRecord.invitation oob_record) in
  let out := _perform_handshake oob_record alias auto_accept mediation_id w in
  ∃ t, trace out.2 = (trace w ++ t)%list
       ∧ match out.1 with
         | Ok r =>
             ∃ protocol,
               first_supported listed = Some protocol
               ∧ handshakes t = [protocol]
               ∧ saved_oob t = [r]
               ∧ OobRecord.state r = OobRecord.state oob_record
               ∧ (∃ id, OobRecord.oob_id r = Some id ∧ oob_store out.2 !! id = Some r)
         | Raise err =>
             saved_oob t = []
             ∧ oob_store out.2 = oob_store w
             ∧ (handshakes t = []
                ∨ ∃ protocol, first_supported listed = Some protocol
                              ∧ handshakes t = [protocol])
         end.
Proof.
  intros listed out. subst out.
  destruct (_perform_handshake oob_record alias auto_accept mediation_id w) as [res w'] eqn:Hrun.
  apply _perform_handshake_run in Hrun. simpl in *. destruct res as [r|err].
  - destruct Hrun as (protocol & c & id & Hfirst & Ht & Hr & _ & Hstore & _).
    eexists. split; [exact Ht|]. exists protocol. repeat split; try done.
    + by rewrite Hr.
    + exists id. rewrite Hstore, lookup_insert_eq. by rewrite Hr.
  - destruct Hrun as (Ho & _ & _ & [Ht|(protocol & Hfirst & Ht)]).
    + exists []. rewrite app_nil_r. repeat split; try done. by left.
    + eexists. split; [exact Ht|]. repeat split; try done. right. by exists protocol.
Qed.

(** ** [receive_invitation], part by part *)

Lemma receive_invitation_begin_run invitation use_existing_connection mediation_id
    (w w0 : World E) res :
  receive_invitation_begin invitation use_existing_connection mediation_id w = (res, w0) →
  match res with
  | Ok (mediation_id', r0, c0) =>
      ∃ id,
        r0 = {| OobRecord.oob_id := Some id;
                OobRecord.role := OobRecord.ROLE_RECEIVER;
                OobRecord.state := OobRecord.STATE_INITIAL;
                OobRecord.invi_msg_id := InvitationMessage._id invitation;
                OobRecord.reuse_msg_id := None;
                OobRecord.connection_id := c0 ≫= ConnRecord.connection_id;
                OobRecord.invitation := invitation;
                OobRecord.our_recipient_key := None |}
        ∧ oob_store w0 = <[id := r0]> (oob_store w)
        ∧ conn_store w0 = conn_store w
        ∧ trace w0 = (trace w ++ [EvSaveOob r0])%list
        ∧ length (InvitationMessage.services invitation) = 1%nat
        ∧ (InvitationMessage.requests_attach invitation ≠ []
           ∨ InvitationMessage.handshake_protocols invitation ≠ [])
        ∧ (use_existing_connection = false
           ∨ (∃ service rest, InvitationMessage.services invitation = ServiceBlock service :: rest)
           → c0 = None)
  | Raise err =>
      untouched w w0
      ∧ ((length (InvitationMessage.services invitation) ≠ 1%nat
          ∧ err = OutOfBandManagerError ServiceArrayNotOne)
         ∨ (length (InvitationMessage.services invitation) = 1%nat
            ∧ InvitationMessage.requests_attach invitation = []
            ∧ InvitationMessage.handshake_protocols invitation = []
            ∧ err = OutOfBandManagerError MustSpecifyHandshakeOrAttach)
         ∨ (truthy mediation_id = true
            ∧ (mediation_record_if_id mediation_id false (env w)).1 = Raise err
            ∧ err ≠ StorageNotFoundError)
         ∨ (length (InvitationMessage.services invitation) = 1%nat
            ∧ (InvitationMessage.requests_attach invitation ≠ []
               ∨ InvitationMessage.handshake_protocols invitation ≠ [])
            ∧ ∃ public_did e, (find_existing_connection public_did e).1 = Raise err))
  end.
Proof.
  unfold receive_invitation_begin. rewrite run_bind.
  assert (∃ res1 e,
            (if truthy mediation_id
             then except_not_found
                    (call (mediation_record_if_id mediation_id false);; mret mediation_id)
                    (mret None)
             else mret mediation_id) w = (res1, set_env e w)
            ∧ ∀ err, res1 = Raise err →
                     truthy mediation_id = true
                     ∧ (mediation_record_if_id mediation_id false (env w)).1 = Raise err
                     ∧ err ≠ StorageNotFoundError) as (res1 & e & -> & Hres1).
  { destruct (truthy mediation_id).
    2:{ exists (Ok mediation_id), (env w). split; [by destruct w | done]. }
    unfold except_not_found. rewrite run_bind. unfold call.
    destruct (mediation_record_if_id mediation_id false (env w)) as [[found|err] e]; simpl.
    - exists (Ok mediation_id), e. done.
    - destruct err; simpl;
        try (eexists (Raise _), e; split; [done|]; by intros ? [= <-]).
      exists (Ok None), e. done. }
  assert (untouched w (set_env e w)) as Hw1 by done.
  destruct res1 as [mediation_id'|err].
  2:{ intros [= <- <-]. split; [done|]. right. right. left. by apply Hres1. }
  case_bool_decide as Hlen; simpl.
  2:{ intros [= <- <-]. split; [done|]. by left. }
  destruct (negb _) eqn:Hempty.
  { intros [= <- <-]. split; [done|]. right. left.
    destruct (InvitationMessage.requests_attach invitation),
      (InvitationMessage.handshake_protocols invitation); done. }
  assert (InvitationMessage.requests_attach invitation ≠ []
          ∨ InvitationMessage.handshake_protocols invitation ≠ []) as Hvalid.
  { destruct (InvitationMessage.requests_attach invitation); [|by left].
    destruct (InvitationMessage.handshake_protocols invitation); [done | by right]. }
  clear Hempty.
  destruct (InvitationMessage.services invitation) as [|item [|]] eqn:Hservices; try done.
  rewrite run_bind. simpl. rewrite run_bind.
  assert (∃ res2 e2,
            match match item with
                  | ServiceDID s => Some (last_segment "" s)
                  | ServiceBlock _ => None
                  end with
            | Some public_did =>
                if use_existing_connection
                then call (find_existing_connection public_did)
                else mret None
            | None => mret None
            end (set_env e w) = (res2, set_env e2 w)
            ∧ (∀ err, res2 = Raise err →
                      ∃ public_did e0, (find_existing_connection public_did e0).1 = Raise err)
            ∧ (use_existing_connection = false
               ∨ (∃ service rest, [item] = ServiceBlock service :: rest)
               → res2 = Ok None)) as (res2 & e2 & Hfind & Herr & Hnone).
  { destruct item as [s|service]; simpl.
    2:{ exists (Ok None), e. done. }
    destruct use_existing_connection.
    2:{ exists (Ok None), e. done. }
    unfold call. simpl.
    destruct (find_existing_connection (last_segment "" s) e) as [found e2] eqn:Hf.
    exists found, e2. split; [done|]. split.
    - intros err ->. exists (last_segment "" s), e. by rewrite Hf.
    - intros [?|(? & ? & ?)]; done. }
  rewrite Hfind. clear Hfind. destruct res2 as [c0|err].
  2:{ intros [= <- <-]. split; [done|]. right. right. right. split; [done|].
      split; [done|]. by apply Herr. }
  rewrite run_bind.
  match goal with
  | |- context [OobRecord_save ?x ?y] =>
      destruct (OobRecord_save_run x y) as (id & e3 & -> & _)
  end.
  simpl. intros [= <- <-]. simpl. exists id. repeat split; try done.
  intros H. specialize (Hnone H). by injection Hnone.
Qed.

(** X14: [receive_invitation] turns down a malformed invitation before it
    stores anything.  When the invitation has not exactly one service entry,
    or has neither an attachment nor a handshake protocol, the call raises,
    and stores, bus and effect log are as they were.  The service count is
    checked first.  The exception is the [OutOfBandManagerError] of the
    failed check, unless the mediation lookup, which comes before both
    checks, raised something other than [StorageNotFoundError]. *)
Theorem receive_invitation_turns_down_malformed_invitation
    (invitation : InvitationMessage.t) (use_existing_connection : bool)
    (auto_accept : option bool) (alias mediation_id : option string) (w : World E) :
  length (InvitationMessage.services invitation) ≠ 1%nat
  ∨ (InvitationMessage.requests_attach invitation = []
     ∧ InvitationMessage.handshake_protocols invitation = []) →
  ∃ err w',
    receive_invitation invitation use_existing_connection auto_accept alias mediation_id w
    = (Raise err, w')
    ∧ untouched w w'
    ∧ (err = OutOfBandManagerError
               (if bool_decide (length (InvitationMessage.services invitation) = 1%nat)
                then MustSpecifyHandshakeOrAttach else ServiceArrayNotOne)
       ∨ (truthy mediation_id = true
          ∧ (mediation_record_if_id mediation_id false (env w)).1 = Raise err
          ∧ err ≠ StorageNotFoundError)).
Proof.
  intros Hbad. unfold receive_invitation. rewrite run_bind.
  destruct (receive_invitation_begin invitation use_existing_connection mediation_id w)
    as [[[[mediation_id' r0] c0]|err] w0] eqn:Hbegin;
    apply receive_invitation_begin_run in Hbegin.
  - destruct Hbegin as (id & _ & _ & _ & _ & Hlen & Hvalid & _).
    destruct Hbad as [?|[? ?]]; [done|]. by destruct Hvalid.
  - destruct Hbegin as (Hsame & Herr). exists err, w0. split; [done|]. split; [done|].
    destruct Herr as [[Hlen ->]|[(Hlen & _ & _ & ->)|[?|(Hlen & Hvalid & _)]]].
    + left. by rewrite bool_decide_eq_false_2.
    + left. by rewrite bool_decide_eq_true_2.
    + by right.
    + destruct Hbad as [?|[? ?]]; [done|]. by destruct Hvalid.
Qed.

(** X15: a mediation id that is not known is dropped without a word.  When
    the lookup of the given id raises [StorageNotFoundError],
    [receive_invitation] goes on exactly as it does when called without a
    mediation id, from the environment the lookup left. *)
Theorem unknown_mediation_id_is_dropped
    (invitation : InvitationMessage.t) (use_existing_connection : bool)
    (auto_accept : option bool) (alias : option string) (mediation_id : string) (e1 : E)
    (w : World E) :
  mediation_id ≠ "" →
  mediation_record_if_id (Some mediation_id) false (env w) = (Raise StorageNotFoundError, e1) →
  receive_invitation invitation use_existing_connection auto_accept alias (Some mediation_id) w
  = receive_invitation invitation use_existing_connection auto_accept alias None (set_env e1 w).
Proof.
  intros Hid Hlookup. unfold receive_invitation, receive_invitation_begin.
  rewrite !run_bind. simpl. rewrite bool_decide_eq_false_2 by done. simpl.
  unfold except_not_found. rewrite run_bind. unfold call at 1. rewrite Hlookup. simpl.
  reflexivity.
Qed.

Lemma logs_wait_reuse_kinds oob_id timeout :
  always (logs of_a_wait) (_wait_for_reuse_response (E:=E) oob_id timeout).
Proof.
  unfold _wait_for_reuse_response, asyncio_wait_for, _wait_for_state_oob, wait_for_event,
    OobRecord_retrieve_by_id, await_event.
  repeat (always_step || logs_prim).
Qed.

Lemma logs_wait_conn_kinds connection_id timeout :
  always (logs of_a_wait) (_wait_for_conn_rec_active (E:=E) connection_id timeout).
Proof.
  unfold _wait_for_conn_rec_active, asyncio_wait_for, _wait_for_state_conn, wait_for_event,
    ConnRecord_retrieve_by_id, await_event.
  repeat (always_step || logs_prim).
Qed.

Lemma logs_handshake_loop_kinds (P : Effect → Prop) protocols invitation service public_did
    alias auto_accept mediation_id :
  (∀ protocol, P (EvHandshake protocol)) →
  always (logs P)
    (handshake_loop (E:=E) protocols invitation service public_did alias auto_accept
       mediation_id).
Proof.
  intros HP.
  induction protocols as [|[p|] protocols IH]; simpl; [apply always_ret, _| |exact IH].
  unfold handshake_with, stored_by_collaborator.
  repeat (always_step || logs_prim || (apply logs_emit; apply HP)).
Qed.

Lemma logs_connect_not_of_a_reuse invitation oob_record conn_rec auto_accept alias
    mediation_id :
  always (logs not_of_a_reuse)
    (receive_invitation_connect (E:=E) invitation oob_record conn_rec auto_accept alias
       mediation_id).
Proof.
  unfold receive_invitation_connect, _perform_handshake, resolve_service,
    _wait_for_conn_rec_active, asyncio_wait_for, _wait_for_state_conn, wait_for_event,
    await_event, _respond_request_attach, ConnRecord_retrieve_by_id.
  repeat (always_step || logs_prim || (apply logs_handshake_loop_kinds; by intros)
          || (apply logs_save; by intros)).
Qed.

Lemma not_of_a_reuse_log (t : list Effect) :
  Forall not_of_a_reuse t →
  sent_messages t = [] ∧ notifications t = []
  ∧ ∀ id, EvSubscribe OOB_REUSE_RESPONSE_STATE id ∉ t.
Proof.
  intros Ht. split; [|split].
  - eapply omap_none_of; [|exact Ht]. by intros [].
  - eapply omap_none_of; [|exact Ht]. by intros [].
  - intros id Hin. rewrite Forall_forall in Ht. by apply Ht in Hin.
Qed.

(** X16: [receive_invitation] tries a reuse only for an invitation that
    names a public DID as its service, has no attachment, and is received
    with [use_existing_connection].  In every other run, however it ends,
    the task hands nothing to the responder, emits no notification and never
    waits for a reuse response. *)
Theorem no_reuse_without_public_did_or_with_attachment
    (invitation : InvitationMessage.t) (use_existing_connection : bool)
    (auto_accept : option bool) (alias mediation_id : option string) (w : World E) :
  use_existing_connection = false
  ∨ (∃ service rest, InvitationMessage.services invitation = ServiceBlock service :: rest)
  ∨ InvitationMessage.requests_attach invitation ≠ [] →
  let out :=
    receive_invitation invitation use_existing_connection auto_accept alias mediation_id w in
  ∃ t, trace out.2 = (trace w ++ t)%list
       ∧ sent_messages t = []
       ∧ notifications t = []
       ∧ ∀ id, EvSubscribe OOB_REUSE_RESPONSE_STATE id ∉ t.
Proof.
  intros Hno out.
  assert (logs not_of_a_reuse w out.2) as (t & Ht & HP).
  { subst out. unfold receive_invitation. rewrite run_bind.
    destruct (receive_invitation_begin invitation use_existing_connection mediation_id w)
      as [[[[mediation_id' r0] c0]|err] w0] eqn:Hbegin.
    2:{ eapply always_run; [|exact Hbegin]. by apply logs_begin_kinds. }
    etrans; [eapply always_run; [|exact Hbegin]; by apply logs_begin_kinds|].
    apply receive_invitation_begin_run in Hbegin as (id & _ & _ & _ & _ & _ & _ & Hc0).
    assert (reuse_candidate invitation c0 = None) as ->.
    { unfold reuse_candidate. destruct Hno as [Huse|[Hblock|Hattach]].
      - rewrite Hc0 by by left. by destruct (nonempty _).
      - rewrite Hc0 by by right. by destruct (nonempty _).
      - by destruct (InvitationMessage.requests_attach invitation). }
    apply logs_connect_not_of_a_reuse. }
  exists t. split; [done|]. by apply not_of_a_reuse_log.
Qed.

Lemma run_ret {A} (a : A) (w : World E) : (mret a : M A) w = (Ok a, w).
Proof. reflexivity. Qed.

(** Symbolic execution that leaves the definitions folded. *)
Ltac step :=
  repeat first [rewrite run_bind | rewrite run_ret | rewrite run_emit
               | progress cbv beta iota
               | progress cbn [oob_store conn_store bus trace env set_trace set_env]].

Lemma _respond_request_attach_run (oob_record : OobRecord.t) (w w' : World E) res :
  _respond_request_attach oob_record w = (res, w') →
  oob_store w' = oob_store w ∧ conn_store w' = conn_store w ∧ bus w' = bus w
  ∧ match InvitationMessage.requests_attach (OobRecord.invitation oob_record) with
    | [] => res = Raise IndexError ∧ trace w' = trace w
    | AttachOther _ :: _ =>
        res = Raise (OutOfBandManagerError RequestsAttachMalformed) ∧ trace w' = trace w
    | AttachDecorator content :: _ =>
        (message_processor_present = false ∧ res = Raise InjectionError ∧ trace w' = trace w)
        ∨ (message_processor_present = true
           ∧ trace w' = (trace w ++ [EvHandleMessage content])%list
           ∧ ∃ e, handle_message content oob_record e = (res, env w'))
    end.
Proof.
  unfold _respond_request_attach. rewrite run_bind.
  destruct (InvitationMessage.requests_attach _) as [|[content|raw] rest]; simpl.
  - by intros [= <- <-].
  - rewrite run_bind. destruct message_processor_present; simpl.
    + rewrite run_bind. simpl. unfold call. simpl.
      destruct (handle_message content oob_record (env w)) as [res' e] eqn:Hh.
      intros [= <- <-]. simpl. repeat split; try done. right. repeat split; try done.
      by exists (env w).
    + intros [= <- <-]. repeat split; try done. by left.
  - by intros [= <- <-].
Qed.

Lemma of_a_wait_log (t : list Effect) :
  Forall of_a_wait t →
  handshakes t = [] ∧ created_keys t = [] ∧ sent_messages t = [] ∧ notifications t = []
  ∧ saved_oob t = [] ∧ handled_messages t = [].
Proof.
  intros Ht. repeat split; (eapply omap_none_of; [|exact Ht]); by intros [].
Qed.

(** The part of [receive_invitation] after the reuse attempt, for an
    invitation with attachments and a connection in hand. *)
Lemma receive_invitation_connect_over invitation r0 c auto_accept alias mediation_id
    (w0 w' : World E) res :
  OobRecord.invitation r0 = invitation →
  InvitationMessage.requests_attach invitation ≠ [] →
  receive_invitation_connect invitation r0 (Some c) auto_accept alias mediation_id w0
    = (res, w') →
  ∃ t, trace w' = (trace w0 ++ t)%list
       ∧ handshakes t = [] ∧ created_keys t = [] ∧ sent_messages t = []
       ∧ notifications t = [] ∧ saved_oob t = []
       ∧ ∀ r, res = Ok r →
              r = OobRecord.set_state OobRecord.STATE_DONE r0
              ∧ ∃ content rest,
                  InvitationMessage.requests_attach invitation = AttachDecorator content :: rest
                  ∧ handled_messages t = [content].
Proof.
  intros Hinv Hattach. unfold receive_invitation_connect.
  rewrite (bool_decide_eq_true_2 (is_Some (Some c))) by eauto. cbn [negb andb].
  destruct (InvitationMessage.requests_attach invitation) as [|a rest] eqn:Ha; [done|].
  cbn [nonempty]. rewrite !run_bind. cbn [mret M_ret]. rewrite !run_bind.
  set (wait := if truthy (OobRecord.connection_id r0)
               then _wait_for_conn_rec_active (OobRecord.connection_id r0)
                      conn_rec_active_timeout;; mret ()
               else mret ()).
  assert (always (logs of_a_wait) wait) as Hwait.
  { unfold wait. destruct (truthy _); [|apply always_ret, _].
    apply always_bind; [apply _ | apply logs_wait_conn_kinds | intros ?; apply always_ret, _]. }
  destruct (wait w0) as [[[]|err] w1] eqn:Hw;
    apply (always_run _ _ _ _ _ Hwait) in Hw as (t1 & Ht1 & HP1);
    apply of_a_wait_log in HP1 as (H1 & H2 & H3 & H4 & H5 & H6).
  2:{ intros [= <- <-]. exists t1. by repeat split. }
  rewrite run_bind, run_ret. cbv beta iota. rewrite run_bind.
  destruct (_respond_request_attach r0 w1) as [[[]|err] w2] eqn:Hrespond;
    apply _respond_request_attach_run in Hrespond as (_ & _ & _ & Hr);
    rewrite Hinv, Ha in Hr; destruct a as [content|raw].
  - destruct Hr as [(_ & Hno & _)|(_ & Ht2 & _)]; [done|].
    intros [= <- <-]. exists (t1 ++ [EvHandleMessage content])%list.
    split; [by rewrite Ht2, Ht1, <-(assoc_L (++)%list)|].
    unfold handshakes, created_keys, sent_messages, notifications, saved_oob,
      handled_messages in *.
    rewrite !omap_app, H1, H2, H3, H4, H5, H6. simpl. do 5 (split; [done|]).
    intros ? [= <-]. split; [done|]. by exists content, rest.
  - by destruct Hr.
  - intros [= <- <-]. destruct Hr as [(_ & _ & Ht2)|(_ & Ht2 & _)].
    + exists t1. rewrite Ht2. by repeat split.
    + exists (t1 ++ [EvHandleMessage content])%list.
      split; [by rewrite Ht2, Ht1, <-(assoc_L (++)%list)|].
      unfold handshakes, created_keys, sent_messages, notifications, saved_oob,
        handled_messages in *.
      rewrite !omap_app, H1, H2, H3, H4, H5. by repeat split.
  - intros [= <- <-]. destruct Hr as [_ Ht2]. exists t1. rewrite Ht2. by repeat split.
Qed.

(** X17: an invitation with attachments from a public DID with which a
    connection exists is handled over that connection.  Whatever handshake
    protocols the invitation lists, [receive_invitation] starts no
    handshake, tries no reuse, creates no key and saves the record only
    once, at the start.  When it returns, the record is the saved one in
    state DONE, bound to the connection that was found, and the message
    processor got the first attachment and no other. *)
Theorem attachment_is_handled_over_the_connection_found
    (invitation : InvitationMessage.t) (use_existing_connection : bool)
    (auto_accept : option bool) (alias mediation_id mediation_id' : option string)
    (r0 : OobRecord.t) (c : ConnRecord.t) (w w0 : World E) :
  receive_invitation_begin invitation use_existing_connection mediation_id w
    = (Ok (mediation_id', r0, Some c), w0) →
  InvitationMessage.requests_attach invitation ≠ [] →
  let out :=
    receive_invitation invitation use_existing_connection auto_accept alias mediation_id w in
  ∃ t, trace out.2 = (trace w ++ t)%list
       ∧ handshakes t = [] ∧ created_keys t = [] ∧ sent_messages t = []
       ∧ notifications t = [] ∧ saved_oob t = [r0]
       ∧ ∀ r, out.1 = Ok r →
              r = OobRecord.set_state OobRecord.STATE_DONE r0
              ∧ OobRecord.connection_id r = ConnRecord.connection_id c
              ∧ ∃ content rest,
                  InvitationMessage.requests_attach invitation = AttachDecorator content :: rest
                  ∧ handled_messages t = [content].
Proof.
  intros Hbegin Hattach out. subst out. unfold receive_invitation.
  rewrite run_bind, Hbegin. cbv beta iota.
  assert (reuse_candidate invitation (Some c) = None) as ->.
  { unfold reuse_candidate. by destruct (InvitationMessage.requests_attach invitation). }
  apply receive_invitation_begin_run in Hbegin as (id & Hr0 & _ & _ & Ht0 & _).
  destruct (receive_invitation_connect invitation r0 (Some c) auto_accept alias mediation_id'
              w0) as [res w'] eqn:Hconnect.
  apply receive_invitation_connect_over in Hconnect
    as (t & Ht & H1 & H2 & H3 & H4 & H5 & Hok); [|by rewrite Hr0|done].
  exists (EvSaveOob r0 :: t). simpl. rewrite Ht, Ht0, <-(assoc_L (++)%list). split; [done|].
  rewrite H1, H2, H3, H4, H5. do 5 (split; [done|]).
  intros r Hr. destruct (Hok r Hr) as (-> & content & rest & Hfirst & Hhandled).
  split; [done|]. split; [by rewrite Hr0|]. by exists content, rest.
Qed.

(** X18: an invitation with attachments and no handshake protocol, with no
    connection in hand, is handled without a connection.  When
    [receive_invitation] returns, its effect log after the first save is: a
    new signing key, a second save of the record with that key as
    [our_recipient_key], and the first attachment handed to the message
    processor.  It has waited for nothing and started no handshake; the
    record it returns is DONE with no connection, and the store holds that
    record with the key and in state INITIAL. *)
Theorem connectionless_exchange_creates_and_stores_a_key
    (invitation : InvitationMessage.t) (use_existing_connection : bool)
    (auto_accept : option bool) (alias mediation_id mediation_id' : option string)
    (r0 r : OobRecord.t) (w w0 w' : World E) :
  receive_invitation_begin invitation use_existing_connection mediation_id w
    = (Ok (mediation_id', r0, None), w0) →
  InvitationMessage.handshake_protocols invitation = [] →
  receive_invitation invitation use_existing_connection auto_accept alias mediation_id w
    = (Ok r, w') →
  ∃ key content rest id,
    let keyed := OobRecord.set_our_recipient_key (Some key) r0 in
    InvitationMessage.requests_attach invitation = AttachDecorator content :: rest
    ∧ trace w' = (trace w ++ [EvSaveOob r0; EvCreateKey key; EvSaveOob keyed;
                              EvHandleMessage content])%list
    ∧ r = OobRecord.set_state OobRecord.STATE_DONE keyed
    ∧ OobRecord.connection_id r = None
    ∧ OobRecord.oob_id r = Some id
    ∧ oob_store w' !! id = Some keyed
    ∧ OobRecord.state keyed = OobRecord.STATE_INITIAL.
Proof.
  intros Hbegin Hprotos. unfold receive_invitation.
  rewrite run_bind, Hbegin. cbv beta iota.
  assert (reuse_candidate invitation None = None) as ->.
  { unfold reuse_candidate. by destruct (nonempty _). }
  apply receive_invitation_begin_run in Hbegin
    as (id & Hr0 & Hstore0 & _ & Ht0 & _ & Hvalid & _).
  destruct Hvalid as [Hattach|?]; [|done].
  unfold receive_invitation_connect. rewrite Hprotos. cbn [nonempty]. rewrite andb_false_r.
  destruct (InvitationMessage.requests_attach invitation) as [|a rest] eqn:Ha; [done|].
  cbn [nonempty].
  assert (OobRecord.connection_id r0 = None) as Hconn by (by rewrite Hr0).
  assert (OobRecord.oob_id r0 = Some id) as Hid by (by rewrite Hr0).
  step. rewrite Hconn. cbn [truthy]. step. unfold call at 1.
  destruct (wallet_create_signing_key (env w0)) as [[key|err] e]; step; [|done].
  rewrite (OobRecord_save_stored _ id) by done. step.
  match goal with
  | |- context [_respond_request_attach ?x ?y] =>
      destruct (_respond_request_attach x y) as [[[]|err] w2] eqn:Hrespond
  end; step; [|done].
  apply _respond_request_attach_run in Hrespond as (Hs2 & _ & _ & Hr).
  cbn [OobRecord.invitation OobRecord.set_our_recipient_key] in Hr.
  assert (OobRecord.invitation r0 = invitation) as Hinv by (by rewrite Hr0).
  rewrite Hinv, Ha in Hr. destruct a as [content|raw]; [|by destruct Hr].
  destruct Hr as [(_ & Hno & _)|(_ & Ht2 & _)]; [done|].
  intros [= <- <-].
  exists (verkey key), content, rest, id. cbv zeta.
  split; [done|]. split.
  { rewrite Ht2. simpl. rewrite Ht0. by rewrite <-!(assoc_L (++)%list). }
  split; [done|]. split; [done|]. split; [done|]. split.
  { rewrite Hs2. simpl. apply lookup_insert_eq. }
  by rewrite Hr0.
Qed.

Lemma handshakes_app (t1 t2 : list Effect) :
  handshakes (t1 ++ t2) = (handshakes t1 ++ handshakes t2)%list.
Proof. apply omap_app. Qed.

Lemma before_connecting_handled_messages (t : list Effect) :
  Forall before_connecting t → handled_messages t = [].
Proof. apply omap_none_of. by intros []. Qed.

(** The part of [receive_invitation] after the reuse attempt, for an
    invitation without attachments and no connection in hand. *)
Lemma receive_invitation_connect_fresh invitation rx auto_accept alias mediation_id
    (wx w' : World E) r :
  InvitationMessage.requests_attach invitation = [] →
  InvitationMessage.handshake_protocols invitation ≠ [] →
  receive_invitation_connect invitation rx None auto_accept alias mediation_id wx = (Ok r, w') →
  ∃ protocol cid r1,
    first_supported (InvitationMessage.handshake_protocols (OobRecord.invitation rx))
    = Some protocol
    ∧ trace w' = (trace wx ++ [EvHandshake protocol; EvSaveOob r1;
                               EvRetrieveConn (Some cid)])%list
    ∧ r = OobRecord.set_state OobRecord.STATE_DONE r1
    ∧ OobRecord.connection_id r1 = Some cid
    ∧ OobRecord.state r1 = OobRecord.state rx
    ∧ after_handshake protocol (OobRecord.invitation rx) (OobRecord.invitation r1)
    ∧ (∃ id, OobRecord.oob_id r1 = Some id ∧ oob_store w' !! id = Some r1)
    ∧ is_Some (conn_store w' !! cid).
Proof.
  intros Hattach Hprotos. unfold receive_invitation_connect. rewrite Hattach.
  destruct (InvitationMessage.handshake_protocols invitation) as [|proto protos]; [done|].
  cbn [nonempty]. rewrite andb_true_r.
  assert (negb (bool_decide (is_Some (None : option ConnRecord.t))) = true) as ->.
  { apply negb_true_iff, bool_decide_eq_false_2. by intros [? [=]]. }
  step.
  destruct (_perform_handshake rx alias auto_accept mediation_id wx) as [[r1|err] w1]
    eqn:Hperform; step; [|done].
  apply _perform_handshake_run in Hperform
    as (protocol & c & id & Hfirst & Ht1 & Hr1 & _ & Hstore & _ & Hafter).
  unfold ConnRecord_retrieve_by_id. step. unfold get_world. step.
  destruct (OobRecord.connection_id r1 ≫= _) as [found|] eqn:Hfound; step; [|done].
  intros [= <- <-]. simpl.
  destruct (OobRecord.connection_id r1) as [cid|] eqn:Hcid; [|done]. simpl in Hfound.
  exists protocol, cid, r1. split; [done|]. split.
  { rewrite Ht1, <-(assoc_L (++)%list). done. }
  split; [done|]. split; [done|]. split; [by rewrite Hr1|]. split; [done|]. split.
  - exists id. split; [by rewrite Hr1 | by rewrite Hstore, lookup_insert_eq].
  - by eexists.
Qed.

(** X19: a run of [receive_invitation] that completes with DONE for an
    invitation without attachments has started exactly one handshake, with
    the first supported protocol that the invitation of the returned record
    lists, and returns a record bound to a connection.  It created no key
    and handed nothing to the message processor.  When the task sent no
    reuse message, the invitation of the returned record is the one that
    was received as that handshake left it: the same, except that after a
    handshake over RFC160 an inline service entry has the keys the
    handshake converted. *)
Theorem completed_invitation_without_attachment_made_one_handshake
    (invitation : InvitationMessage.t) (use_existing_connection : bool)
    (auto_accept : option bool) (alias mediation_id : option string)
    (w w' : World E) (r : OobRecord.t) :
  receive_invitation invitation use_existing_connection auto_accept alias mediation_id w
    = (Ok r, w') →
  OobRecord.state r = OobRecord.STATE_DONE →
  InvitationMessage.requests_attach invitation = [] →
  ∃ t protocol cid,
    trace w' = (trace w ++ t)%list
    ∧ handshakes t = [protocol]
    ∧ first_supported (InvitationMessage.handshake_protocols (OobRecord.invitation r))
      = Some protocol
    ∧ OobRecord.connection_id r = Some cid
    ∧ created_keys t = []
    ∧ handled_messages t = []
    ∧ (sent_messages t = [] → after_handshake protocol invitation (OobRecord.invitation r)).
Proof.
  unfold receive_invitation.
  intros ([[mediation_id' r0] c0] & w0 & Hbegin & Hrest)%bind_Ok Hdone Hattach.
  pose proof (always_run _ _ _ _ _ (logs_begin_before_connecting _ _ _) Hbegin)
    as (tb & Htb & HPb).
  apply receive_invitation_begin_run in Hbegin
    as (id & Hr0 & _ & _ & _ & _ & Hvalid & _).
  destruct Hvalid as [?|Hprotos]; [done|].
  assert (∃ rx wx tx,
            receive_invitation_connect invitation rx None auto_accept alias mediation_id' wx
            = (Ok r, w')
            ∧ trace wx = (trace w ++ tx)%list
            ∧ Forall before_connecting tx
            ∧ (sent_messages tx = [] → OobRecord.invitation rx = invitation))
    as (rx & wx & tx & Hconnect & Htx & HPx & Hinv).
  { unfold reuse_candidate in Hrest. rewrite Hattach in Hrest. cbn [nonempty] in Hrest.
    destruct c0 as [found|].
    - apply bind_Ok in Hrest as (ra & wa & Hreuse & Hrest).
      case_bool_decide as Hacc.
      { injection Hrest as <- <-. by rewrite Hacc in Hdone. }
      pose proof (always_run _ _ _ _ _ (logs_reuse_before_connecting _ _) Hreuse)
        as (ta & Hta & HPa).
      exists ra, wa, (tb ++ ta)%list. split; [done|]. split.
      { by rewrite Hta, Htb, <-(assoc_L (++)%list). }
      split; [by apply Forall_app|].
      unfold _handle_hanshake_reuse in Hreuse.
      apply bind_Ok in Hreuse as (r1 & w1 & Hcreate & Hreuse).
      pose proof (_create_handshake_reuse_message_run _ _ _ _ _ Hcreate) as Hc. simpl in Hc.
      destruct Hc as (reuse_msg & targets & k & Ht1 & _).
      assert (logs (λ _, True) w1 wa) as (t2 & Ht2 & _).
      { apply bind_Ok in Hreuse as (r2 & w2 & Hwait & Hreuse). etrans.
        - eapply (logs_weaken of_a_wait); [done|].
          eapply always_run; [apply logs_wait_reuse_kinds|exact Hwait].
        - destruct (bool_decide _).
          + apply bind_Ok in Hreuse as ([] & w3 & Hnotify & Hreuse).
            apply bind_Ok in Hreuse as (r3 & w4 & Hsave & [= <- <-]). etrans.
            * eapply always_run; [|exact Hnotify]. by apply logs_emit.
            * eapply always_run; [|exact Hsave]. by apply logs_save.
          + injection Hreuse as <- <-. reflexivity. }
      rewrite Ht2, Ht1, <-(assoc_L (++)%list) in Hta. apply (inj (app (trace w0))) in Hta as <-.
      rewrite !sent_messages_app. simpl. intros Hnil.
      apply app_eq_nil in Hnil as [_ Hnil]. discriminate Hnil.
    - exists r0, w0, tb. split; [done|]. split; [done|]. split; [done|]. intros _.
      by rewrite Hr0. }
  apply receive_invitation_connect_fresh in Hconnect
    as (protocol & cid & r1 & Hfirst & Ht & -> & Hcid & _ & Hinv1 & _); [|done..].
  eexists _, protocol, cid. split.
  { rewrite Ht, Htx, <-(assoc_L (++)%list). reflexivity. }
  rewrite handshakes_app, (before_connecting_handshakes tx HPx).
  unfold created_keys, handled_messages. rewrite !omap_app.
  fold (created_keys tx). fold (handled_messages tx).
  rewrite (before_connecting_created_keys tx HPx), (before_connecting_handled_messages tx HPx).
  simpl. split; [done|]. split.
  { destruct Hinv1 as [(_ & _ & -> & _) _]. done. }
  split; [done|]. split; [done|].
  split; [done|]. rewrite sent_messages_app. intros Hnil.
  apply app_eq_nil in Hnil as [Hnil _]. rewrite <-(Hinv Hnil). exact Hinv1.
Qed.

(** ** The invitation builder, part by part *)

Lemma dict_get_set (key value : string) (d : list (string * string)) :
  dict_get key (dict_set key value d) = Some value.
Proof.
  induction d as [|[k v] d IH]; simpl.
  - by rewrite bool_decide_eq_true_2.
  - case_bool_decide as Hk; simpl.
    + by rewrite bool_decide_eq_true_2.
    + by rewrite bool_decide_eq_false_2.
Qed.

Lemma resolve_attachment_Ok invitation_message_id atch (w w' : World E) a :
  resolve_attachment invitation_message_id atch w = (Ok a, w') →
  known_attachment_type atch ∧ threaded_under invitation_message_id a.
Proof.
  unfold resolve_attachment. intros (message & w1 & Hget & [= <- <-])%bind_Ok. split.
  - unfold known_attachment_type. repeat case_bool_decide; auto. done.
  - eexists. split; [done|]. simpl. apply dict_get_set.
Qed.

Lemma resolve_attachments_Ok invitation_message_id attachments (w w' : World E) resolved :
  resolve_attachments invitation_message_id attachments w = (Ok resolved, w') →
  length resolved = length attachments
  ∧ Forall known_attachment_type attachments
  ∧ Forall (threaded_under invitation_message_id) resolved.
Proof.
  revert w resolved. induction attachments as [|atch attachments IH]; intros w resolved; simpl.
  - intros [= <- <-]. by repeat split.
  - intros (a & w1 & Ha & H)%bind_Ok.
    apply bind_Ok in H as (others & w2 & Hothers & [= <- <-]).
    apply resolve_attachment_Ok in Ha as [Hknown Hthreaded].
    apply IH in Hothers as (Hlen & Hknowns & Hthreadeds).
    simpl. rewrite Hlen. repeat split; by constructor.
Qed.

Lemma create_invitation_record_run conn_rec invi_msg invi_url our_recipient_key
    (w : World E) :
  ∃ id e,
    let stored :=
      sender_record id invi_msg (conn_rec ≫= ConnRecord.connection_id) our_recipient_key in
    create_invitation_record conn_rec invi_msg invi_url our_recipient_key w
    = (Ok {| InvitationRecord.oob_id := Some id;
             InvitationRecord.state := InvitationRecord.STATE_INITIAL;
             InvitationRecord.invi_msg_id := InvitationMessage._id invi_msg;
             InvitationRecord.invitation := invi_msg;
             InvitationRecord.invitation_url := invi_url |},
       {| oob_store := <[id := stored]> (oob_store w); conn_store := conn_store w;
          bus := bus w ++ [BusOob stored]; trace := trace w ++ [EvSaveOob stored];
          env := e |}).
Proof.
  unfold create_invitation_record. rewrite run_bind.
  match goal with
  | |- context [OobRecord_save ?x ?y] =>
      destruct (OobRecord_save_run x y) as (id & e & -> & _)
  end.
  by exists id, e.
Qed.

(** What a successful [create_invitation] went through before it took one
    of its two branches. *)
Lemma create_invitation_Ok my_label my_endpoint auto_accept public hs_protos multi_use alias
    attachments metadata mediation_id (w w' : World E) rec :
  create_invitation my_label my_endpoint auto_accept public hs_protos multi_use alias
    attachments metadata mediation_id w = (Ok rec, w') →
  ∃ mediation_record invitation_message_id message_attachments w2,
    (∃ e1, mediation_record_if_id mediation_id true (env w) = (Ok mediation_record, e1))
    ∧ untouched w w2
    ∧ (hs_protos ≠ [] ∨ attachments ≠ [])
    ∧ (public = true → multi_use = false ∧ metadata = [])
    ∧ (attachments ≠ [] → multi_use = false)
    ∧ length message_attachments = length attachments
    ∧ Forall known_attachment_type attachments
    ∧ Forall (threaded_under invitation_message_id) message_attachments
    ∧ (let handshake_protocols :=
         (λ hsp, DIDCommPrefix_qualify_current (HSProto_name hsp)) <$> hs_protos in
       let connection_protocol := HSProto_name <$> head hs_protos in
       if public then
         create_invitation_public my_label (accepts auto_accept) alias invitation_message_id
           message_attachments handshake_protocols connection_protocol w2 = (Ok rec, w')
       else
         create_invitation_pairwise my_label my_endpoint (accepts auto_accept) multi_use alias
           metadata mediation_record invitation_message_id message_attachments
           handshake_protocols connection_protocol w2 = (Ok rec, w')).
Proof.
  unfold create_invitation.
  intros (mediation_record & w1 & Hmediation & H)%bind_Ok.
  pose proof (always_run _ _ _ _ _ (untouched_call _) Hmediation) as Hw1.
  destruct (negb (nonempty hs_protos || nonempty attachments)) eqn:Hempty; [done|].
  destruct (public && multi_use) eqn:Hpm; [done|].
  destruct (public && nonempty metadata) eqn:Hpmeta; [done|].
  destruct (nonempty attachments && multi_use) eqn:Ham; [done|].
  apply bind_Ok in H as (invitation_message_id & w2 & Huuid & H).
  pose proof (always_run _ _ _ _ _ (untouched_call _) Huuid) as Hw2.
  apply bind_Ok in H as (message_attachments & w3 & Hresolve & H).
  pose proof (always_run _ _ _ _ _ (untouched_resolve_attachments _ _) Hresolve) as Hw3.
  apply resolve_attachments_Ok in Hresolve as (Hlen & Hknown & Hthreaded).
  exists mediation_record, invitation_message_id, message_attachments, w3.
  split.
  { unfold call in Hmediation.
    destruct (mediation_record_if_id mediation_id true (env w)) as [res e1].
    injection Hmediation as -> _. by exists e1. }
  split; [by etrans; [|etrans]|]. split.
  { destruct hs_protos; [|by left]. destruct attachments; [done | by right]. }
  split.
  { intros ->. destruct multi_use; [done|]. by destruct metadata. }
  split.
  { intros Hatt. destruct attachments; [done|]. by destruct multi_use. }
  split; [done|]. split; [done|]. split; [done|].
  cbv zeta. unfold accepts.
  assert (match hs_protos with
          | [] => None
          | hsp :: _ => Some (HSProto_name hsp)
          end = HSProto_name <$> head hs_protos) as <- by (by destruct hs_protos).
  destruct public; exact H.
Qed.

Lemma relay_add_key_run (key : string) (skip : bool) (w w' : World E) res :
  match multitenant_relay with
  | Some wallet_id => call (multitenant_add_key wallet_id key skip)
  | None => mret ()
  end w = (res, w') →
  ∃ e, w' = set_env e w.
Proof.
  destruct multitenant_relay as [wallet_id|].
  - unfold call. destruct (multitenant_add_key _ _ _ _) as [res' e].
    intros [= <- <-]. by exists e.
  - intros [= <- <-]. exists (env w). by destruct w.
Qed.

Lemma create_invitation_public_Ok my_label accept alias invitation_message_id
    message_attachments handshake_protocols connection_protocol (w w' : World E) rec :
  create_invitation_public my_label accept alias invitation_message_id message_attachments
    handshake_protocols connection_protocol w = (Ok rec, w') →
  setting_public_invites = true
  ∧ ∃ public_did endpoint oid,
      let invi_msg :=
        {| InvitationMessage._id := invitation_message_id;
           InvitationMessage.label := or_else my_label setting_default_label;
           InvitationMessage.handshake_protocols := handshake_protocols;
           InvitationMessage.requests_attach := message_attachments;
           InvitationMessage.services := [ServiceDID ("did:sov:" ++ did public_did)] |} in
      rec = {| InvitationRecord.oob_id := Some oid;
               InvitationRecord.state := InvitationRecord.STATE_INITIAL;
               InvitationRecord.invi_msg_id := invitation_message_id;
               InvitationRecord.invitation := invi_msg;
               InvitationRecord.invitation_url := to_url invi_msg endpoint |}
      ∧ (∃ e e', wallet_get_public_did e = (Ok (Some public_did), e'))
      ∧ match handshake_protocols with
        | [] =>
            let stored := sender_record oid invi_msg None (Some (verkey public_did)) in
            oob_store w' = <[oid := stored]> (oob_store w)
            ∧ conn_store w' = conn_store w
            ∧ trace w' = (trace w ++ [EvSaveOob stored])%list
        | _ :: _ =>
            ∃ cid,
              let saved :=
                ConnRecord.set_connection_id (Some cid)
                  (new_conn_record (verkey public_did) invitation_message_id accept
                     ConnRecord.INVITATION_MODE_ONCE alias connection_protocol) in
              let stored := sender_record oid invi_msg (Some cid) (Some (verkey public_did)) in
              oob_store w' = <[oid := stored]> (oob_store w)
              ∧ conn_store w'
                = <[cid := ConnRecord.set_attached_invitation (Some invi_msg) saved]>
                    (conn_store w)
              ∧ trace w' = (trace w ++ [EvSaveConn saved; EvSaveOob stored])%list
        end.
Proof.
  unfold create_invitation_public. destruct setting_public_invites; [|done].
  cbn [negb]. split; [done|]. revert H. step. unfold call at 1.
  destruct (wallet_get_public_did (env w)) as [[[public_did|]|err] e1] eqn:Hdid; step;
    [|done..].
  unfold call at 1. cbn [env].
  destruct (mediation_add_key (verkey public_did) None e1) as [[updates|err] e2]; step;
    [|done].
  unfold call at 1. cbn [env].
  destruct (resolve_invitation (did public_did) e2)
    as [[[[endpoint recipient_keys] routing_keys]|err] e3]; step; [|done].
  match goal with
  | |- context [match multitenant_relay with Some wallet_id => @?a wallet_id | None => ?b end ?x] =>
      destruct (match multitenant_relay with Some wallet_id => a wallet_id | None => b end x)
        as [[[]|err] w4] eqn:Hr
  end; step; [|done].
  apply relay_add_key_run in Hr as [e4 ->]. unfold set_env. step.
  destruct handshake_protocols as [|proto protos]; cbn [nonempty]; step.
  - match goal with
    | |- context [create_invitation_record ?a ?b ?c ?d ?x] =>
        destruct (create_invitation_record_run a b c d x) as (oid & e5 & ->)
    end.
    intros [= <- <-]. exists public_did, endpoint, oid. cbv zeta.
    split; [done|]. split; [by exists (env w), e1|]. done.
  - match goal with
    | |- context [ConnRecord_save ?x ?y] =>
        destruct (ConnRecord_save_run x y) as (cid & e5 & -> & _)
    end. step. unfold ConnRecord_attach_invitation. cbn [ConnRecord.connection_id ConnRecord.set_connection_id].
    step. unfold put_conn at 1. step.
    match goal with
    | |- context [create_invitation_record ?a ?b ?c ?d ?x] =>
        destruct (create_invitation_record_run a b c d x) as (oid & e6 & ->)
    end.
    intros [= <- <-]. exists public_did, endpoint, oid. cbv zeta.
    split; [done|]. split; [by exists (env w), e1|]. exists cid. simpl.
    rewrite insert_insert_eq, <-(assoc_L (++)%list). done.
Qed.

Lemma same_but_notes_refl (c : ConnRecord.t) : same_but_notes c c.
Proof. by repeat split. Qed.

Lemma same_but_notes_trans (c1 c2 c3 : ConnRecord.t) :
  same_but_notes c1 c2 → same_but_notes c2 c3 → same_but_notes c1 c3.
Proof.
  unfold same_but_notes. intros H1 H2. destruct_and!. repeat split; congruence.
Qed.

(** The writes next to a stored connection record. *)
Lemma ConnRecord_metadata_set_Ok c key value (w w' : World E) c' :
  ConnRecord_metadata_set c key value w = (Ok c', w') →
  ∃ cid, ConnRecord.connection_id c = Some cid
         ∧ same_but_notes c c'
         ∧ ConnRecord.attached_invitation c' = ConnRecord.attached_invitation c
         ∧ ConnRecord.metadata c' = (ConnRecord.metadata c ++ [(key, value)])%list
         ∧ w' = {| oob_store := oob_store w; conn_store := <[cid := c']> (conn_store w);
                   bus := bus w; trace := trace w; env := env w |}.
Proof.
  unfold ConnRecord_metadata_set. destruct (ConnRecord.connection_id c) as [cid|] eqn:Hcid;
    [|done].
  step. unfold put_conn. step. intros [= <- <-]. exists cid. by repeat split.
Qed.

Lemma ConnRecord_attach_invitation_Ok c invi_msg (w w' : World E) c' :
  ConnRecord_attach_invitation c invi_msg w = (Ok c', w') →
  ∃ cid, ConnRecord.connection_id c = Some cid
         ∧ same_but_notes c c'
         ∧ ConnRecord.attached_invitation c' = Some invi_msg
         ∧ ConnRecord.metadata c' = ConnRecord.metadata c
         ∧ w' = {| oob_store := oob_store w; conn_store := <[cid := c']> (conn_store w);
                   bus := bus w; trace := trace w; env := env w |}.
Proof.
  unfold ConnRecord_attach_invitation.
  destruct (ConnRecord.connection_id c) as [cid|] eqn:Hcid; [|done].
  step. unfold put_conn. step. intros [= <- <-]. exists cid. by repeat split.
Qed.

(** [for key, value in metadata.items(): await conn_rec.metadata_set(...)] *)
Lemma metadata_loop_Ok (metadata : list (string * string)) (acc : M ConnRecord.t)
    (w w' : World E) c' :
  foldl (λ (acc : M ConnRecord.t) kv, c ← acc; ConnRecord_metadata_set c kv.1 kv.2) acc
    metadata w = (Ok c', w') →
  ∃ c w1,
    acc w = (Ok c, w1)
    ∧ same_but_notes c c'
    ∧ ConnRecord.attached_invitation c' = ConnRecord.attached_invitation c
    ∧ ConnRecord.metadata c' = (ConnRecord.metadata c ++ metadata)%list
    ∧ oob_store w' = oob_store w1 ∧ bus w' = bus w1 ∧ trace w' = trace w1
    ∧ match metadata with
      | [] => conn_store w' = conn_store w1
      | _ => ∃ cid, ConnRecord.connection_id c = Some cid
                    ∧ conn_store w' = <[cid := c']> (conn_store w1)
      end.
Proof.
  revert acc c' w'. induction metadata as [|[key value] metadata IH]; intros acc c' w'; simpl.
  - intros Hacc. exists c', w'. rewrite app_nil_r. repeat split; try done.
  - intros (c1 & w1 & (c & w0 & Hacc & Hset)%bind_Ok & Hs & Ha & Hm & Ho & Hb & Ht & Hc)%IH.
    apply ConnRecord_metadata_set_Ok in Hset as (cid & Hcid & Hs1 & Ha1 & Hm1 & ->).
    exists c, w0. split; [done|]. split; [by eapply same_but_notes_trans|].
    split; [by rewrite Ha|]. split; [by rewrite Hm, Hm1, <-(assoc_L (++)%list)|].
    split; [done|]. split; [done|]. split; [done|].
    exists cid. split; [done|]. destruct metadata as [|kv' metadata'].
    + simpl in Hc. rewrite Hc. simpl.
      assert (c' = c1) as ->; [|done].
      clear -Hs Ha Hm. rewrite app_nil_r in Hm. destruct c', c1. unfold same_but_notes in Hs.
      simpl in *. destruct_and!. by simplify_eq.
    + destruct Hc as (cid' & Hcid' & ->). simpl.
      destruct Hs1 as [Hid _]. rewrite Hid, Hcid in Hcid'. injection Hcid' as <-.
      by rewrite insert_insert_eq.
Qed.

Lemma create_invitation_pairwise_Ok my_label my_endpoint accept multi_use alias metadata
    mediation_record invitation_message_id message_attachments handshake_protocols
    connection_protocol (w w' : World E) rec :
  create_invitation_pairwise my_label my_endpoint accept multi_use alias metadata
    mediation_record invitation_message_id message_attachments handshake_protocols
    connection_protocol w = (Ok rec, w') →
  ∃ connection_key recipient_key raw_routing_keys routing_keys endpoint keylist oid
    connection_id,
    let invi_msg :=
      {| InvitationMessage._id := invitation_message_id;
         InvitationMessage.label := or_else my_label setting_default_label;
         InvitationMessage.handshake_protocols := handshake_protocols;
         InvitationMessage.requests_attach := message_attachments;
         InvitationMessage.services :=
           [ServiceBlock {| svc_id := "#inline"; svc_type := "did-communication";
                            recipient_keys := [recipient_key];
                            routing_keys := routing_keys;
                            service_endpoint := endpoint |}] |} in
    let stored := sender_record oid invi_msg connection_id (Some (verkey connection_key)) in
    let made cid :=
      ConnRecord.set_connection_id (Some cid)
        (new_conn_record (verkey connection_key) invitation_message_id accept
           (if multi_use then ConnRecord.INVITATION_MODE_MULTI
            else ConnRecord.INVITATION_MODE_ONCE) alias connection_protocol) in
    rec = {| InvitationRecord.oob_id := Some oid;
             InvitationRecord.state := InvitationRecord.STATE_INITIAL;
             InvitationRecord.invi_msg_id := invitation_message_id;
             InvitationRecord.invitation := invi_msg;
             InvitationRecord.invitation_url := to_url invi_msg None |}
    ∧ DIDKey_from_public_key_b58 (verkey connection_key) = Ok recipient_key
    ∧ oob_store w' = <[oid := stored]> (oob_store w)
    ∧ trace w'
      = (trace w ++ [EvCreateKey (verkey connection_key)]
           ++ match connection_id with
              | Some cid => [EvSaveConn (made cid)]
              | None => []
              end
           ++ match mediation_record, keylist with
              | Some m, Some updates =>
                  [EvSend (OutKeylistUpdate updates)
                     (ToConnection (mediation_connection_id m))]
              | _, _ => []
              end
           ++ [EvSaveOob stored])%list
    ∧ (handshake_protocols = [] ↔ connection_id = None)
    ∧ match connection_id with
      | None => conn_store w' = conn_store w ∧ mediation_record = None
      | Some cid =>
          ∃ c, conn_store w' = <[cid := c]> (conn_store w)
               ∧ same_but_notes (made cid) c
               ∧ ConnRecord.attached_invitation c = Some invi_msg
               ∧ ConnRecord.metadata c
                 = (match mediation_record with
                    | Some m => [(METADATA_KEY, mediation_id m)]
                    | None => []
                    end ++ metadata)%list
      end
    ∧ Forall2 (λ raw key, if bool_decide (split_len raw = 3%nat) then key = raw
                          else DIDKey_from_public_key_b58 raw = Ok key)
        raw_routing_keys routing_keys
    ∧ (∀ m, mediation_record = Some m → endpoint = mediation_endpoint m)
    ∧ (multitenant_relay = None →
       raw_routing_keys = match mediation_record with
                          | Some m => mediation_routing_keys m
                          | None => []
                          end
       ∧ (mediation_record = None →
          endpoint = if truthy my_endpoint then my_endpoint else setting_default_endpoint)
       ∧ is_Some keylist).
Proof.
  unfold create_invitation_pairwise. cbv zeta.
  intros (connection_key & w1 & Hkey & H)%bind_Ok.
  apply bind_Ok in H as ([] & w2 & Hemit & H).
  apply bind_Ok in H as (updates & w3 & Hadd & H).
  apply bind_Ok in H as ([] & w4 & Hrelay & H).
  apply bind_Ok in H as (conn_rec & w5 & Hconn & H).
  apply bind_Ok in H as ([[routing_keys0 endpoint0] keylist] & w6 & Hbase & H).
  apply bind_Ok in H as ([[raw_routing_keys endpoint] conn_rec'] & w7 & Hmed & H).
  apply bind_Ok in H as (routing_keys & w8 & Hrouting & H).
  apply bind_Ok in H as (recipient_keys & w9 & Hrecipient & H).
  apply bind_Ok in H as (conn_rec'' & w10 & Hattach & H).
  (* the key and the calls around it *)
  unfold call in Hkey. destruct (wallet_create_signing_key (env w)) as [res1 e1].
  injection Hkey as -> <-. injection Hemit as <-.
  unfold call in Hadd. cbn [env] in Hadd.
  destruct (mediation_add_key _ _ e1) as [res3 e3]. injection Hadd as -> <-.
  apply relay_add_key_run in Hrelay as [e4 ->]. unfold set_env in *.
  cbn [oob_store conn_store bus trace env] in *.
  (* the connection record *)
  set (w4 := {| oob_store := oob_store w; env := e4 |}) in *.
  set (mode := if multi_use then ConnRecord.INVITATION_MODE_MULTI
               else ConnRecord.INVITATION_MODE_ONCE) in *.
  assert (oob_store w5 = oob_store w ∧ bus w4 = bus w
          ∧ match conn_rec with
            | None => handshake_protocols = [] ∧ conn_store w5 = conn_store w
                      ∧ trace w5 = trace w4
            | Some c =>
                handshake_protocols ≠ []
                ∧ ∃ cid, c = ConnRecord.set_connection_id (Some cid)
                               (new_conn_record (verkey connection_key) invitation_message_id
                                  accept mode alias connection_protocol)
                         ∧ conn_store w5 = <[cid := c]> (conn_store w)
                         ∧ trace w5 = (trace w4 ++ [EvSaveConn c])%list
            end) as (Ho5 & _ & Hc5).
  { destruct handshake_protocols as [|proto protos]; cbn [nonempty] in Hconn.
    - injection Hconn as <- <-. done.
    - apply bind_Ok in Hconn as (c & w5' & Hsave & [= <- <-]).
      match type of Hsave with
      | ConnRecord_save ?x ?y = _ => destruct (ConnRecord_save_run x y) as (cid & e5 & Hs & _)
      end.
      rewrite Hs in Hsave. injection Hsave as <- <-. split; [done|]. split; [done|].
      split; [done|]. by exists cid. }
  (* the base mediator *)
  assert ((∃ e6, w6 = set_env e6 w5)
          ∧ (multitenant_relay = None →
             routing_keys0 = []
             ∧ endpoint0 = (if truthy my_endpoint then my_endpoint
                            else setting_default_endpoint)
             ∧ keylist = Some updates)) as ([e6 ->] & Hbase').
  { destruct multitenant_relay as [wallet_id|].
    - apply bind_Ok in Hbase as (base & w6' & Hget & Hbase). unfold call in Hget.
      destruct (multitenant_get_default_mediator (env w5)) as [res6 e6].
      injection Hget as -> <-. split; [|done]. exists e6.
      destruct base; by injection Hbase as <- <- <- <-.
    - injection Hbase as <- <- <- <-. split; [|done]. exists (env w5). by destruct w5. }
  (* the mediation record *)
  assert (oob_store w7 = oob_store w
          ∧ match mediation_record with
            | None =>
                raw_routing_keys = routing_keys0 ∧ endpoint = endpoint0
                ∧ conn_rec' = conn_rec ∧ conn_store w7 = conn_store w5
                ∧ trace w7 = trace w5
            | Some m =>
                raw_routing_keys = (routing_keys0 ++ mediation_routing_keys m)%list
                ∧ endpoint = mediation_endpoint m
                ∧ ∃ c c' cid,
                    conn_rec = Some c ∧ conn_rec' = Some c'
                    ∧ ConnRecord.connection_id c = Some cid
                    ∧ same_but_notes c c'
                    ∧ ConnRecord.metadata c'
                      = (ConnRecord.metadata c ++ [(METADATA_KEY, mediation_id m)])%list
                    ∧ conn_store w7 = <[cid := c']> (conn_store w5)
                    ∧ trace w7
                      = (trace w5 ++ match keylist with
                                     | Some updates =>
                                         [EvSend (OutKeylistUpdate updates)
                                            (ToConnection (mediation_connection_id m))]
                                     | None => []
                                     end)%list
            end) as (Ho7 & Hm7).
  { destruct mediation_record as [m|].
    2:{ injection Hmed as <- <- <- <-. simpl. by rewrite Ho5. }
    apply bind_Ok in Hmed as (c1 & w6' & Hset & Hmed).
    destruct conn_rec as [c|]; [|done].
    apply bind_Ok in Hset as (c' & w6'' & Hset & [= <- <-]).
    apply ConnRecord_metadata_set_Ok in Hset as (cid & Hcid & Hs & _ & Hmeta & ->).
    apply bind_Ok in Hmed as ([] & w7' & Hsend & [= <- <- <- <-]).
    assert (oob_store w7' = oob_store w5 ∧ conn_store w7' = <[cid := c']> (conn_store w5)
            ∧ trace w7'
              = (trace w5 ++ match keylist with
                             | Some updates =>
                                 [EvSend (OutKeylistUpdate updates)
                                    (ToConnection (mediation_connection_id m))]
                             | None => []
                             end)%list) as (Ho & Hc & Ht).
    { destruct keylist as [ku|].
      - apply bind_Ok in Hsend as ([] & w7'' & Hresp & Hsend).
        destruct responder_present; [|done]. injection Hresp as <-.
        unfold send in Hsend. apply bind_Ok in Hsend as ([] & w7'' & Hemit & Hsend).
        injection Hemit as <-. unfold call in Hsend. cbn [env] in Hsend.
        destruct (responder_send _ _ _) as [res7 e7]. by injection Hsend as -> <-.
      - injection Hsend as <-. cbn [oob_store conn_store trace set_env]. by rewrite app_nil_r. }
    split; [by rewrite Ho, Ho5|]. split; [done|]. split; [done|].
    exists c, c', cid. do 3 (split; [done|]). split; [exact Hs|]. by do 2 (split; [done|]). }
  (* the keys of the service block *)
  apply comprehension_Ok in Hrouting as [-> Hrouting].
  apply comprehension_Ok in Hrecipient as [-> Hrecipient].
  apply Forall2_cons_inv_l in Hrecipient as (recipient_key & rest & Hrk & Hrest & ->).
  apply Forall2_nil_inv_l in Hrest as ->.
  (* the invitation attached to the connection record *)
  match type of H with
  | create_invitation_record _ ?m _ _ _ = _ => set (invi_msg := m) in *
  end.
  assert (oob_store w10 = oob_store w ∧ trace w10 = trace w7
          ∧ match conn_rec' with
            | None => conn_rec'' = None ∧ conn_store w10 = conn_store w7
            | Some c =>
                ∃ c'' cid,
                  conn_rec'' = Some c'' ∧ ConnRecord.connection_id c = Some cid
                  ∧ same_but_notes c c''
                  ∧ ConnRecord.attached_invitation c'' = Some invi_msg
                  ∧ ConnRecord.metadata c'' = (ConnRecord.metadata c ++ metadata)%list
                  ∧ conn_store w10 = <[cid := c'']> (conn_store w7)
            end) as (Ho10 & Ht10 & Hc10).
  { destruct conn_rec' as [c|].
    2:{ by injection Hattach as <- <-. }
    apply bind_Ok in Hattach as (c1 & w9' & Hatt & Hattach).
    apply bind_Ok in Hattach as (c2 & w9'' & Hloop & [= <- <-]).
    apply metadata_loop_Ok in Hloop
      as (c1' & w1' & [= <- <-] & Hs2 & Ha2 & Hm2 & Ho2 & _ & Ht2 & Hc2).
    apply ConnRecord_attach_invitation_Ok in Hatt as (cid & Hcid & Hs1 & Ha1 & Hm1 & ->).
    cbn [oob_store conn_store trace] in *.
    split; [by rewrite Ho2, Ho7|]. split; [done|].
    exists c2, cid. split; [done|]. split; [done|].
    split; [by eapply same_but_notes_trans|]. split; [by rewrite Ha2|].
    split; [by rewrite Hm2, Hm1|].
    destruct metadata as [|kv metadata'].
    - rewrite Hc2.
      assert (c2 = c1) as ->; [|done].
      clear -Hs2 Ha2 Hm2. rewrite app_nil_r in Hm2. destruct c2, c1.
      unfold same_but_notes in Hs2. simpl in *. destruct_and!. by simplify_eq.
    - destruct Hc2 as (cid' & Hcid' & ->).
      destruct Hs1 as [Hid _]. rewrite Hid, Hcid in Hcid'. injection Hcid' as <-.
      by rewrite insert_insert_eq. }
  (* the sender record *)
  destruct (create_invitation_record_run conn_rec'' invi_msg (to_url invi_msg None)
              (Some (verkey connection_key)) w10) as (oid & e11 & Hrecord).
  rewrite Hrecord in H. injection H as <- <-. cbv zeta in Hrecord. clear Hrecord.
  exists connection_key, recipient_key, raw_routing_keys, routing_keys, endpoint, keylist, oid,
    (conn_rec'' ≫= ConnRecord.connection_id).
  cbv zeta. fold invi_msg. fold mode. cbn [oob_store conn_store trace].
  split; [done|]. split; [done|]. split; [by rewrite Ho10|].
  assert (∀ m, mediation_record = Some m → endpoint = mediation_endpoint m) as Hendpoint.
  { intros m ->. by destruct Hm7 as (_ & -> & _). }
  assert (multitenant_relay = None →
          raw_routing_keys = match mediation_record with
                             | Some m => mediation_routing_keys m
                             | None => []
                             end
          ∧ (mediation_record = None →
             endpoint = if truthy my_endpoint then my_endpoint else setting_default_endpoint)
          ∧ is_Some keylist) as Hrelay.
  { intros Hnone. destruct (Hbase' Hnone) as (-> & -> & ->). split; [|split; [|by eexists]].
    - destruct mediation_record as [m|]; by destruct Hm7 as (-> & _).
    - intros ->. by destruct Hm7 as (_ & -> & _). }
  assert (Forall2 (λ raw key, if bool_decide (split_len raw = 3%nat) then key = raw
                              else DIDKey_from_public_key_b58 raw = Ok key)
            raw_routing_keys routing_keys) as Hkeys.
  { eapply Forall2_impl; [exact Hrouting|]. intros raw key. simpl.
    case_bool_decide; [by intros [= ->] | done]. }
  destruct conn_rec as [c|].
  - destruct Hc5 as (Hprotos & cid & -> & Hstore5 & Ht5).
    set (c := ConnRecord.set_connection_id (Some cid) _) in *.
    assert (∃ c', conn_rec' = Some c' ∧ ConnRecord.connection_id c' = Some cid
                  ∧ same_but_notes c c'
                  ∧ ConnRecord.metadata c'
                    = match mediation_record with
                      | Some m => [(METADATA_KEY, mediation_id m)]
                      | None => []
                      end
                  ∧ conn_store w7 = <[cid := c']> (conn_store w)
                  ∧ trace w7
                    = (trace w5 ++ match mediation_record, keylist with
                                   | Some m, Some updates =>
                                       [EvSend (OutKeylistUpdate updates)
                                          (ToConnection (mediation_connection_id m))]
                                   | _, _ => []
                                   end)%list)
      as (c' & -> & Hcid' & Hs' & Hmeta' & Hstore7 & Ht7).
    { destruct mediation_record as [m|].
      - destruct Hm7 as (_ & _ & c0 & c' & cid0 & [= <-] & -> & Hcid0 & Hs & Hmeta & Hst & Ht).
        injection Hcid0 as <-.
        exists c'. split; [done|]. split; [by destruct Hs as [-> _]|].
        split; [done|]. split; [by rewrite Hmeta|].
        split; [by rewrite Hst, Hstore5, insert_insert_eq|]. done.
      - destruct Hm7 as (_ & _ & -> & -> & ->). exists c. rewrite app_nil_r.
        split; [done|]. split; [done|]. split; [apply same_but_notes_refl|]. done. }
    destruct Hc10 as (c'' & cid'' & -> & Hcid'' & Hs'' & Hatt'' & Hmeta'' & Hstore10).
    rewrite Hcid' in Hcid''. injection Hcid'' as <-.
    assert (Some c'' ≫= ConnRecord.connection_id = Some cid) as ->.
    { simpl. destruct Hs'' as [-> _]. done. }
    split.
    { rewrite Ht10, Ht7, Ht5. simpl. by rewrite <-!(assoc_L (++)%list). }
    split; [by split|]. split.
    { exists c''. split; [by rewrite Hstore10, Hstore7, insert_insert_eq|].
      split; [by eapply same_but_notes_trans|]. split; [done|].
      by rewrite Hmeta'', Hmeta'. }
    done.
  - destruct Hc5 as (Hprotos & Hstore5 & Ht5).
    destruct mediation_record as [m|].
    { by destruct Hm7 as (_ & _ & c0 & c' & cid0 & [=] & _). }
    destruct Hm7 as (_ & _ & -> & Hstore7 & Ht7). destruct Hc10 as (-> & Hstore10). simpl.
    split.
    { rewrite Ht10, Ht7, Ht5. simpl. by rewrite <-!(assoc_L (++)%list). }
    split; [by split|]. split; [by rewrite Hstore10, Hstore7, Hstore5|]. done.
Qed.

(** X20: a [create_invitation] that returns has saved one [OobRecord], as
    its last effect: the sender record of the returned invitation, in state
    AWAIT_RESPONSE, under the id it returns.  The record names a connection
    exactly when handshake protocols were given.  The invitation lists the
    qualified names of the handshake protocols in the order given, one
    attachment per reference, each threaded under the id of the
    invitation, and one service.  For a public invitation the service is
    the public DID, whose verkey is the recipient key of the record, and no
    key is created; otherwise the service is an inline block whose one
    recipient key is the [did:key] of the one key the call created, which
    is the recipient key of the record. *)
Theorem create_invitation_stores_one_sender_record my_label my_endpoint auto_accept public hs_protos multi_use
    alias attachments metadata mediation_id (w w' : World E) rec :
  create_invitation my_label my_endpoint auto_accept public hs_protos multi_use alias
    attachments metadata mediation_id w = (Ok rec, w') →
  ∃ oid connection_id key services t,
    let invi_msg :=
      {| InvitationMessage._id := InvitationRecord.invi_msg_id rec;
         InvitationMessage.label := or_else my_label setting_default_label;
         InvitationMessage.handshake_protocols :=
           (λ hsp, DIDCommPrefix_qualify_current (HSProto_name hsp)) <$> hs_protos;
         InvitationMessage.requests_attach :=
           InvitationMessage.requests_attach (InvitationRecord.invitation rec);
         InvitationMessage.services := services |} in
    let stored := sender_record oid invi_msg connection_id (Some key) in
    InvitationRecord.oob_id rec = Some oid
    ∧ InvitationRecord.invitation rec = invi_msg
    ∧ oob_store w' = <[oid := stored]> (oob_store w)
    ∧ trace w' = (trace w ++ t ++ [EvSaveOob stored])%list
    ∧ Forall not_an_oob_save t
    ∧ (connection_id = None ↔ hs_protos = [])
    ∧ length (InvitationMessage.requests_attach (InvitationRecord.invitation rec))
      = length attachments
    ∧ Forall (threaded_under (InvitationRecord.invi_msg_id rec))
        (InvitationMessage.requests_attach (InvitationRecord.invitation rec))
    ∧ if public
      then created_keys t = []
           ∧ ∃ public_did, services = [ServiceDID ("did:sov:" ++ did public_did)]
                           ∧ key = verkey public_did
      else created_keys t = [key]
           ∧ ∃ recipient_key routing_keys endpoint,
               services = [ServiceBlock
                             {| svc_id := "#inline"; svc_type := "did-communication";
                                recipient_keys := [recipient_key];
                                routing_keys := routing_keys;
                                service_endpoint := endpoint |}]
               ∧ DIDKey_from_public_key_b58 key = Ok recipient_key.
Proof.
  intros (mediation_record & id & resolved & w2 & _ & (Ho & Hc & _ & Ht) & _ & _ & _ & Hlen
          & _ & Hthreaded & Hbranch)%create_invitation_Ok.
  cbv zeta in Hbranch. destruct public.
  - apply create_invitation_public_Ok in Hbranch
      as (_ & public_did & endpoint & oid & -> & _ & Hrest). cbv zeta in Hrest.
    destruct hs_protos as [|hsp hs_protos]; simpl in Hrest.
    + destruct Hrest as (Hstore & _ & Htrace).
      exists oid, None, (verkey public_did), [ServiceDID ("did:sov:" ++ did public_did)], [].
      simpl. rewrite Hstore, Htrace, Ho, Ht. repeat split; try done. by exists public_did.
    + destruct Hrest as (cid & Hstore & _ & Htrace).
      eexists oid, (Some cid), (verkey public_did),
        [ServiceDID ("did:sov:" ++ did public_did)], [EvSaveConn _].
      simpl. rewrite Hstore, Htrace, Ho, Ht. repeat split; try done.
      * by repeat constructor.
      * by exists public_did.
  - apply create_invitation_pairwise_Ok in Hbranch
      as (connection_key & recipient_key & raw & routing_keys & endpoint & keylist & oid
          & connection_id & -> & Hrk & Hstore & Htrace & Hiff & _).
    cbv zeta in *.
    match type of Htrace with
    | _ = (_ ++ ?a ++ ?b ++ ?c ++ _)%list =>
        eexists oid, connection_id, (verkey connection_key), _, (a ++ b ++ c)%list
    end. simpl.
    rewrite Hstore, Htrace, Ho, Ht. split; [done|]. split; [done|]. split; [done|].
    split; [by rewrite <-!(assoc_L (++)%list)|]. split.
    { apply Forall_cons. split; [done|]. apply Forall_app. split.
      - destruct connection_id; by repeat constructor.
      - destruct mediation_record, keylist; by repeat constructor. }
    split.
    { split; [intros Hn; apply Hiff in Hn; by destruct hs_protos|].
      intros ->. by apply Hiff. }
    split; [done|]. split; [done|]. split.
    { unfold created_keys. cbn [omap list_omap]. rewrite omap_app.
      destruct connection_id, mediation_record, keylist; done. }
    by exists recipient_key, routing_keys, endpoint.
Qed.

(** X21: an invitation that [create_invitation] returns passes the checks
    of [receive_invitation].  Whatever the receiving agent's state and the
    other arguments, [receive_invitation] on it first saves a receiver
    record of the invitation, in state INITIAL, or it raises with stores,
    bus and effect log as they were because one of its two lookups raised:
    the mediation record or the existing connection. *)
Theorem created_invitation_passes_the_receivers_checks
    (my_label my_endpoint : option string) (auto_accept : option bool) (public : bool)
    (hs_protos : list HSProto) (multi_use : bool) (alias : option string)
    (attachments : list AttachRef) (metadata : list (string * string))
    (mediation_id : option string) (w w' : World E) (rec : InvitationRecord.t)
    (use_existing_connection : bool) (receiver_accept : option bool)
    (receiver_alias receiver_mediation_id : option string) (v : World E) :
  create_invitation my_label my_endpoint auto_accept public hs_protos multi_use alias
    attachments metadata mediation_id w = (Ok rec, w') →
  let invitation := InvitationRecord.invitation rec in
  let out :=
    receive_invitation invitation use_existing_connection receiver_accept receiver_alias
      receiver_mediation_id v in
  (∃ r0 t,
     trace out.2 = (trace v ++ EvSaveOob r0 :: t)%list
     ∧ OobRecord.role r0 = OobRecord.ROLE_RECEIVER
     ∧ OobRecord.state r0 = OobRecord.STATE_INITIAL
     ∧ OobRecord.invi_msg_id r0 = InvitationRecord.invi_msg_id rec
     ∧ OobRecord.invitation r0 = invitation)
  ∨ (∃ err,
       out.1 = Raise err
       ∧ untouched v out.2
       ∧ ((truthy receiver_mediation_id = true
           ∧ (mediation_record_if_id receiver_mediation_id false (env v)).1 = Raise err
           ∧ err ≠ StorageNotFoundError)
          ∨ ∃ public_did e, (find_existing_connection public_did e).1 = Raise err)).
Proof.
  intros Hcreate invitation out.
  assert (length (InvitationMessage.services invitation) = 1%nat
          ∧ (InvitationMessage.requests_attach invitation ≠ []
             ∨ InvitationMessage.handshake_protocols invitation ≠ [])
          ∧ InvitationMessage._id invitation = InvitationRecord.invi_msg_id rec)
    as (Hlen & Hvalid & Hid).
  { subst invitation.
    apply create_invitation_Ok in Hcreate
      as (mediation_record & id & resolved & w2 & _ & _ & Hgiven & _ & _ & Hres & _ & _
          & Hbranch).
    cbv zeta in Hbranch.
    assert (resolved ≠ [] ∨ ((λ hsp, DIDCommPrefix_qualify_current (HSProto_name hsp))
                             <$> hs_protos) ≠ []) as Hnonempty.
    { destruct Hgiven as [Hhs|Hatt].
      - right. by destruct hs_protos.
      - left. destruct attachments; [done|]. by destruct resolved. }
    destruct public.
    - apply create_invitation_public_Ok in Hbranch
        as (_ & public_did & endpoint & oid & -> & _). by cbn.
    - apply create_invitation_pairwise_Ok in Hbranch
        as (connection_key & recipient_key & raw & routing_keys & endpoint & keylist & oid
            & connection_id & -> & _). by cbn. }
  subst out. unfold receive_invitation. rewrite run_bind.
  destruct (receive_invitation_begin invitation use_existing_connection
              receiver_mediation_id v)
    as [[[[mediation_id' r0] c0]|err] w0] eqn:Hbegin;
    apply receive_invitation_begin_run in Hbegin.
  - left. destruct Hbegin as (id & Hr0 & _ & _ & Ht0 & _).
    match goal with
    | |- context [(?rest w0).2] => assert (logs (λ _, True) w0 (rest w0).2) as (t & Ht & _)
    end.
    { destruct (reuse_candidate invitation c0) as [found|].
      - apply always_bind; [apply _| |intros ra].
        + intros w1. eapply logs_weaken; [|apply logs_reuse_before_connecting]. done.
        + destruct (bool_decide _); [apply always_ret, _|].
          intros w1. eapply logs_weaken; [|apply logs_connect_not_of_a_reuse]. done.
      - eapply logs_weaken; [|apply logs_connect_not_of_a_reuse]. done. }
    exists r0, t. split.
    { rewrite Ht, Ht0. by rewrite <-(assoc_L (++)%list). }
    rewrite Hr0. cbn. by rewrite Hid.
  - right. exists err. split; [done|]. destruct Hbegin as (Hsame & Herr).
    split; [done|].
    destruct Herr as [[? _]|[(_ & Hatt & Hhs & _)|[Hmediation|(_ & _ & Hfind)]]].
    + done.
    + by destruct Hvalid.
    + by left.
    + by right.
Qed.

(** X22: [create_invitation] makes a connection record exactly when
    handshake protocols are given.  Without them the connection store is
    as it was and the stored sender record names no connection.  With them
    the store gains one record, under the connection id that the stored
    sender record names: made for the invitation and its key, in state
    invitation with the other party as requester, accepting automatically
    or manually as asked, with the caller's alias, the name of the first
    protocol given, and the returned invitation attached; a pairwise
    invitation's record is multi-use exactly when asked. *)
Theorem invitation_connection_is_made_iff_handshake_is_offered
    (my_label my_endpoint : option string) (auto_accept : option bool) (public : bool)
    (hs_protos : list HSProto) (multi_use : bool) (alias : option string)
    (attachments : list AttachRef) (metadata : list (string * string))
    (mediation_id : option string) (w w' : World E) (rec : InvitationRecord.t) :
  create_invitation my_label my_endpoint auto_accept public hs_protos multi_use alias
    attachments metadata mediation_id w = (Ok rec, w') →
  ∃ oid stored,
    InvitationRecord.oob_id rec = Some oid
    ∧ oob_store w' !! oid = Some stored
    ∧ match hs_protos with
      | [] => OobRecord.connection_id stored = None ∧ conn_store w' = conn_store w
      | hsp :: _ =>
          ∃ cid c,
            OobRecord.connection_id stored = Some cid
            ∧ conn_store w' = <[cid := c]> (conn_store w)
            ∧ ConnRecord.connection_id c = Some cid
            ∧ made_for_invitation (InvitationRecord.invi_msg_id rec)
                (OobRecord.our_recipient_key stored) (accepts auto_accept) alias
                (Some (HSProto_name hsp)) c
            ∧ ConnRecord.attached_invitation c = Some (InvitationRecord.invitation rec)
            ∧ (public = false →
               ConnRecord.invitation_mode c
               = if multi_use then ConnRecord.INVITATION_MODE_MULTI
                 else ConnRecord.INVITATION_MODE_ONCE)
      end.
Proof.
  intros (mediation_record & id & resolved & w2 & _ & (_ & Hc & _) & _ & _ & _ & _ & _ & _
          & Hbranch)%create_invitation_Ok.
  cbv zeta in Hbranch. destruct public.
  - apply create_invitation_public_Ok in Hbranch
      as (_ & public_did & endpoint & oid & -> & _ & Hrest). cbv zeta in Hrest.
    destruct hs_protos as [|hsp hs_protos]; cbn [fmap list_fmap] in Hrest.
    + destruct Hrest as (Hstore & Hconn & _). eexists oid, _.
      split; [done|]. rewrite Hstore, lookup_insert_eq. split; [done|].
      split; [done|]. by rewrite Hconn.
    + destruct Hrest as (cid & Hstore & Hconn & _). eexists oid, _.
      split; [done|]. rewrite Hstore, lookup_insert_eq. split; [done|].
      eexists cid, _. split; [done|]. rewrite Hconn, Hc. split; [done|]. done.
  - apply create_invitation_pairwise_Ok in Hbranch
      as (connection_key & recipient_key & raw & routing_keys & endpoint & keylist & oid
          & connection_id & -> & _ & Hstore & _ & Hiff & Hconn & _).
    cbv zeta in Hconn. eexists oid, _.
    split; [done|]. rewrite Hstore, lookup_insert_eq. split; [done|].
    destruct hs_protos as [|hsp hs_protos].
    + assert (connection_id = None) as -> by (by apply Hiff).
      destruct Hconn as (Hconn & _). split; [done|]. by rewrite Hconn.
    + destruct connection_id as [cid|]; [|by destruct Hiff as [_ Hnil]; specialize (Hnil eq_refl)].
      destruct Hconn as (c & Hconn & Hsame & Hattached & _).
      exists cid, c. split; [done|]. rewrite Hconn, Hc. split; [done|].
      destruct Hsame as (Hid & Hkey & Hmsg & Hrole & Hstate & Haccept & Hmode & Halias
                         & Hproto & _).
      split; [by rewrite Hid|]. split.
      { unfold made_for_invitation. by rewrite Hkey, Hmsg, Hrole, Hstate, Haccept, Halias, Hproto. }
      split; [done|]. intros _. by rewrite Hmode.
Qed.

(** X23: no public invitation is made when public invitations are not
    enabled or the wallet has no public DID.  [create_invitation] with
    [public] raises, and stores, bus and effect log are as they were; when
    nothing before the two checks fails (here: handshake protocols given,
    no attachment, no metadata, not multi-use, and a mediation lookup that
    returns), the error is the [OutOfBandManagerError] of the failed check,
    the setting being checked first. *)
Theorem public_invitation_needs_setting_and_public_did
    (my_label my_endpoint : option string) (auto_accept : option bool)
    (hs_protos : list HSProto) (multi_use : bool) (alias : option string)
    (attachments : list AttachRef) (metadata : list (string * string))
    (mediation_id : option string) (w : World E) :
  setting_public_invites = false ∨ (∀ e, (wallet_get_public_did e).1 = Ok None) →
  ∃ err w',
    create_invitation my_label my_endpoint auto_accept true hs_protos multi_use alias
      attachments metadata mediation_id w = (Raise err, w')
    ∧ untouched w w'
    ∧ (hs_protos ≠ [] → attachments = [] → metadata = [] → multi_use = false →
       (∃ m, (mediation_record_if_id mediation_id true (env w)).1 = Ok m) →
       err = OutOfBandManagerError
               (if setting_public_invites then NoPublicDid else PublicInvitesNotEnabled)).
Proof.
  intros Hno.
  destruct (create_invitation my_label my_endpoint auto_accept true hs_protos multi_use alias
              attachments metadata mediation_id w) as [[rec|err] w'] eqn:Hrun.
  { apply create_invitation_Ok in Hrun
      as (mediation_record & id & resolved & w2 & _ & _ & _ & _ & _ & _ & _ & _ & Hbranch).
    cbv zeta in Hbranch. exfalso.
    apply create_invitation_public_Ok in Hbranch
      as (Hset & public_did & endpoint & oid & _ & (e & e' & Hdid) & _).
    destruct Hno as [Hno|Hno]; [by rewrite Hno in Hset|].
    specialize (Hno e). by rewrite Hdid in Hno. }
  exists err, w'. split; [done|].
  revert Hrun. unfold create_invitation. rewrite run_bind.
  destruct (call (mediation_record_if_id mediation_id true) w) as [[mediation_record|err1] w1]
    eqn:Hmediation.
  2:{ intros [= <- <-]. split.
      { exact (always_run _ _ _ _ _ (untouched_call _) Hmediation). }
      intros _ _ _ _ [m Hm]. unfold call in Hmediation.
      destruct (mediation_record_if_id mediation_id true (env w)) as [res e1].
      simpl in Hm. subst res. by injection Hmediation. }
  pose proof (always_run _ _ _ _ _ (untouched_call _) Hmediation) as Hw1.
  destruct (negb (nonempty hs_protos || nonempty attachments)) eqn:Hempty.
  { intros [= <- <-]. split; [done|]. intros Hhs. by destruct hs_protos. }
  destruct (true && multi_use) eqn:Hpm.
  { intros [= <- <-]. split; [done|]. intros _ _ _ ->. done. }
  destruct (true && nonempty metadata) eqn:Hpmeta.
  { intros [= <- <-]. split; [done|]. intros _ _ ->. done. }
  destruct (nonempty attachments && multi_use) eqn:Ham.
  { intros [= <- <-]. split; [done|]. intros _ _ _ ->. by rewrite andb_false_r in Ham. }
  rewrite run_bind.
  destruct (call (total uuid4) w1) as [[invitation_message_id|err2] w2] eqn:Huuid.
  2:{ unfold call, total in Huuid. destruct (uuid4 (env w1)). done. }
  pose proof (always_run _ _ _ _ _ (untouched_call _) Huuid) as Hw2.
  rewrite run_bind.
  destruct (resolve_attachments invitation_message_id attachments w2)
    as [[message_attachments|err3] w3] eqn:Hresolve.
  2:{ intros [= <- <-]. split.
      { etrans; [exact Hw1|]. etrans; [exact Hw2|].
        exact (always_run _ _ _ _ _ (untouched_resolve_attachments _ _) Hresolve). }
      intros _ ->. done. }
  pose proof (always_run _ _ _ _ _ (untouched_resolve_attachments _ _) Hresolve) as Hw3.
  assert (untouched w w3) as Hsame by (etrans; [exact Hw1|]; by etrans).
  cbv zeta. unfold create_invitation_public.
  destruct setting_public_invites eqn:Hset; cbn [negb].
  2:{ intros [= <- <-]. by split. }
  destruct Hno as [[=]|Hno]. rewrite run_bind.
  destruct (call wallet_get_public_did w3) as [[public_did|err4] w4] eqn:Hdid.
  2:{ unfold call in Hdid. specialize (Hno (env w3)).
      destruct (wallet_get_public_did (env w3)) as [res e4]. simpl in Hno. subst res. done. }
  pose proof (always_run _ _ _ _ _ (untouched_call _) Hdid) as Hw4.
  unfold call in Hdid. specialize (Hno (env w3)).
  destruct (wallet_get_public_did (env w3)) as [res e4]. simpl in Hno. subst res.
  injection Hdid as <- _. intros [= <- <-]. split; [by etrans|]. done.
Qed.

(** X24: a pairwise invitation made with a mediation record is routed
    through the mediator.  With no multitenant relay, the one service of
    the invitation has the endpoint of the mediation record and, as its
    routing keys, the routing keys of the mediation record, each as it is
    when it has three colon-separated parts and as its [did:key]
    otherwise.  The call hands one message to the responder, the keylist
    update for the new key, addressed to the mediator's connection.  Such
    an invitation has handshake protocols, and the first thing written
    next to its connection record is the id of the mediation record. *)
Theorem pairwise_invitation_is_routed_through_the_mediator
    (my_label my_endpoint : option string) (auto_accept : option bool)
    (hs_protos : list HSProto) (multi_use : bool) (alias : option string)
    (attachments : list AttachRef) (metadata : list (string * string))
    (requested_mediation : option string) (w w' : World E) (rec : InvitationRecord.t)
    (m : MediationRecord) (e1 : E) :
  multitenant_relay = None →
  mediation_record_if_id requested_mediation true (env w) = (Ok (Some m), e1) →
  create_invitation my_label my_endpoint auto_accept false hs_protos multi_use alias
    attachments metadata requested_mediation w = (Ok rec, w') →
  ∃ recipient_key routing_keys t updates cid c,
    InvitationMessage.services (InvitationRecord.invitation rec)
    = [ServiceBlock {| svc_id := "#inline"; svc_type := "did-communication";
                       recipient_keys := [recipient_key];
                       routing_keys := routing_keys;
                       service_endpoint := mediation_endpoint m |}]
    ∧ Forall2 (λ raw key, if bool_decide (split_len raw = 3%nat) then key = raw
                          else DIDKey_from_public_key_b58 raw = Ok key)
        (mediation_routing_keys m) routing_keys
    ∧ trace w' = (trace w ++ t)%list
    ∧ sent_messages t
      = [(OutKeylistUpdate updates, ToConnection (mediation_connection_id m))]
    ∧ hs_protos ≠ []
    ∧ conn_store w' !! cid = Some c
    ∧ ConnRecord.metadata c
      = ((METADATA_KEY, mediation_id m) :: metadata).
Proof.
  intros Hrelay Hmediation
    (mediation_record & id & resolved & w2 & (e1' & Hm) & (_ & _ & _ & Ht) & _ & _ & _ & _
     & _ & _ & Hbranch)%create_invitation_Ok.
  rewrite Hmediation in Hm. injection Hm as <- _.
  cbv zeta in Hbranch.
  apply create_invitation_pairwise_Ok in Hbranch
    as (connection_key & recipient_key & raw & routing_keys & endpoint & keylist & oid
        & connection_id & -> & _ & _ & Htrace & Hiff & Hconn & Hkeys & Hendpoint & Hnorelay).
  destruct (Hnorelay Hrelay) as (-> & _ & [updates ->]).
  cbv zeta in Hconn, Htrace.
  destruct connection_id as [cid|]; [|by destruct Hconn as [_ [=]]].
  destruct Hconn as (c & Hconn & _ & _ & Hmeta).
  match type of Htrace with
  | _ = (_ ++ ?t)%list => exists recipient_key, routing_keys, t, updates, cid, c
  end.
  split; [by rewrite (Hendpoint m eq_refl)|]. split; [done|].
  split; [by rewrite Htrace, Ht|]. split; [done|]. split.
  { intros ->. by destruct Hiff as [Hnil _]; specialize (Hnil eq_refl). }
  split; [by rewrite Hconn, lookup_insert_eq|]. done.
Qed.

Lemma first_supported_of_qualified_names (hs_protos : list HSProto) :
  (∀ p, HSProto_get (DIDCommPrefix_unqualify (DIDCommPrefix_qualify_current (HSProto_name p)))
        = Some p) →
  first_supported ((λ hsp, DIDCommPrefix_qualify_current (HSProto_name hsp)) <$> hs_protos)
  = head hs_protos.
Proof.
  intros Hget. unfold first_supported. destruct hs_protos as [|hsp rest]; [done|].
  cbn [fmap list_fmap omap list_omap]. by rewrite Hget.
Qed.

(** X25: the invitee starts the handshake that the inviter put first.  When
    every handshake protocol is found again under its qualified name, a
    [receive_invitation] that completes on an invitation which
    [create_invitation] made without attachments, with no reuse in play
    (no [use_existing_connection], or a pairwise invitation), has started
    one handshake, with the first protocol given to [create_invitation],
    has sent nothing, and returns a record in state DONE that names a
    connection.  The invitation of that record is the one made, as the
    handshake left it: the very same for a public invitation and after a
    handshake over RFC23, and with the converted keys in its inline service
    entry after a handshake over RFC160. *)
Theorem invitee_starts_the_inviters_first_protocol
    (my_label my_endpoint : option string) (auto_accept : option bool) (public : bool)
    (hs_protos : list HSProto) (multi_use : bool) (alias : option string)
    (metadata : list (string * string)) (mediation_id : option string)
    (w w' : World E) (rec : InvitationRecord.t)
    (use_existing_connection : bool) (receiver_accept : option bool)
    (receiver_alias receiver_mediation_id : option string) (v v' : World E)
    (r : OobRecord.t) :
  (∀ p, HSProto_get (DIDCommPrefix_unqualify (DIDCommPrefix_qualify_current (HSProto_name p)))
        = Some p) →
  use_existing_connection = false ∨ public = false →
  create_invitation my_label my_endpoint auto_accept public hs_protos multi_use alias
    [] metadata mediation_id w = (Ok rec, w') →
  receive_invitation (InvitationRecord.invitation rec) use_existing_connection receiver_accept
    receiver_alias receiver_mediation_id v = (Ok r, v') →
  ∃ hsp t cid,
    head hs_protos = Some hsp
    ∧ trace v' = (trace v ++ t)%list
    ∧ handshakes t = [hsp]
    ∧ sent_messages t = []
    ∧ OobRecord.state r = OobRecord.STATE_DONE
    ∧ OobRecord.connection_id r = Some cid
    ∧ after_handshake hsp (InvitationRecord.invitation rec) (OobRecord.invitation r)
    ∧ (public = true ∨ hsp = RFC23 →
       OobRecord.invitation r = InvitationRecord.invitation rec).
Proof.
  intros Hget Hnoreuse Hcreate Hreceive.
  set (invitation := InvitationRecord.invitation rec) in *.
  assert (InvitationMessage.requests_attach invitation = []
          ∧ InvitationMessage.handshake_protocols invitation
            = ((λ hsp, DIDCommPrefix_qualify_current (HSProto_name hsp)) <$> hs_protos)
          ∧ hs_protos ≠ []
          ∧ (public = false →
             ∃ service, InvitationMessage.services invitation = [ServiceBlock service])
          ∧ (public = true →
             ∃ did, InvitationMessage.services invitation = [ServiceDID did]))
    as (Hattach & Hprotos & Hgiven & Hblock & Hdid).
  { subst invitation.
    apply create_invitation_Ok in Hcreate
      as (mediation_record & id & resolved & w2 & _ & _ & Hgiven & _ & _ & Hres & _ & _
          & Hbranch).
    cbv zeta in Hbranch. destruct resolved; [|done].
    assert (hs_protos ≠ []) as Hhs by (by destruct Hgiven).
    destruct public.
    - apply create_invitation_public_Ok in Hbranch
        as (_ & public_did & endpoint & oid & -> & _). cbn.
      do 3 (split; [done|]). split; [done|]. intros _. by eexists.
    - apply create_invitation_pairwise_Ok in Hbranch
        as (connection_key & recipient_key & raw & routing_keys & endpoint & keylist & oid
            & connection_id & -> & _). cbn. do 3 (split; [done|]).
      split; [|done]. intros _. by eexists. }
  revert Hreceive. unfold receive_invitation.
  intros ([[mediation_id' r0] c0] & w0 & Hbegin & Hrest)%bind_Ok.
  apply receive_invitation_begin_run in Hbegin as (id & Hr0 & _ & _ & Ht0 & _ & _ & Hc0).
  rewrite Hc0 in Hrest.
  2:{ destruct Hnoreuse as [?|Hpairwise]; [by left|]. right.
      destruct (Hblock Hpairwise) as [service ->]. by eexists _, _. }
  assert (reuse_candidate invitation None = None) as Hnone
    by (unfold reuse_candidate; by destruct (nonempty _)).
  rewrite Hnone in Hrest.
  apply receive_invitation_connect_fresh in Hrest
    as (protocol & cid & r1 & Hfirst & Ht & -> & Hcid & _ & Hinv & _).
  2:{ done. }
  2:{ rewrite Hprotos. by destruct hs_protos. }
  assert (OobRecord.invitation r0 = invitation) as Hinv0 by (by rewrite Hr0).
  rewrite Hinv0 in Hinv.
  rewrite Hinv0, Hprotos, first_supported_of_qualified_names in Hfirst by done.
  exists protocol, [EvSaveOob r0; EvHandshake protocol; EvSaveOob r1; EvRetrieveConn (Some cid)],
    cid.
  split; [done|]. split.
  { rewrite Ht, Ht0. by rewrite <-(assoc_L (++)%list). }
  split; [done|]. split; [done|]. split; [done|]. split; [done|].
  cbn. split; [exact Hinv|]. destruct Hinv as [_ Hinv].
  intros [->| ->].
  - destruct (Hdid eq_refl) as [did Hservices]. rewrite Hservices in Hinv.
    by destruct protocol.
  - by destruct (InvitationMessage.services invitation) as [|[] ?].
Qed.

End Properties.

(** * The scripted environment: instances and counterexamples *)

Section Scripted.
Import Scenario.

(** C1 at a reuse that nobody answers: the wait times out on the stored
    record, which still awaits a response. *)
Lemma reuse_timeout_clears_connection_witness :
  let w := start unanswered in
  let created := _create_handshake_reuse_message pending known w in
  let r1 := value pending created in
  let waited :=
    _wait_for_reuse_response (OobRecord.oob_id r1) reuse_response_timeout created.2 in
  let r2 := value pending waited in
  created = (Ok r1, created.2)
  ∧ waited = (Ok r2, waited.2)
  ∧ OobRecord.state r2 ≠ OobRecord.STATE_ACCEPTED
  ∧ ∃ r3 w3,
      _handle_hanshake_reuse pending known w = (Ok r3, w3)
      ∧ OobRecord.connection_id r3 = None
      ∧ OobRecord.state r3 = OobRecord.STATE_AWAIT_RESPONSE.
Proof.
  intros w created r1 waited r2.
  assert (created = (Ok r1, created.2)) as H1 by (vm_compute; reflexivity).
  assert (waited = (Ok r2, waited.2)) as H2 by (vm_compute; reflexivity).
  assert (OobRecord.state r2 ≠ OobRecord.STATE_ACCEPTED) as H3 by (vm_compute; discriminate).
  split; [exact H1|]. split; [exact H2|]. split; [exact H3|].
  destruct (reuse_not_accepted_clears_connection_and_notifies_once
              pending known w created.2 waited.2 r1 r2 H1 H2 H3)
    as (r3 & w3 & t & Hrun & Hcleared & Hstate & _).
  exists r3, w3. split; [exact Hrun|]. split; [exact Hcleared|].
  rewrite Hstate. vm_compute. reflexivity.
Defined.

(** C2 at an empty store. *)
Lemma reuse_message_without_record_witness :
  _thread reuse = Some {| thid := "reuse-1"; pthid := "inv-1" |}
  ∧ responder_present = true
  ∧ ∃ w', receive_reuse_message reuse receipt known (start quiet)
          = (Raise StorageNotFoundError, w').
Proof.
  split; [reflexivity|]. split; [reflexivity|].
  destruct (reuse_message_without_record_raises_unwrapped
              reuse receipt known {| thid := "reuse-1"; pthid := "inv-1" |} (start quiet))
    as (w' & Hrun & _).
  - reflexivity.
  - intros k r Hk. simpl in Hk. rewrite lookup_empty in Hk. discriminate.
  - reflexivity.
  - intros e. eexists _, _. reflexivity.
  - exists w'. exact Hrun.
Defined.

(** C3 at a reuse that is accepted. *)
Lemma receive_invitation_reuse_accepted_witness :
  let run := receive_invitation invitation true None None None (start accepted) in
  run = (Ok (value pending run), run.2)
  ∧ OobRecord.state (value pending run) = OobRecord.STATE_ACCEPTED
  ∧ ∃ mediation_id' r0 c0 w0,
      receive_invitation_begin invitation true None (start accepted)
      = (Ok (mediation_id', r0, c0), w0).
Proof.
  intros run.
  assert (run = (Ok (value pending run), run.2)) as Hrun by (vm_compute; reflexivity).
  split; [exact Hrun|]. split; [vm_compute; reflexivity|].
  destruct (receive_invitation_returns_early_iff_reuse_accepted
              invitation true None None None (start accepted) run.2 (value pending run) Hrun)
    as (mediation_id' & r0 & c0 & w0 & Hbegin & _).
  exists mediation_id', r0, c0, w0. exact Hbegin.
Defined.



(** An invitation that lists one protocol, which is not supported: the
    error carries the looked-up list. *)
Lemma unsupported_protocol_raises :
  (_perform_handshake pending_unsupported None None None (start quiet)).1
  = Raise (OutOfBandManagerError (UnableToCreateConnection [None])).
Proof. reflexivity. Qed.


(** C6 at a public multi-use invitation. *)
Lemma public_multi_use_fails_witness :
  ∃ err w',
    create_invitation None None None true [RFC23] true None [] [] None (start quiet)
    = (Raise err, w')
    ∧ untouched (start quiet) w'.
Proof.
  apply create_invitation_validation_fails_before_persisting.
  right. left. split; reflexivity.
Defined.



(** C8 at the stored record [reused]. *)
Lemma reuse_accept_redelivered_witness :
  oob_store with_reused !! "oob-1" = Some reused
  ∧ OobRecord.state reused = OobRecord.STATE_ACCEPTED
  ∧ ∃ w',
      receive_reuse_accepted_message answer receipt known with_reused = (Ok tt, w')
      ∧ oob_store w' = oob_store with_reused.
Proof.
  assert (oob_store with_reused !! "oob-1" = Some reused) as Hstored
    by apply lookup_singleton_eq.
  split; [exact Hstored|]. split; [reflexivity|].
  destruct (reuse_accept_redelivered_keeps_accepted_record
              answer receipt known {| thid := "uuid-1"; pthid := "inv-1" |} "oob-1" reused
              with_reused)
    as (w' & Hrun & Hsame & _); try reflexivity; try exact Hstored.
  - intros k' r' Hk' _ _. simpl in Hk'. apply lookup_singleton_Some in Hk' as [<- _].
    reflexivity.
  - exists w'. split; [exact Hrun | exact Hsame].
Defined.

(** C9 at a credential offer under mediation. *)
Lemma pairwise_attachment_invitation_crashes_witness :
  ∃ key w',
    create_invitation None None None false [] false None [offer] [] None (start mediated)
    = (Raise (AttributeError "metadata_set"), w')
    ∧ trace w' = [EvCreateKey key]
    ∧ oob_store w' = ∅.
Proof.
  destruct (pairwise_attachment_invitation_with_mediation_crashes
              None None None None [offer] [] None mediator mediated (start mediated))
    as (key & w' & Hrun & Htrace & Hstore & _).
  - discriminate.
  - reflexivity.
  - intros id w0. eexists _, _. reflexivity.
  - intros e. eexists _, _. reflexivity.
  - intros key message e. eexists _, _. reflexivity.
  - intros wallet_id key skip e. eexists. reflexivity.
  - intros e. eexists _, _. reflexivity.
  - exists key, w'. split; [exact Hrun|]. split; [exact Htrace | exact Hstore].
Defined.

(** C10 at a reuse that a problem report rejects. *)
Lemma done_is_returned_but_never_saved_witness :
  let run := receive_invitation invitation true None None None (start rejected) in
  let r := value pending run in
  run = (Ok r, run.2)
  ∧ OobRecord.state r = OobRecord.STATE_DONE
  ∧ ∃ id stored,
      OobRecord.oob_id r = Some id
      ∧ oob_store run.2 !! id = Some stored
      ∧ OobRecord.state stored ≠ OobRecord.STATE_DONE.
Proof.
  intros run r.
  assert (run = (Ok r, run.2)) as Hrun by (vm_compute; reflexivity).
  assert (OobRecord.state r = OobRecord.STATE_DONE) as Hdone by (vm_compute; reflexivity).
  split; [exact Hrun|]. split; [exact Hdone|].
  destruct (done_is_returned_but_never_saved
              invitation true None None None (start rejected) run.2 r Hrun Hdone)
    as (_ & id & stored & Hid & Hstored & Hnot & _).
  exists id, stored. split; [exact Hid|]. split; [exact Hstored | exact Hnot].
Defined.

(** C10 as the spec words it does not hold: after a problem report the
    stored record is NOT_ACCEPTED, neither INITIAL nor AWAIT_RESPONSE, while
    the returned record is DONE. *)
Lemma stored_state_after_problem_report :
  let run := receive_invitation invitation true None None None (start rejected) in
  ∃ r stored,
    run.1 = Ok r
    ∧ OobRecord.state r = OobRecord.STATE_DONE
    ∧ oob_store run.2 !! "uuid-0" = Some stored
    ∧ OobRecord.state stored = OobRecord.STATE_NOT_ACCEPTED
    ∧ ¬ stored_initial_or_awaiting r run.2.
Proof.
  intros run. eexists _, _.
  split; [vm_compute; reflexivity|]. split; [reflexivity|].
  split; [vm_compute; reflexivity|]. split; [reflexivity|].
  intros (id & stored & Hid & Hstored & Hstate).
  injection Hid as <-. vm_compute in Hstored. injection Hstored as <-.
  rewrite !elem_of_cons, elem_of_nil in Hstate.
  destruct Hstate as [Hs|[Hs|[]]]; discriminate.
Defined.

Import Cases.

Lemma reused_is_the_record_of_the_thread :
  the_record_of_thread the_thread "oob-1" reused (oob_store with_reused).
Proof.
  split; [apply lookup_singleton_eq|]. do 3 (split; [reflexivity|]).
  intros k' r' Hk' _ _. simpl in Hk'. by apply lookup_singleton_Some in Hk' as [<- _].
Qed.

(** X2 at a problem report for the stored record [reused], which is
    ACCEPTED. *)
Lemma problem_report_rejects_silently_witness :
  OobRecord.state reused = OobRecord.STATE_ACCEPTED
  ∧ ∃ w',
      receive_problem_report answer receipt known with_reused = (Ok tt, w')
      ∧ stored_state "oob-1" w' = Some OobRecord.STATE_NOT_ACCEPTED
      ∧ notifications (trace w') = [].
Proof.
  split; [reflexivity|].
  destruct (problem_report_rejects_silently answer receipt known the_thread "oob-1" reused
              with_reused eq_refl reused_is_the_record_of_the_thread)
    as (w' & Hrun & Hstore & _ & Htrace).
  exists w'. split; [exact Hrun|]. split.
  - unfold stored_state. rewrite Hstore, lookup_insert_eq. reflexivity.
  - rewrite Htrace. reflexivity.
Defined.

(** X3 at a reuse-accept for the stored record [reused]. *)
Lemma reuse_accept_binds_connection_witness :
  ∃ w' c,
    receive_reuse_accepted_message answer receipt known with_reused = (Ok tt, w')
    ∧ conn_store w' !! "conn-known" = Some c
    ∧ ConnRecord.invitation_msg_id c = Some "inv-1".
Proof.
  destruct (reuse_accept_binds_connection_to_invitation answer receipt known the_thread "oob-1"
              reused with_reused eq_refl reused_is_the_record_of_the_thread)
    as (w' & cid & Hrun & _ & Hconn & Hcid).
  specialize (Hcid "conn-known" eq_refl). subst cid.
  eexists w', _. split; [exact Hrun|]. rewrite Hconn, lookup_insert_eq. split; reflexivity.
Defined.

(** X4 at the two answers for the stored record [reused]. *)
Lemma last_reuse_answer_wins_witness :
  ∃ w1 w2,
    receive_reuse_accepted_message answer receipt known with_reused = (Ok tt, w1)
    ∧ receive_problem_report answer receipt known w1 = (Ok tt, w2)
    ∧ stored_state "oob-1" w2 = Some OobRecord.STATE_NOT_ACCEPTED.
Proof.
  destruct (last_reuse_answer_wins answer answer receipt known the_thread "oob-1" reused
              with_reused eq_refl eq_refl reused_is_the_record_of_the_thread)
    as [(w1 & w2 & H1 & H2 & H3) _].
  exists w1, w2. split; [exact H1|]. split; [exact H2 | exact H3].
Defined.

(** X5 at an answer that no record belongs to. *)
Lemma reuse_answers_wrap_every_failure_witness :
  (receive_reuse_accepted_message answer receipt known (start quiet)).1
  = Raise (OutOfBandManagerError (ErrorProcessingReuseAccepted "inv-1" StorageNotFoundError)).
Proof.
  destruct (reuse_answers_wrap_every_failure (E:=Env)) as (Haccept & _).
  destruct (Haccept answer receipt known the_thread (start quiet) eq_refl) as [_ Hnone].
  apply Hnone. intros k r Hk. simpl in Hk. rewrite lookup_empty in Hk. discriminate.
Defined.

(** X6 at the reuse message for the stored sender record [sent]. *)
Lemma reuse_message_accepts_and_echoes_thread_witness :
  let run := receive_reuse_message reuse receipt known with_sent in
  run = (Ok tt, run.2)
  ∧ ∃ accept targets,
      sent_messages (trace run.2) = [(OutReuseAccept accept, ToTargets targets)]
      ∧ _thread accept = _thread reuse.
Proof.
  intros run.
  assert (run = (Ok tt, run.2)) as Hrun by (vm_compute; reflexivity).
  split; [exact Hrun|].
  destruct (reuse_message_accepts_and_echoes_thread reuse receipt known with_sent run.2 Hrun)
    as (thread & k & stored & accept & targets & t & Hthread & _ & _ & _ & _ & _ & _ & Ht
        & Hsent & Haccept).
  exists accept, targets. rewrite Ht. split; [exact Hsent|]. rewrite Haccept. symmetry.
  exact Hthread.
Defined.

(** X8 at the reuse of [pending]: the invitee's store holds the one record. *)
Lemma reuse_round_trip_witness :
  let created := _create_handshake_reuse_message pending known (start unanswered) in
  let r1 := value pending created in
  created = (Ok r1, created.2)
  ∧ ∃ reuse_msg targets,
      sent_messages (trace created.2) = [(OutReuse reuse_msg, ToTargets targets)]
      ∧ ∀ receipt_v conn_v wv wv',
          receive_reuse_message reuse_msg receipt_v conn_v wv = (Ok tt, wv') →
          ∃ accept targets_v,
            sent_messages (drop (length (trace wv)) (trace wv'))
            = [(OutReuseAccept accept, ToTargets targets_v)]
            ∧ ∃ wi2,
                receive_reuse_accepted_message accept receipt known created.2 = (Ok tt, wi2)
                ∧ stored_state "oob-1" wi2 = Some OobRecord.STATE_ACCEPTED.
Proof.
  intros created r1.
  assert (created = (Ok r1, created.2)) as Hrun by (vm_compute; reflexivity).
  split; [exact Hrun|].
  destruct (reuse_round_trip pending known (start unanswered) created.2 r1 "oob-1" Hrun eq_refl)
    as (reuse_msg & targets & Hsent & Hanswer).
  - intros k' r' Hk' _ _.
    assert (oob_store created.2 = {[ "oob-1" := r1 ]}) as Hstore by (vm_compute; reflexivity).
    rewrite Hstore in Hk'. by apply lookup_singleton_Some in Hk' as [<- _].
  - exists reuse_msg, targets. split; [exact Hsent|].
    intros receipt_v conn_v wv wv' Hv.
    destruct (Hanswer receipt_v conn_v wv wv' Hv) as (accept & targets_v & Haccept & Hback).
    exists accept, targets_v. split; [exact Haccept|]. exact (Hback receipt known).
Defined.

(** X9 at an agent without an event bus. *)
Lemma event_waits_raise_without_bus_witness :
  (@_wait_for_reuse_response Env (faulty true true true false) (Some "oob-1")
     reuse_response_timeout with_reused).1 = Raise InjectionError.
Proof.
  destruct (@event_waits_raise_without_bus_or_record Env (faulty true true true false))
    as [Hreuse _].
  specialize (Hreuse (Some "oob-1") reuse_response_timeout with_reused). cbv zeta in Hreuse.
  destruct (@_wait_for_reuse_response Env (faulty true true true false) (Some "oob-1")
              reuse_response_timeout with_reused).1 as [r|err].
  - discriminate Hreuse.
  - destruct Hreuse as [(_ & -> & _)|(Hbus & _)]; [reflexivity | discriminate Hbus].
Defined.

(** X10 at a connection that stays in state [request]. *)
Lemma connection_wait_times_out_witness :
  let out := _wait_for_conn_rec_active (Some "conn-new") conn_rec_active_timeout handshaking in
  out.1 = Ok None
  ∧ Forall (λ b, connection_ready_event (Some "conn-new") b = None) (bus out.2).
Proof.
  intros out.
  destruct (connection_wait_times_out_only_without_event (E:=Env)) as [Hconn _].
  destruct (Hconn (Some "conn-new") conn_rec_active_timeout handshaking (trace out.2))
    as (Hnone & Hmissed & _).
  { reflexivity. }
  assert (EvTimeout ∈ trace out.2) as Hin by (vm_compute; repeat constructor).
  split; [by apply Hnone | exact (Hmissed Hin)].
Defined.

(** X11 at a reuse that is accepted while the invitee waits. *)
Lemma accepted_reuse_is_silent_witness :
  let run := _handle_hanshake_reuse pending known (start answered) in
  let r := value pending run in
  run = (Ok r, run.2)
  ∧ OobRecord.state r = OobRecord.STATE_ACCEPTED
  ∧ notifications (trace run.2) = []
  ∧ ∃ r1, saved_oob (trace run.2) = [r1]
          ∧ OobRecord.state r1 = OobRecord.STATE_AWAIT_RESPONSE.
Proof.
  intros run r.
  assert (run = (Ok r, run.2)) as Hrun by (vm_compute; reflexivity).
  assert (OobRecord.state r = OobRecord.STATE_ACCEPTED) as Hstate by (vm_compute; reflexivity).
  split; [exact Hrun|]. split; [exact Hstate|].
  destruct (accepted_reuse_is_silent_on_the_initiating_side pending known (start answered)
              run.2 r Hrun Hstate)
    as (t & r1 & Ht & Hquiet & Hsaved & Hawait & _).
  rewrite Ht. split; [exact Hquiet|]. exists r1. split; [exact Hsaved | exact Hawait].
Defined.

(** X12 at an invitee without a responder. *)
Lemma failed_reuse_send_aborts_witness :
  ∃ cause w1 t,
    @receive_invitation Env (faulty true false true true) invitation true None None None
      (start unanswered)
    = (Raise (OutOfBandManagerError (ErrorCreatingReuse cause)), w1)
    ∧ trace w1 = t
    ∧ handshakes t = [].
Proof.
  pose (begun := @receive_invitation_begin Env (faulty true false true true) invitation true None
                   (start unanswered)).
  pose (r0 := match begun.1 with Ok (_, r0, _) => r0 | Raise _ => pending end).
  pose (failed := @_create_handshake_reuse_message Env (faulty true false true true) r0 known
                    begun.2).
  pose (err := match failed.1 with Raise err => err | Ok _ => IndexError end).
  destruct (@failed_reuse_send_aborts_receive_invitation Env (faulty true false true true)
              invitation true None None None None r0 (Some known) known err
              (start unanswered) begun.2 failed.2)
    as (Hrun & (cause & Hcause) & (t & Ht & Hnone & _) & _).
  - vm_compute. reflexivity.
  - reflexivity.
  - vm_compute. reflexivity.
  - exists cause, failed.2, t. rewrite <-Hcause. split; [exact Hrun|].
    split; [exact Ht | exact Hnone].
Defined.

(** X14 at an invitation without a service entry. *)
Lemma malformed_invitation_is_turned_down_witness :
  ∃ w',
    receive_invitation no_service true None None None (start quiet)
    = (Raise (OutOfBandManagerError ServiceArrayNotOne), w')
    ∧ untouched (start quiet) w'.
Proof.
  destruct (receive_invitation_turns_down_malformed_invitation no_service true None None None
              (start quiet))
    as (err & w' & Hrun & Hsame & [->|(Hm & _)]).
  - left. discriminate.
  - exists w'. split; [exact Hrun | exact Hsame].
  - discriminate Hm.
Defined.

(** X15 at a mediation id that the lookup does not find. *)
Lemma unknown_mediation_id_is_dropped_witness :
  @receive_invitation Env (faulty true true false true) invitation false None None
    (Some "mediation-9") (start quiet)
  = @receive_invitation Env (faulty true true false true) invitation false None None None
      (start quiet).
Proof.
  apply (@unknown_mediation_id_is_dropped Env (faulty true true false true) invitation false None
           None "mediation-9" quiet (start quiet)).
  - discriminate.
  - reflexivity.
Defined.

(** X16 at an invitation received without [use_existing_connection]. *)
Lemma no_reuse_without_use_existing_connection_witness :
  sent_messages (trace (receive_invitation invitation false None None None
                          (start unanswered)).2) = [].
Proof.
  destruct (no_reuse_without_public_did_or_with_attachment invitation false None None None
              (start unanswered)) as (t & Ht & Hsent & _).
  - left. reflexivity.
  - rewrite Ht. exact Hsent.
Defined.

(** X17 at a request from the public DID of a known connection. *)
Lemma attachment_is_handled_over_the_connection_witness :
  let run := receive_invitation with_request true None None None acquainted in
  ∃ r, run.1 = Ok r
       ∧ OobRecord.state r = OobRecord.STATE_DONE
       ∧ OobRecord.connection_id r = Some "conn-known"
       ∧ handshakes (trace run.2) = []
       ∧ handled_messages (trace run.2) = [request].
Proof.
  intros run.
  pose (begun := receive_invitation_begin with_request true None acquainted).
  pose (r0 := match begun.1 with Ok (_, r0, _) => r0 | Raise _ => pending end).
  destruct (attachment_is_handled_over_the_connection_found with_request true None None None
              None r0 known acquainted begun.2)
    as (t & Ht & Hnone & _ & _ & _ & _ & Hdone).
  - vm_compute. reflexivity.
  - discriminate.
  - fold run in Ht, Hdone.
    assert (run.1 = Ok (OobRecord.set_state OobRecord.STATE_DONE r0)) as Hrun
      by (vm_compute; reflexivity).
    destruct (Hdone _ Hrun) as (_ & Hconn & content & rest & Hattach & Hhandled).
    injection Hattach as <- _.
    eexists. split; [exact Hrun|]. split; [reflexivity|]. split; [exact Hconn|].
    rewrite Ht. split; [exact Hnone | exact Hhandled].
Defined.

(** X18 at a request without a handshake protocol. *)
Lemma connectionless_exchange_creates_a_key_witness :
  let run := receive_invitation request_only true None None None (start quiet) in
  ∃ r key id stored,
    run.1 = Ok r
    ∧ OobRecord.state r = OobRecord.STATE_DONE
    ∧ created_keys (trace run.2) = [key]
    ∧ OobRecord.oob_id r = Some id
    ∧ oob_store run.2 !! id = Some stored
    ∧ OobRecord.our_recipient_key stored = Some key
    ∧ OobRecord.state stored = OobRecord.STATE_INITIAL.
Proof.
  intros run.
  pose (begun := receive_invitation_begin request_only true None (start quiet)).
  pose (r0 := match begun.1 with Ok (_, r0, _) => r0 | Raise _ => pending end).
  pose (r := value pending run).
  assert (run = (Ok r, run.2)) as Hrun by (vm_compute; reflexivity).
  destruct (connectionless_exchange_creates_and_stores_a_key request_only true None None None
              None r0 r (start quiet) begun.2 run.2)
    as (key & content & rest & id & _ & Ht & Hr & _ & Hid & Hstored & Hstate).
  - vm_compute. reflexivity.
  - reflexivity.
  - exact Hrun.
  - exists r, key, id, (OobRecord.set_our_recipient_key (Some key) r0).
    split; [by rewrite Hrun|]. split; [by rewrite Hr|]. split; [by rewrite Ht|].
    split; [exact Hid|]. split; [exact Hstored|]. split; [reflexivity | exact Hstate].
Defined.

(** X19 at an invitation that lists the one protocol [RFC23]. *)
Lemma completed_invitation_made_one_handshake_witness :
  let run := receive_invitation invitation false None None None (start quiet) in
  ∃ r cid,
    run.1 = Ok r
    ∧ handshakes (trace run.2) = [RFC23]
    ∧ OobRecord.connection_id r = Some cid.
Proof.
  intros run.
  pose (r := value pending run).
  assert (run = (Ok r, run.2)) as Hrun by (vm_compute; reflexivity).
  destruct (completed_invitation_without_attachment_made_one_handshake invitation false None
              None None (start quiet) run.2 r Hrun)
    as (t & protocol & cid & Ht & Hone & Hfirst & Hcid & _).
  - vm_compute. reflexivity.
  - reflexivity.
  - exists r, cid. split; [by rewrite Hrun|]. rewrite Ht. split; [|exact Hcid].
    change (handshakes t = [RFC23]). rewrite Hone. f_equal.
    vm_compute in Hfirst. by injection Hfirst.
Defined.

(** X20 at a pairwise invitation for [RFC23]. *)
Lemma create_invitation_stores_one_sender_record_witness :
  ∃ rec w' oid key,
    create_invitation None None None false [RFC23] false None [] [] None (start quiet)
    = (Ok rec, w')
    ∧ InvitationRecord.oob_id rec = Some oid
    ∧ OobRecord.state <$> oob_store w' !! oid = Some OobRecord.STATE_AWAIT_RESPONSE
    ∧ OobRecord.our_recipient_key <$> oob_store w' !! oid = Some (Some key).
Proof.
  destruct (create_invitation None None None false [RFC23] false None [] [] None (start quiet))
    as [[rec|err] w'] eqn:Hrun; [|vm_compute in Hrun; discriminate].
  destruct (create_invitation_stores_one_sender_record _ _ _ _ _ _ _ _ _ _ _ _ _ Hrun)
    as (oid & connection_id & key & services & t & Hoid & _ & Hstore & _).
  exists rec, w', oid, key. split; [reflexivity|]. split; [exact Hoid|].
  rewrite Hstore, lookup_insert_eq. split; reflexivity.
Defined.

(** X21 at a pairwise invitation for [RFC23], received by an agent that
    looks for an existing connection. *)
Lemma created_invitation_passes_the_receivers_checks_witness :
  ∃ rec w' r0 t,
    create_invitation None None None false [RFC23] false None [] [] None (start quiet)
    = (Ok rec, w')
    ∧ trace (receive_invitation (InvitationRecord.invitation rec) true None None None
               (start unanswered)).2 = EvSaveOob r0 :: t
    ∧ OobRecord.invitation r0 = InvitationRecord.invitation rec.
Proof.
  destruct (create_invitation None None None false [RFC23] false None [] [] None (start quiet))
    as [[rec|err] w'] eqn:Hrun; [|vm_compute in Hrun; discriminate].
  destruct (created_invitation_passes_the_receivers_checks _ _ _ _ _ _ _ _ _ _ _ _ _
              true None None None (start unanswered) Hrun)
    as [(r0 & t & Ht & _ & _ & _ & Hinv)|(err & _ & _ & [(Hm & _)|(d & e & Hfind)])].
  - exists rec, w', r0, t. split; [reflexivity|]. split; [exact Ht | exact Hinv].
  - discriminate Hm.
  - discriminate Hfind.
Defined.

(** X22 at a pairwise invitation for [RFC23]. *)
Lemma invitation_connection_is_made_witness :
  ∃ rec w' cid c,
    create_invitation None None None false [RFC23] false None [] [] None (start quiet)
    = (Ok rec, w')
    ∧ conn_store w' !! cid = Some c
    ∧ ConnRecord.invitation_msg_id c = Some (InvitationRecord.invi_msg_id rec)
    ∧ ConnRecord.attached_invitation c = Some (InvitationRecord.invitation rec).
Proof.
  destruct (create_invitation None None None false [RFC23] false None [] [] None (start quiet))
    as [[rec|err] w'] eqn:Hrun; [|vm_compute in Hrun; discriminate].
  destruct (invitation_connection_is_made_iff_handshake_is_offered _ _ _ _ _ _ _ _ _ _ _ _ _
              Hrun)
    as (oid & stored & _ & _ & cid & c & _ & Hconn & _ & (Hmsg & _) & Hattached & _).
  exists rec, w', cid, c. split; [reflexivity|].
  rewrite Hconn, lookup_insert_eq. split; [reflexivity|]. split; [exact Hmsg | exact Hattached].
Defined.

(** X23 at an agent whose public invitations are not enabled. *)
Lemma public_invitation_needs_setting_witness :
  ∃ w',
    @create_invitation Env (faulty false true true true) None None None true [RFC23] false None []
      [] None (start quiet)
    = (Raise (OutOfBandManagerError PublicInvitesNotEnabled), w')
    ∧ untouched (start quiet) w'.
Proof.
  destruct (@public_invitation_needs_setting_and_public_did Env (faulty false true true true)
              None None None [RFC23] false None [] [] None (start quiet))
    as (err & w' & Hrun & Hsame & Herr).
  - left. reflexivity.
  - rewrite Herr in Hrun; [|discriminate|reflexivity|reflexivity|reflexivity|by eexists].
    exists w'. split; [exact Hrun | exact Hsame].
Defined.

(** X24 at a pairwise invitation made under the mediation record
    [mediator]. *)
Lemma pairwise_invitation_is_routed_through_the_mediator_witness :
  ∃ rec w' service,
    create_invitation None None None false [RFC23] false None [] [] None (start mediated)
    = (Ok rec, w')
    ∧ InvitationMessage.services (InvitationRecord.invitation rec) = [ServiceBlock service]
    ∧ service_endpoint service = Some "http://mediator".
Proof.
  destruct (create_invitation None None None false [RFC23] false None [] [] None
              (start mediated))
    as [[rec|err] w'] eqn:Hrun; [|vm_compute in Hrun; discriminate].
  assert (multitenant_relay (E:=Env) = None) as Hrelay by reflexivity.
  assert (mediation_record_if_id None true (env (start mediated))
          = (Ok (Some mediator), mediated)) as Hmediation by reflexivity.
  destruct (pairwise_invitation_is_routed_through_the_mediator _ _ _ _ _ _ _ _ _ _ _ _
              mediator mediated Hrelay Hmediation Hrun)
    as (recipient_key & routing_keys & t & updates & cid & c & Hservices & _).
  exists rec, w'. eexists. split; [reflexivity|]. split; [exact Hservices | reflexivity].
Defined.

(** X25 at an invitation for [RFC160] before [RFC23], received without
    [use_existing_connection]. *)
Lemma invitee_starts_the_inviters_first_protocol_witness :
  ∃ rec w' r v',
    create_invitation None None None true [RFC160; RFC23] false None [] [] None (start quiet)
    = (Ok rec, w')
    ∧ receive_invitation (InvitationRecord.invitation rec) false None None None
        (start unanswered) = (Ok r, v')
    ∧ handshakes (trace v') = [RFC160].
Proof.
  destruct (create_invitation None None None true [RFC160; RFC23] false None [] [] None
              (start quiet))
    as [[rec|err] w'] eqn:Hrun; [|vm_compute in Hrun; discriminate].
  destruct (receive_invitation (InvitationRecord.invitation rec) false None None None
              (start unanswered))
    as [[r|err] v'] eqn:Hreceive.
  2:{ vm_compute in Hrun. injection Hrun as <- _. vm_compute in Hreceive. discriminate. }
  assert (∀ p, HSProto_get (E:=Env)
                 (DIDCommPrefix_unqualify (DIDCommPrefix_qualify_current (HSProto_name p)))
               = Some p) as Hget by (intros []; reflexivity).
  destruct (invitee_starts_the_inviters_first_protocol _ _ _ _ _ _ _ _ _ _ _ _ _ _ _ _ _ _ r
              Hget (or_introl eq_refl) Hrun Hreceive)
    as (hsp & t & cid & Hhead & Ht & Hone & _).
  exists rec, w', r, v'. split; [reflexivity|]. split; [exact Hreceive|].
  rewrite Ht. change (handshakes t = [RFC160]). rewrite Hone.
  injection Hhead as <-. reflexivity.
Defined.

End Scripted.
